(** * UQpy sampling methods: a shallow embedding and its verified properties

    The development follows [UQpy/Distributions.py] and
    [UQpy/SampleMethods.py]: the distribution registry, the Monte Carlo,
    Latin hypercube, stratified and partially stratified samplers, the
    [Strata] decomposition and the MCMC engine.

    Conventions of the embedding.
    - Python code that can raise returns [result]: [Ok v] or [Raise e] with
      the exception class.
    - NumPy float arrays are lists (vectors) and lists of rows (matrices) of
      rationals [Q]: floating-point values are idealised as exact numbers.
      Where the source stores values in single precision, or compares
      integers through a double-precision array, the rounding is an explicit
      operation, left abstract.
    - Python integers are [Z]; positions in arrays are [nat].
    - Every draw from [numpy.random] or [random] goes through an explicit
      random source that is threaded through the samplers. *)

From Stdlib Require Import ZArith QArith Qabs Qround Qminmax Lia Lqa String.
From Stdlib Require Import Permutation.
From stdpp Require Import base list.

Local Open Scope string_scope.
Local Open Scope list_scope.
Local Open Scope Z_scope.

(** * Python runtime model *)

Module Py.

(** The exception classes the two source files can raise. *)
Inductive exn : Type :=
| NotImplementedError
| ValueError
| TypeError
| IndexError
| AttributeError
| UnboundLocalError
| ZeroDivisionError
| OverflowError
| SystemExit.

Inductive result (A : Type) : Type :=
| Ok (a : A)
| Raise (e : exn).
Global Arguments Ok {A} a.
Global Arguments Raise {A} e.

Global Instance result_ret : MRet result := fun A a => Ok a.
Global Instance result_bind : MBind result := fun A B f m =>
  match m with
  | Ok a => f a
  | Raise e => Raise e
  end.

Definition is_ok {A} (r : result A) : bool :=
  match r with Ok _ => true | Raise _ => false end.

(** [for x in xs: s = body(x, s)] with exceptions propagating. *)
Fixpoint for_ {A S : Type} (xs : list A) (body : A → S → result S) (s : S)
  : result S :=
  match xs with
  | [] => Ok s
  | x :: xs' => s' ← body x s; for_ xs' body s'
  end.

(** [range(n)], [range(a, b)] and [range(a, b, step)] for a positive step. *)
Definition range (n : Z) : list nat := seq 0 (Z.to_nat n).
Definition range2 (a b : Z) : list nat :=
  seq (Z.to_nat a) (Z.to_nat (b - a)).
Fixpoint range_step_from (fuel : nat) (a : nat) (b : Z) (step : nat)
  : list nat :=
  match fuel with
  | O => []
  | S fuel' =>
      if (Z.of_nat a <? b)%Z
      then a :: range_step_from fuel' (a + step) b step
      else []
  end.
Definition range3 (a b : Z) (step : Z) : list nat :=
  range_step_from (Z.to_nat (b - a)) (Z.to_nat a) b (Z.to_nat step).

(** [xs[i]] on a list or along the first axis of an array. *)
Definition index {A} (xs : list A) (i : nat) : result A :=
  match xs !! i with
  | Some x => Ok x
  | None => Raise IndexError
  end.

(** [xs * n] on Python lists: a non-positive count gives the empty list. *)
Fixpoint list_mul {A} (xs : list A) (n : nat) : list A :=
  match n with
  | O => []
  | S n' => xs ++ list_mul xs n'
  end.

(** Binding of a call's arguments to a [def]'s parameters: [params] lists
    each parameter name with whether it has a default; the call passes
    [npos] positional arguments and the keywords [kws].  Python raises
    [TypeError] for too many positional arguments, for a keyword that
    names no parameter or one already bound, and for a parameter without
    default left unbound. *)
Definition bound_by (params : list (string * bool)) (npos : nat)
           (kws : list string) : bool :=
  (npos <=? length params)%nat
  && forallb (fun k => existsb (String.eqb k) (map fst (drop npos params))) kws
  && forallb (fun p => snd p || existsb (String.eqb (fst p)) kws)
       (drop npos params).

Definition call {B} (params : list (string * bool)) (npos : nat)
           (kws : list string) (body : result B) : result B :=
  if bound_by params npos kws then body else Raise TypeError.

End Py.
Export Py.

(** * NumPy arrays over exact rationals *)

Module Np.

Abbreviation vector := (list Q).
Abbreviation matrix := (list (list Q)).

Definition Qsum (v : vector) : Q := foldr Qplus 0%Q v.
Definition Qprod (v : vector) : Q := foldr Qmult 1%Q v.
Definition Zprod (v : list Z) : Z := foldr Z.mul 1 v.

(** [np.zeros((n, m))] and [np.ones((n, m))]: negative dimensions are
    not allowed. *)
Definition full (x : Q) (n m : Z) : result matrix :=
  if (n <? 0) || (m <? 0) then Raise ValueError
  else Ok (replicate (Z.to_nat n) (replicate (Z.to_nat m) x)).
Definition zeros := full 0%Q.
Definition ones := full 1%Q.

(** [m[i, j]] *)
Definition get (m : matrix) (i j : nat) : result Q :=
  row ← index m i; index row j.

(** [m[i, :]] *)
Definition get_row (m : matrix) (i : nat) : result vector := index m i.

(** [m[i, j] = x] *)
Definition set (m : matrix) (i j : nat) (x : Q) : result matrix :=
  row ← index m i;
  if (j <? length row)%nat then Ok (<[i := <[j := x]> row]> m)
  else Raise IndexError.

(** [m[i, :] = v] for a one-dimensional [v]: the value must have the
    row's length, or length one, which broadcasts. *)
Definition set_row (m : matrix) (i : nat) (v : vector) : result matrix :=
  row ← index m i;
  if (length v =? length row)%nat then Ok (<[i := v]> m)
  else match v with
       | [x] => Ok (<[i := replicate (length row) x]> m)
       | _ => Raise ValueError
       end.

(** [m[:, j] = col] for a sequence [col]: one entry per row, or a single
    entry, which broadcasts. *)
Definition set_col (m : matrix) (j : nat) (col : vector) : result matrix :=
  if forallb (fun row => (j <? length row)%nat) m then
    if (length col =? length m)%nat
    then Ok (zip_with (fun row x => <[j := x]> row) m col)
    else match col with
         | [x] => Ok (map (fun row => <[j := x]> row) m)
         | _ => Raise ValueError
         end
  else Raise IndexError.

(** [np.divide(m, v)] with [v] broadcast along the rows; the callers
    below only reach it with as many columns as [v] has entries. *)
Definition divide_rows (m : matrix) (v : vector) : matrix :=
  map (fun row => zip_with Qdiv row v) m.

(** [np.prod(m, axis=1)] *)
Definition prod_axis1 (m : matrix) : vector := map Qprod m.

(** [np.float32(x)]: what an array of [dtype=np.float32] keeps of the
    value [x] stored in it.  The rounding is NumPy's, outside the
    repository. *)
Class Float32 : Type := float32 : Q → Q.

(** Double precision, outside the repository as well: [float64 x] is the
    double nearest to [x], [float_pow x y] is [x ** y] on doubles. *)
Class Float64 : Type := {
  float64 : Q → Q;
  float_pow : Q → Q → Q
}.

(** [float(n)], also when an int is stored in an array of doubles: an
    int that rounds past the largest double is refused. *)
Definition to_double `{Float64} (n : Z) : result Q :=
  if 2 ^ 1024 - 2 ^ 970 <=? Z.abs n then Raise OverflowError
  else Ok (float64 (inject_Z n)).

(** [np.linspace(0, 1, n + 1)] *)
Definition linspace01 (n : Z) : vector :=
  map (fun k => (inject_Z (Z.of_nat k) / inject_Z n)%Q) (range (n + 1)).

End Np.
Export Np.

(** * Strata (SampleMethods.py, class Strata) *)

Module Strata.

Record t : Type := mk {
  origins : matrix;
  widths : matrix;
  weights : vector
}.

(** The levels of one factor, each repeated [level_repeat] times:
    [for j in range(levels[i]): lvl += [j] * level_repeat]. *)
Definition lvl (level : Z) (level_repeat : Z) : list Z :=
  flat_map (fun j => list_mul [Z.of_nat j] (Z.to_nat level_repeat))
           (range level).

(** One pass of the loop of [fullfact] over factor [i]; the state is
    [(ff, level_repeat, range_repeat)]. *)
Definition fullfact_body (levels : list Z) (i : nat)
           (s : matrix * Z * Z) : result (matrix * Z * Z) :=
  let '(ff, level_repeat, range_repeat) := s in
  li ← index levels i;
  let range_repeat := range_repeat / li in
  let rng := list_mul (lvl li level_repeat) (Z.to_nat range_repeat) in
  let level_repeat := level_repeat * li in
  ff ← set_col ff i (map inject_Z rng);
  Ok (ff, level_repeat, range_repeat).

Definition fullfact (levels : list Z) : result matrix :=
  let n_factors := Z.of_nat (length levels) in
  let n_comb := Zprod levels in
  (* [np.prod([])] is the float [1.0], which [np.zeros] refuses as a
     dimension *)
  ff ← match levels with
       | [] => Raise TypeError
       | _ => zeros n_comb n_factors
       end;
  let level_repeat := 1 in
  let range_repeat := Zprod levels in
  s ← for_ (range n_factors) (fullfact_body levels)
           (ff, level_repeat, range_repeat);
  Ok (fst (fst s)).

(** The arguments of [Strata.__init__]; [input_file] is the table of
    numbers in the file, one list for each line. *)
Record args : Type := mk_args {
  nstrata : option (list Z);
  input_file : option matrix;
  arg_origins : option matrix;
  arg_widths : option matrix
}.

Definition tol : Q := (1 # 100000)%Q.

(** [array_tmp = np.loadtxt(input_file)] followed by the first use of
    [array_tmp.shape[1]]: lines of different lengths are refused by
    [loadtxt]; a file of one line or of one column is read as an array of
    one dimension (none for a single number), whose shape has no second
    entry. *)
Definition loadtxt (table : matrix) : result matrix :=
  match table with
  | [] => Raise IndexError
  | row0 :: _ =>
      if negb (forallb (fun row => (length row =? length row0)%nat) table)
      then Raise ValueError
      else if (length table <? 2)%nat || (length row0 <? 2)%nat
           then Raise IndexError
           else Ok table
  end.

Definition init (a : args) : result t :=
  match nstrata a with
  | None =>
      match input_file a with
      | None =>
          match arg_origins a, arg_widths a with
          | Some o, Some w => Ok (mk o w (prod_axis1 w))
          | _, _ => Raise SystemExit
          end
      | Some table =>
          array_tmp ← loadtxt table;
          let half row := (length row / 2)%nat in
          let o := map (fun row => take (half row) row) array_tmp in
          let w := map (fun row => drop (half row) row) array_tmp in
          let space_fill := Qsum (prod_axis1 w) in
          if negb (Qle_bool (1 - space_fill) tol) then Raise SystemExit
          else if negb (Qle_bool (- tol) (1 - space_fill))
               then Raise SystemExit
               else Ok (mk o w (prod_axis1 w))
      end
  | Some ns =>
      ff ← fullfact ns;
      let nsq := map inject_Z ns in
      let o := divide_rows ff nsq in
      ws ← ones (Z.of_nat (length o)) (Z.of_nat (length ns));
      let w := divide_rows ws nsq in
      Ok (mk o w (prod_axis1 w))
  end.

Definition of_nstrata (ns : list Z) : args := mk_args (Some ns) None None None.

End Strata.

(** * The random source

    [numpy.random] and [random] are process-wide generators.  The samplers
    receive the generator state [G] explicitly and return the state left
    after their draws.  The class lists the primitive draws with what their
    libraries guarantee about them. *)

Class RandomSource (G : Type) : Type := {
(** one double of NumPy's generator, as [np.random.random()] returns it *)
random_sample : G → Q * G;
random_sample_range g :
  (0 <= fst (random_sample g))%Q ∧ (fst (random_sample g) < 1)%Q;
(** one standard normal deviate of NumPy's generator *)
standard_normal : G → Q * G;
(** [np.random.multivariate_normal(mean, cov)] *)
multivariate_normal : vector → matrix → G → vector * G;
multivariate_normal_length mean cov g :
  length (fst (multivariate_normal mean cov g)) = length mean;
(** [np.random.permutation(n)]: a shuffle of [range(n)] *)
permutation : nat → G → list nat * G;
permutation_perm n g : Permutation (fst (permutation n g)) (seq 0 n);
(** [random.random()] of the standard library *)
py_random : G → Q * G;
py_random_range g :
  (0 <= fst (py_random g))%Q ∧ (fst (py_random g) < 1)%Q;
(** the position [random.choice] picks in a sequence of length [n] *)
py_randbelow : nat → G → nat * G;
py_randbelow_lt n g : (0 < n)%nat → (fst (py_randbelow n g) < n)%nat
}.

Module Random.
Section Draws.
Context {G : Type} `{RandomSource G}.

(** [np.random.uniform(low, high)]: [low + (high - low) * u]. *)
Definition uniform (low high : Q) (g : G) : Q * G :=
  let '(u, g) := random_sample g in ((low + (high - low) * u)%Q, g).

(** [np.random.normal(loc, scale)]: [loc + scale * z]. *)
Definition normal (loc scale : Q) (g : G) : Q * G :=
  let '(z, g) := standard_normal g in ((loc + scale * z)%Q, g).

(** A draw per entry, in order, as NumPy fills an output array. *)
Fixpoint draws {A B} (f : A → G → B * G) (xs : list A) (g : G)
  : list B * G :=
  match xs with
  | [] => ([], g)
  | x :: xs' =>
      let '(y, g) := f x g in
      let '(ys, g) := draws f xs' g in
      (y :: ys, g)
  end.

(** [np.random.uniform(low=lows, high=highs, size=len(lows))] *)
Definition uniform_vec (lows highs : vector) (g : G) : vector * G :=
  draws (fun lh => uniform (fst lh) (snd lh)) (zip lows highs) g.

(** [np.random.normal(locs, scales)] on arrays of one shape *)
Definition normal_vec (locs scales : vector) (g : G) : vector * G :=
  draws (fun ls => normal (fst ls) (snd ls)) (zip locs scales) g.

(** [np.random.rand(n, m)]: rows filled one after the other. *)
Definition rand (n m : Z) (g : G) : result (matrix * G) :=
  if (n <? 0) || (m <? 0) then Raise ValueError
  else Ok (draws (fun _ : nat => draws (fun _ : nat => random_sample)
                                   (range m))
                 (range n) g).

(** [random.choice(seq)] *)
Definition choice {A} (xs : list A) (g : G) : result (A * G) :=
  match xs with
  | [] => Raise IndexError
  | _ =>
      let '(k, g) := py_randbelow (length xs) g in
      x ← index xs k; Ok (x, g)
  end.

End Draws.
End Random.

(** * Distributions.py *)

Module Distributions.

(** The [scipy.stats] families the registry refers to. *)
Inductive family : Type :=
| uniform | norm | lognorm | weibull_min | expon | gamma.

Inductive method : Type := PDF | CDF | PPF.

(** [scipy.stats] itself is outside the repository: [stats m fam x ps]
    stands for [stats.fam.m(x, *ps)]. *)
Class Scipy : Type := stats : method → family → Q → list Q → Q.

(** The number of positional arguments that the methods of a family take
    after [x]: its shape parameters, then [loc] and [scale].  A call with
    more of them raises [TypeError]. *)
Definition positional (fam : family) : nat :=
  match fam with
  | uniform | norm | expon => 2
  | lognorm | weibull_min | gamma => 3
  end.

(** A function [f(x, params)] held in a registry slot. *)
Definition callable : Type := Q → list Q → result Q.

(** An entry of a [dist] list: a name still to be resolved or a
    function. *)
Inductive item : Type :=
| DStr (name : string)
| DFun (f : callable).

(** What the call sites hand to [pdf], [cdf] and [inv_cdf]. *)
Inductive arg : Type :=
| ArgList (l : list item)
| ArgStr (s : string)
| ArgArray (m : matrix)
| ArgParams (ps : list (list Q)).

Section Registry.
Context `{Scipy}.
(** The module [custom_dist] of the working directory, when the file
    [custom_dist.py] exists: its attributes by name. *)
Variable custom_dist : option (string → option callable).

(** [stats.fam.m(x, params[0], ..., params[n-1])]: the arguments are
    read first; SciPy then refuses more of them than the family takes. *)
Definition builtin (m : method) (fam : family) (n : nat) : callable :=
  fun x params =>
    ps ← for_ (seq 0 n) (fun k acc => p ← index params k; Ok (acc ++ [p])) [];
    if (n <=? positional fam)%nat then Ok (stats m fam x ps)
    else Raise TypeError.

(** The [if]/[elif] chain on one string [name]. *)
Definition resolve (m : method) (name : string) : result callable :=
  if (name =? "Uniform")%string then Ok (builtin m uniform 2)
  else if (name =? "Normal")%string then Ok (builtin m norm 2)
  else if (name =? "Lognormal")%string then Ok (builtin m lognorm 2)
  else if (name =? "Weibull")%string then Ok (builtin m weibull_min 2)
  else if (name =? "Beta")%string then Ok (builtin m weibull_min 4)
  else if (name =? "Exponential")%string then Ok (builtin m expon 2)
  else if (name =? "Gamma")%string then Ok (builtin m gamma 3)
  else match custom_dist with
       | Some modul =>
           match modul name with
           | Some f => Ok f
           | None => Raise AttributeError
           end
       | None => Raise NotImplementedError
       end.

(** The loop over [range(len(dist))].  On a list each string entry is
    replaced by its function.  On a string the entries are its
    characters, and the assignment [dist[i] = ...] that follows a
    successful lookup is refused by the immutable [str]. *)
Definition registry (m : method) (dist : arg) : result arg :=
  match dist with
  | ArgList l =>
      l' ← for_ l (fun it acc =>
              match it with
              | DStr name => f ← resolve m name; Ok (acc ++ [DFun f])
              | DFun f => Ok (acc ++ [DFun f])
              end) [];
      Ok (ArgList l')
  | ArgStr s =>
      _ ← for_ (list_ascii_of_string s) (fun ch (_ : unit) =>
              _ ← resolve m (String ch EmptyString);
              Raise TypeError) ();
      Ok (ArgStr s)
  | ArgArray a => Ok (ArgArray a)
  | ArgParams ps => Ok (ArgParams ps)
  end.

Definition pdf := registry PDF.
Definition cdf := registry CDF.
Definition inv_cdf := registry PPF.

(** [def pdf(dist)], [def cdf(dist)], [def inv_cdf(dist)]: one
    parameter, no default. *)
Definition params : list (string * bool) := [("dist", false)].

(** Calling [obj(x, ps)] on what a registry function returned. *)
Definition apply_arg (obj : arg) (x : Q) (ps : list Q) : result Q :=
  Raise TypeError.

(** Calling an entry of a resolved list. *)
Definition apply_item (it : item) (x : Q) (ps : list Q) : result Q :=
  match it with
  | DFun f => f x ps
  | DStr _ => Raise TypeError
  end.

(** [len(obj)] of a list entry handed on as [dist]. *)
Definition arg_of_item (it : item) : result arg :=
  match it with
  | DStr s => Ok (ArgStr s)
  | DFun _ => Raise TypeError
  end.

End Registry.

Definition names : list string :=
  ["Uniform"; "Normal"; "Lognormal"; "Weibull"; "Beta"; "Exponential";
   "Gamma"].

(** [i not in ['Uniform', ..., 'Gamma']] *)
Definition unrecognized (it : item) : bool :=
  match it with
  | DStr s => negb (existsb (String.eqb s) names)
  | DFun _ => true
  end.

End Distributions.

(** * Helpers shared by the samplers *)

Module Common.
Import Distributions.

Definition Qltb (x y : Q) : bool := negb (Qle_bool y x).

(** A [for] loop that collects one result per element. *)
Fixpoint traverse {A B} (f : A → result B) (xs : list A) : result (list B) :=
  match xs with
  | [] => Ok []
  | x :: xs' => y ← f x; ys ← traverse f xs'; Ok (y :: ys)
  end.

(** [m[:, j]] *)
Definition get_col (m : matrix) (j : nat) : result vector :=
  traverse (fun row => index row j) m.

(** [m[order, j]]: the entries of column [j] at the rows [order]. *)
Definition take_rows_col (m : matrix) (order : list nat) (j : nat)
  : result vector :=
  traverse (fun r => get m r j) order.

(** The block that [MCS], [LHS] and [PSS] repeat to spread a single
    distribution or a single parameter list over all dimensions:
    [list(chain.from_iterable(itertools.repeat(xs, dimension)))] is
    [xs * dimension]. *)
Definition broadcast_dist (dimension : Z) (dist_type : list item)
           (dist_params : list (list Q))
  : result (list item * list (list Q)) :=
  let lt := Z.of_nat (length dist_type) in
  let lp := Z.of_nat (length dist_params) in
  let n := Z.to_nat dimension in
  if (lt =? 1) && (lp =? dimension) then
    Ok (list_mul dist_type n, dist_params)
  else if (lp =? 1) && (lt =? dimension) then
    Ok (dist_type, list_mul dist_params n)
  else if (lp =? 1) && (lt =? 1) then
    Ok (list_mul dist_type n, list_mul dist_params n)
  else if negb (lt =? lp) then Raise NotImplementedError
  else Ok (dist_type, dist_params).

End Common.
Export Common.

(** * Monte Carlo simulation (class MCS) *)

Module MCS.
Import Distributions.

Module Args.
Record t : Type := mk {
  dimension : option Z;
  dist_type : option (list item);
  dist_params : option (list (list Q));
  nsamples : option Z
}.
End Args.

Record t : Type := mk {
  dimension : Z;
  nsamples : Z;
  dist_type : list item;
  dist_params : list (list Q)
}.

Definition init_mcs (a : Args.t) : result t :=
  match Args.nsamples a with
  | None => Raise NotImplementedError
  | Some nsamples =>
  match Args.dist_type a with
  | None => Raise NotImplementedError
  | Some dist_type =>
  if existsb unrecognized dist_type then Raise NotImplementedError else
  match Args.dist_params a with
  | None => Raise NotImplementedError
  | Some dist_params =>
  match Args.dimension a with
  | None =>
      if negb (length dist_type =? length dist_params)%nat
      then Raise NotImplementedError
      else Ok (mk (Z.of_nat (length dist_type)) nsamples dist_type dist_params)
  | Some dimension =>
      '(dist_type, dist_params) ←
        broadcast_dist dimension dist_type dist_params;
      Ok (mk dimension nsamples dist_type dist_params)
  end end end end.

Section Run.
Context {G : Type} `{RandomSource G} `{Scipy}.
Variable custom_dist : option (string → option callable).

Definition run_mcs (self : t) (g : G) : result (matrix * arg * G) :=
  '(samples, g) ← Random.rand (nsamples self) (dimension self) g;
  samples_u_to_x ←
    (* inv_cdf(samples, self.dist_type, self.dist_params) *)
    call Distributions.params 3 [] (inv_cdf custom_dist (ArgArray samples));
  Ok (samples, samples_u_to_x, g).

(** [MCS(...)]: [__init__] validates, then samples. *)
Definition new (a : Args.t) (g : G) : result (matrix * arg * G) :=
  self ← init_mcs a; run_mcs self g.
End Run.

End MCS.

(** * Latin hypercube sampling (class LHS) *)

Module LHS.
Import Distributions.

Module Args.
Record t : Type := mk {
  dimension : option Z;
  dist_type : option (list item);
  dist_params : option (list (list Q));
  lhs_criterion : option string;
  lhs_metric : option string;
  lhs_iter : option Z;
  nsamples : option Z
}.
(** The defaults of the signature of [__init__]. *)
Definition default : t :=
  mk (Some 1) None None (Some "random") (Some "euclidean") (Some 100) None.
End Args.

Record t : Type := mk {
  dimension : Z;
  nsamples : Z;
  dist_type : list item;
  dist_params : list (list Q);
  lhs_criterion : string;
  lhs_metric : string;
  lhs_iter : Z
}.

Definition criteria : list string :=
  ["random"; "centered"; "maximin"; "correlate"].

Definition metrics : list string :=
  ["braycurtis"; "canberra"; "chebyshev"; "cityblock"; "correlation";
   "cosine"; "dice"; "euclidean"; "hamming"; "jaccard"; "kulsinski";
   "mahalanobis"; "matching"; "minkowski"; "rogerstanimoto"; "russellrao";
   "seuclidean"; "sokalmichener"; "sokalsneath"; "sqeuclidean"].

Definition init_lhs (a : Args.t) : result t :=
  match Args.nsamples a with
  | None => Raise NotImplementedError
  | Some nsamples =>
  match Args.dist_type a with
  | None => Raise NotImplementedError
  | Some dist_type =>
  match Args.dist_params a with
  | None => Raise NotImplementedError
  | Some dist_params =>
  '(dimension, dist_type, dist_params) ←
    match Args.dimension a with
    | None =>
        if negb (length dist_type =? length dist_params)%nat
        then Raise NotImplementedError
        else Ok (Z.of_nat (length dist_type), dist_type, dist_params)
    | Some dimension =>
        '(dist_type, dist_params) ←
          broadcast_dist dimension dist_type dist_params;
        Ok (dimension, dist_type, dist_params)
    end;
  lhs_criterion ←
    match Args.lhs_criterion a with
    | None => Ok "random"
    | Some c =>
        if existsb (String.eqb c) criteria then Ok c
        else Raise NotImplementedError
    end;
  lhs_metric ←
    match Args.lhs_metric a with
    | None => Ok "euclidean"
    | Some c =>
        if existsb (String.eqb c) metrics then Ok c
        else Raise NotImplementedError
    end;
  let lhs_iter :=
    match Args.lhs_iter a with
    | None => 1000
    | Some it => if it =? 0 then 1000 else it
    end in
  Ok (mk dimension nsamples dist_type dist_params lhs_criterion lhs_metric
         lhs_iter)
  end end end.

Section Run.
Context {G : Type} `{RandomSource G} `{Scipy}.
Variable custom_dist : option (string → option callable).
(** [np.min(pdist(samples, metric))] and
    [np.max(np.abs(R[R != 1]))] for [R] the correlation matrix of the
    columns: SciPy and NumPy routines outside the repository. *)
Variable min_pdist : string → matrix → result Q.
Variable max_abs_corr : matrix → result Q.

(** [u[:, i] * (b - a) + a]; the three vectors have [nsamples]
    entries. *)
Definition scale_into (u a b : vector) : vector :=
  zip_with (fun ui ab => (ui * (snd ab - fst ab) + fst ab)%Q) u (zip a b).

Definition _random (self : t) (a b : vector) (g : G)
  : result (matrix * G) :=
  '(u, g) ← Random.rand (nsamples self) (dimension self) g;
  samples ← zeros (nsamples self) (dimension self);
  samples ← for_ (range (dimension self)) (fun i samples =>
               ui ← get_col u i;
               set_col samples i (scale_into ui a b)) samples;
  for_ (range (dimension self)) (fun j '(samples, g) =>
      let '(order, g) := permutation (Z.to_nat (nsamples self)) g in
      col ← take_rows_col samples order j;
      samples ← set_col samples j col;
      Ok (samples, g)) (samples, g).

Definition _centered (self : t) (a b : vector) (g : G)
  : result (matrix * G) :=
  samples ← zeros (nsamples self) (dimension self);
  let centers := zip_with (fun x y => ((x + y) / 2)%Q) a b in
  for_ (range (dimension self)) (fun i '(samples, g) =>
      let '(order, g) := permutation (length centers) g in
      col ← traverse (index centers) order;
      samples ← set_col samples i col;
      Ok (samples, g)) (samples, g).

Definition _max_min (self : t) (a b : vector) (g : G)
  : result (matrix * G) :=
  let max_min_dist := 0%Q in
  '(samples, g) ← _random self a b g;
  '(samples, _, g) ←
    for_ (range (lhs_iter self)) (fun _ '(samples, max_min_dist, g) =>
        '(samples_try, g) ← _random self a b g;
        d ← min_pdist (lhs_metric self) samples_try;
        if Qltb max_min_dist d then Ok (samples_try, d, g)
        else Ok (samples, max_min_dist, g)) (samples, max_min_dist, g);
  Ok (samples, g).

(** [min_corr] starts at [np.inf]: [None] here. *)
Definition _correlate (self : t) (a b : vector) (g : G)
  : result (matrix * G) :=
  '(samples, g) ← _random self a b g;
  '(samples, _, g) ←
    for_ (range (lhs_iter self)) (fun _ '(samples, min_corr, g) =>
        '(samples_try, g) ← _random self a b g;
        r ← max_abs_corr samples_try;
        let better :=
          match min_corr with
          | None => true
          | Some c => Qltb r c
          end in
        if better then Ok (samples_try, Some r, g)
        else Ok (samples, min_corr, g)) (samples, None, g);
  Ok (samples, g).

(** The unit-hypercube design that [run_lhs] builds before it
    transforms it. *)
Definition design (self : t) (g : G) : result (matrix * G) :=
  if (nsamples self + 1 <? 0) then Raise ValueError else
  let cut := linspace01 (nsamples self) in
  let a := take (Z.to_nat (nsamples self)) cut in
  let b := take (Z.to_nat (nsamples self)) (drop 1 cut) in
  if (lhs_criterion self =? "random")%string then _random self a b g
  else if (lhs_criterion self =? "centered")%string
       then _centered self a b g
  else if (lhs_criterion self =? "maximin")%string
       then _max_min self a b g
  else if (lhs_criterion self =? "correlate")%string
       then _correlate self a b g
  else Raise UnboundLocalError.

(** One entry of the transformed array:
    [icdf = inv_cdf(self.dist_type[j])] and
    [samples_u_to_x[i, j] = icdf(samples[i, j], self.dist_params[j])]. *)
Definition transform_entry (self : t) (samples : matrix) (i j : nat)
           (samples_u_to_x : matrix) : result matrix :=
  dj ← index (dist_type self) j;
  dist ← arg_of_item dj;
  icdf ← call Distributions.params 1 [] (inv_cdf custom_dist dist);
  x ← get samples i j;
  pj ← index (dist_params self) j;
  y ← apply_arg icdf x pj;
  set samples_u_to_x i j y.

Definition run_lhs (self : t) (g : G) : result (matrix * matrix * G) :=
  '(samples, g) ← design self g;
  let samples_u_to_x := map (map (fun _ => 0%Q)) samples in
  samples_u_to_x ←
    for_ (range (Z.of_nat (length samples))) (fun i acc =>
      for_ (range (dimension self)) (fun j acc =>
        transform_entry self samples i j acc) acc) samples_u_to_x;
  Ok (samples, samples_u_to_x, g).

Definition new (a : Args.t) (g : G) : result (matrix * matrix * G) :=
  self ← init_lhs a; run_lhs self g.
End Run.

End LHS.

(** * Stratified sampling (class STS) *)

Module STS.
Import Distributions.

(** [dist_type] may be one name or a list; [dist_params] one parameter
    array or a list of them. *)
Inductive one_or_list (A : Type) : Type :=
| One (x : A)
| Many (l : list A).
Global Arguments One {A} x.
Global Arguments Many {A} l.

Module Args.
Record t : Type := mk {
  dimension : option Z;
  dist_type : option (one_or_list item);
  dist_params : option (one_or_list (list Q));
  sts_design : option (list Z);
  input_file : option matrix
}.
End Args.

(** The parameters of [STS.__init__] after [self]; all have defaults. *)
Definition params : list (string * bool) :=
  [("dimension", true); ("dist_type", true); ("dist_params", true);
   ("sts_design", true); ("input_file", true)].

Record t : Type := mk {
  dimension : Z;
  dist_type : list item;
  dist_params : list (list Q);
  strata : Strata.t;
  icdf : list item
}.

(** [dist_type[i] is 'Uniform'] *)
Definition is_uniform (it : item) : bool :=
  match it with
  | DStr s => (s =? "Uniform")%string
  | DFun _ => false
  end.

(** [init_sts]; the last component is still to be filled by
    [inv_cdf]. *)
Definition init_sts (a : Args.t)
  : result (Z * list item * list (list Q) * Strata.t) :=
  dimension ←
    match Args.dimension a, Args.sts_design a with
    | None, Some d => Ok (Z.of_nat (length d))
    | Some dim, Some d =>
        if negb (dim =? Z.of_nat (length d)) then Raise NotImplementedError
        else Ok dim
    | None, None => Raise NotImplementedError
    | Some dim, None => Ok dim
    end;
  let dist_type :=
    match Args.dist_type a with
    | None => [DStr "Uniform"]
    | Some (One it) => [it]
    | Some (Many l) => l
    end in
  dist_type ←
    (if negb (Z.of_nat (length dist_type) =? dimension) then
       if (length dist_type =? 1)%nat
       then Ok (list_mul dist_type (Z.to_nat dimension))
       else Raise NotImplementedError
     else Ok dist_type);
  dist_params ←
    match Args.dist_params a with
    | None =>
        if forallb is_uniform dist_type
        then Ok (match dist_type with [] => [] | _ => [[0; 1]%Q] end)
        else Raise NotImplementedError
    | Some (One p) => Ok [p]
    | Some (Many l) => Ok l
    end;
  dist_params ←
    (if negb (Z.of_nat (length dist_params) =? dimension) then
       match Args.dist_params a, dist_type with
       | None, [] => Ok []
       | _, _ =>
           if (length dist_params =? 1)%nat
           then Ok (list_mul dist_params (Z.to_nat dimension))
           else Raise NotImplementedError
       end
     else Ok dist_params);
  strata ←
    match Args.sts_design a with
    | None =>
        match Args.input_file a with
        | None => Raise NotImplementedError
        | Some f => Strata.init (Strata.mk_args None (Some f) None None)
        end
    | Some d =>
        if negb (Z.of_nat (length d) =? dimension)
        then Raise NotImplementedError
        else Strata.init (Strata.of_nstrata d)
    end;
  Ok (dimension, dist_type, dist_params, strata).

Section Run.
Context {G : Type} `{RandomSource G} `{Scipy} `{Float32}.
Variable custom_dist : option (string → option callable).

(** Both arrays are created with [dtype=np.float32]: each entry is
    rounded as it is stored, and [samples[i, j]] read back for the
    transformation is the rounded draw. *)
Definition run_sts (self : t) (g : G) : result (matrix * matrix * G) :=
  let o := Strata.origins (strata self) in
  let w := Strata.widths (strata self) in
  let rows := length o in
  let cols := match o with [] => O | r :: _ => length r end in
  let empty := replicate rows (replicate cols 0%Q) in
  '(samples, samples_u_to_x, g) ←
    for_ (seq 0 cols) (fun j s =>
      invcdf ← index (icdf self) j;
      for_ (seq 0 rows) (fun i '(samples, samples_u_to_x, g) =>
        oij ← get o i j;
        wij ← get w i j;
        let '(u, g) := Random.uniform oij (oij + wij)%Q g in
        samples ← set samples i j (float32 u);
        pj ← index (dist_params self) j;
        x ← apply_item invcdf (float32 u) pj;
        samples_u_to_x ← set samples_u_to_x i j (float32 x);
        Ok (samples, samples_u_to_x, g)) s)
      (empty, empty, g);
  Ok (samples, samples_u_to_x, g).

(** [STS(...)]: the body of [__init__]; the result is
    [(samplesU01, samples)]. *)
Definition new (a : Args.t) (g : G) : result (matrix * matrix * G) :=
  '(dimension, dist_type, dist_params, strata) ← init_sts a;
  r ← call Distributions.params 1 []
        (inv_cdf custom_dist (ArgList dist_type));
  match r with
  | ArgList icdf =>
      run_sts (mk dimension dist_type dist_params strata icdf) g
  | _ => Raise TypeError
  end.
End Run.

End STS.

(** * Partially stratified sampling (class PSS) *)

Module PSS.
Import Distributions.

Module Args.
Record t : Type := mk {
  dimension : option Z;
  dist_type : option (list item);
  dist_params : option (list (list Q));
  pss_design : option (list Z);
  pss_strata : option (list Z)
}.
End Args.

(** A Python number: an [int] or a [float]. *)
Inductive number : Type :=
| Int (n : Z)
| Float (x : Q).

Record t : Type := mk {
  dimension : Z;
  dist_type : list item;
  dist_params : list (list Q);
  pss_design : list Z;
  pss_strata : list Z;
  nsamples : number
}.

Section Init.
Context `{Float64}.

(** [s ** d] on ints: an int for [d >= 0]; for [d < 0] both are made
    floats and the float power is taken, which refuses the base zero. *)
Definition int_pow (s d : Z) : result number :=
  if d <? 0 then
    x ← to_double s;
    y ← to_double d;
    if s =? 0 then Raise ZeroDivisionError
    else Ok (Float (float_pow x y))
  else Ok (Int (s ^ d)).

(** What an array of doubles keeps of a number stored in it. *)
Definition stored (v : number) : result Q :=
  match v with
  | Int n => to_double n
  | Float x => Ok x
  end.

(** The entries [sample_check[i, j] = pss_strata[i] ** pss_design[j]],
    row after row. *)
Definition sample_check (pss_strata pss_design : list Z)
  : result (list Q) :=
  for_ pss_strata (fun s acc =>
    for_ pss_design (fun d acc =>
      v ← int_pow s d;
      x ← stored v;
      Ok (acc ++ [x])) acc) [].

(** [init_pss], followed by the assignment of [nsamples] in
    [__init__]. *)
Definition init_pss (a : Args.t) : result t :=
  match Args.dist_type a with
  | None => Raise NotImplementedError
  | Some dist_type =>
  if existsb unrecognized dist_type then Raise NotImplementedError else
  match Args.dist_params a with
  | None => Raise NotImplementedError
  | Some dist_params =>
  match Args.pss_design a with
  | None => Raise NotImplementedError
  | Some pss_design =>
  match Args.pss_strata a with
  | None => Raise NotImplementedError
  | Some pss_strata =>
  if negb (length pss_design =? length pss_strata)%nat
  then Raise ValueError else
  check ← sample_check pss_strata pss_design;
  match check with
  | [] => Raise ValueError
  | c :: cs =>
  (* [np.max(sample_check) != np.min(sample_check)] *)
  if negb (forallb (Qeq_bool c) cs) then Raise ValueError else
  let total := foldr Z.add 0 pss_design in
  dimension ←
    match Args.dimension a with
    | None => Ok total
    | Some d => if negb (d =? total) then Raise NotImplementedError else Ok d
    end;
  '(dist_type, dist_params) ←
    broadcast_dist dimension dist_type dist_params;
  s0 ← index pss_strata 0;
  d0 ← index pss_design 0;
  nsamples ← int_pow s0 d0;
  Ok (mk dimension dist_type dist_params pss_design pss_strata nsamples)
  end end end end end.

End Init.

(** [m[:, col : col + k] = block] for a block of the same shape. *)
Definition set_block (m : matrix) (col k : nat) (block : matrix)
  : result matrix :=
  if (length block =? length m)%nat
     && forallb (fun row => (length row =? k)%nat) block
     && forallb (fun row => (col + k <=? length row)%nat) m
  then Ok (zip_with (fun row brow =>
                       take col row ++ brow ++ drop (col + k) row) m block)
  else if forallb (fun row => (col + k <=? length row)%nat) m
       then Raise ValueError else Raise IndexError.

(** [m[order, col : col + k]]: the rows [order] of the block. *)
Definition take_rows_block (m : matrix) (order : list nat) (col k : nat)
  : result matrix :=
  traverse (fun r => row ← index m r;
                     if (col + k <=? length row)%nat
                     then Ok (take k (drop col row))
                     else Raise IndexError) order.

Section Run.
Context {G : Type} `{RandomSource G} `{Scipy} `{Float32} `{Float64}.
Variable custom_dist : option (string → option callable).

(** [np.zeros((self.nsamples, self.dimension))]: a float is no
    dimension. *)
Definition zeros_pss (n : number) (m : Z) : result matrix :=
  match n with
  | Int n => zeros n m
  | Float _ => Raise TypeError
  end.

(** [self.nsamples] past the two calls of [np.zeros], where it is an
    int. *)
Definition count (n : number) : Z :=
  match n with Int n => n | Float _ => 0 end.

(** The two shuffles that close each pass of the loop of [run_pss]:
    [samples[:, index] = samples[np.random.permutation(arr), index]]
    and the same line for [samples_u_to_x]; each line draws its own
    permutation. *)
Definition shuffle_block (nsamples : Z) (col k : nat)
           (s : matrix * matrix * G) : result (matrix * matrix * G) :=
  let '(samples, samples_u_to_x, g) := s in
  let '(order, g) := permutation (Z.to_nat nsamples) g in
  block ← take_rows_block samples order col k;
  samples ← set_block samples col k block;
  let '(order, g) := permutation (Z.to_nat nsamples) g in
  block ← take_rows_block samples_u_to_x order col k;
  samples_u_to_x ← set_block samples_u_to_x col k block;
  Ok (samples, samples_u_to_x, g).

Definition run_pss_body (self : t) (i : nat)
           (s : matrix * matrix * G * nat)
  : result (matrix * matrix * G * nat) :=
  let '(samples, samples_u_to_x, g, col) := s in
  si ← index (pss_strata self) i;
  di ← index (pss_design self) i;
  n_stratum ← (if di <? 0 then Raise ValueError
               else Ok (list_mul [si] (Z.to_nat di)));
  '(stsU01, sts_samples, g) ←
    call STS.params 0 ["dist_type"; "dist_params"; "sts_design"; "pss_"]
      (STS.new custom_dist
         (STS.Args.mk None (Some (STS.Many (dist_type self)))
            (Some (STS.Many (dist_params self))) (Some n_stratum) None)
         g);
  let k := Z.to_nat di in
  samples ← set_block samples col k stsU01;
  samples_u_to_x ← set_block samples_u_to_x col k sts_samples;
  '(samples, samples_u_to_x, g) ←
    shuffle_block (count (nsamples self)) col k
                  (samples, samples_u_to_x, g);
  Ok (samples, samples_u_to_x, g, (col + k)%nat).

Definition run_pss (self : t) (g : G) : result (matrix * matrix * G) :=
  samples ← zeros_pss (nsamples self) (dimension self);
  samples_u_to_x ← zeros_pss (nsamples self) (dimension self);
  let col := O in
  '(samples, samples_u_to_x, g, _) ←
    for_ (range (Z.of_nat (length (pss_design self))))
         (run_pss_body self) (samples, samples_u_to_x, g, col);
  Ok (samples, samples_u_to_x, g).

Definition new (a : Args.t) (g : G) : result (matrix * matrix * G) :=
  self ← init_pss a; run_pss self g.
End Run.

End PSS.

(** * Markov chain Monte Carlo (class MCMC) *)

Module MCMC.
Import Distributions.
Import STS (one_or_list, One, Many).

(** An entry of a Python list of coordinates: a float, or the array of
    one entry that [np.random.uniform(low, high, size=1)] returns. *)
Inductive draw : Type :=
| Float (c : Q)
| Array1 (c : Q).

Definition value (d : draw) : Q :=
  match d with Float c | Array1 c => c end.

Definition is_array (d : draw) : bool :=
  match d with Float _ => false | Array1 _ => true end.

(** What a target is called with.  An array of floats is the list of its
    entries, a float alone the list of that entry; the joint mode of MMH
    passes a Python list, which can hold arrays of one entry. *)
Abbreviation point := (list draw).

Definition array (v : vector) : point := map Float v.

(** A list that NumPy makes no one-dimensional array of: it holds an
    array of one entry and has two or more entries (it is ragged, or a
    column).  The list of one such array is a point of one coordinate. *)
Definition no_array (x : point) : bool :=
  existsb is_array x && (2 <=? length x)%nat.

(** A target density [f(x, params)]; [x] is a point or, for a marginal
    density, its single coordinate. *)
Definition density : Type := point → list Q → result Q.

(** An entry of [pdf_target]: a function, or a name left as it is. *)
Inductive target_item : Type :=
| TFun (f : density)
| TName (s : string).

Inductive target : Type :=
| TargetStr (s : string)
| TargetFun (f : density)
| TargetList (l : list target_item).

(** A seed array: one point, or one point per row. *)
Inductive ndarray : Type :=
| Vec (v : vector)
| Mat (m : matrix).

(** [len(seed)] and [seed.shape[0]] *)
Definition len (s : ndarray) : nat :=
  match s with Vec v => length v | Mat m => length m end.

Module Args.
Record t : Type := mk {
  dimension : option Z;
  pdf_proposal_type : option (one_or_list string);
  pdf_proposal_scale : option (one_or_list Q);
  pdf_target_type : option string;
  pdf_target : option target;
  pdf_target_params : option (one_or_list Q);
  algorithm : option string;
  jump : option Z;
  nsamples : option Z;
  seed : option ndarray;
  nburn : option Z
}.
(** [MCMC()] with every option omitted. *)
Definition default : t :=
  mk None None None None None None None None None None None.
End Args.

Record t : Type := mk {
  dimension : Z;
  pdf_proposal_type : list string;
  pdf_proposal_scale : list Q;
  pdf_target_type : string;
  pdf_target : list target_item;
  pdf_target_params : list Q;
  algorithm : string;
  jump : Z;
  nsamples : Z;
  seed : ndarray;
  nburn : Z
}.

(** [alg is 'name'] and [alg == 'name'] while [alg] may still be
    [None]; the option values are string literals, for which identity
    and equality agree. *)
Definition is_ (alg : option string) (name : string) : bool :=
  match alg with
  | Some s => (s =? name)%string
  | None => false
  end.

Definition one_or_list_to_list {A} (x : one_or_list A) : list A :=
  match x with One a => [a] | Many l => l end.

(** [xs * dimension] when [xs] has one entry and another length is
    needed. *)
Definition broadcast {A} (dimension : Z) (xs : list A) : result (list A) :=
  if negb (Z.of_nat (length xs) =? dimension) then
    if (length xs =? 1)%nat then Ok (list_mul xs (Z.to_nat dimension))
    else Raise NotImplementedError
  else Ok xs.

Section Engine.
Context {G : Type} `{RandomSource G} `{Scipy}.
Variable custom_dist : option (string → option callable).
(** [sp.multivariate_normal.pdf(x, mean=np.zeros(d), cov=np.eye(d))] *)
Variable multivariate_normal_pdf : Z → vector → Q.

(** [def target(x, dummy): return sp.norm.pdf(x)], called on one
    coordinate; on more of them it returns an array, whose comparison
    with the draw has no truth value. *)
Definition norm_target : density :=
  fun x _ =>
    match x with
    | [x0] => Ok (stats PDF norm (value x0) [])
    | _ => Raise ValueError
    end.

(** [sp.multivariate_normal.pdf] makes an array of floats of its
    point. *)
Definition mvn_target (dimension : Z) : density :=
  fun x _ =>
    if no_array x then Raise ValueError
    else Ok (multivariate_normal_pdf dimension (map value x)).

(** ** Validation: [init_mcmc] *)

Definition init_mcmc (a : Args.t) : result t :=
  let alg := Args.algorithm a in
  let dimension := default 1 (Args.dimension a) in
  (* Check nsamples *)
  nsamples ← match Args.nsamples a with
             | None => Raise NotImplementedError
             | Some n => Ok n
             end;
  (* Check seed *)
  seed ← match Args.seed a with
         | None =>
             if dimension <? 0 then Raise ValueError
             else Ok (Vec (replicate (Z.to_nat dimension) 0%Q))
         | Some s => Ok s
         end;
  _ ← (if negb (is_ alg "Stretch") then
         if negb (Z.of_nat (len seed) =? dimension)
         then Raise NotImplementedError else Ok ()
       else
         if (len seed <? 3)%nat
         then Raise NotImplementedError else Ok ());
  (* Check jump *)
  let jump := default 1 (Args.jump a) in
  (* Check pdf_proposal_type *)
  let pdf_proposal_type :=
    match Args.pdf_proposal_type a with
    | None => ["Uniform"]
    | Some x => one_or_list_to_list x
    end in
  _ ← (if existsb (fun i => negb (existsb (String.eqb i)
                                          ["Uniform"; "Normal"]))
                   pdf_proposal_type
       then Raise ValueError else Ok ());
  pdf_proposal_type ←
    (if is_ alg "MH" && negb (length pdf_proposal_type =? 1)%nat
     then Raise ValueError
     else broadcast dimension pdf_proposal_type);
  (* Check pdf_proposal_scale *)
  let pdf_proposal_scale :=
    match Args.pdf_proposal_scale a with
    | None => if is_ alg "Stretch" then [2%Q] else [1%Q]
    | Some x => one_or_list_to_list x
    end in
  pdf_proposal_scale ← broadcast dimension pdf_proposal_scale;
  (* Check pdf_target_type *)
  let pdf_target_type :=
    match Args.pdf_target_type a with
    | None => if is_ alg "MMH" then Some "marginal_pdf" else None
    | Some ty => Some ty
    end in
  let pdf_target_type :=
    if is_ alg "Stretch" then Some "joint_pdf" else pdf_target_type in
  pdf_target_type ←
    match pdf_target_type with
    | Some ty =>
        if existsb (String.eqb ty) ["joint_pdf"; "marginal_pdf"]
        then Ok ty else Raise ValueError
    | None => Raise ValueError
    end;
  (* Check algorithm *)
  algorithm ←
    match alg with
    | None => Ok "MMH"
    | Some s =>
        if existsb (String.eqb s) ["MH"; "MMH"; "Stretch"]
        then Ok s else Raise NotImplementedError
    end;
  (* Check pdf_target *)
  pdf_target ←
    match Args.pdf_target a with
    | Some (TargetStr s) =>
        _ ← call Distributions.params 1 [] (pdf custom_dist (ArgStr s));
        Ok [TName s]
    | None =>
        if (algorithm =? "MMH")%string then
          if (dimension =? 1) || (pdf_target_type =? "marginal_pdf")%string
          then
            if dimension =? 1 then Ok [TFun norm_target]
            else Ok (list_mul [TFun norm_target] (Z.to_nat dimension))
          else Ok [TFun (mvn_target dimension)]
        else
          if dimension =? 1 then Ok [TFun norm_target]
          else Ok [TFun (mvn_target dimension)]
    | Some (TargetFun f) => Ok [TFun f]
    | Some (TargetList l) => Ok l
    end;
  (* Check pdf_target_params *)
  let pdf_target_params :=
    match Args.pdf_target_params a with
    | None => []
    | Some x => one_or_list_to_list x
    end in
  let nburn := default 0 (Args.nburn a) in
  Ok (mk dimension pdf_proposal_type pdf_proposal_scale pdf_target_type
         pdf_target pdf_target_params algorithm jump nsamples seed nburn).

(** ** Sampling: [run_mcmc] *)

(** [f(x, params)] for an entry of [pdf_target], on a Python list and
    on an array. *)
Definition apply_point (pdf_ : target_item) (x : point) (ps : list Q)
  : result Q :=
  match pdf_ with
  | TFun f => f x ps
  | TName _ => Raise TypeError
  end.

Definition apply_target (pdf_ : target_item) (x : vector) (ps : list Q)
  : result Q :=
  apply_point pdf_ (array x) ps.

(** [p / q] on Python floats *)
Definition div (p q : Q) : result Q :=
  if Qeq_bool q 0 then Raise ZeroDivisionError else Ok (p / q)%Q.

(** [np.random.random() < p / q] with the draw [u], for values [p] and
    [q] of a target, which are NumPy floats as SciPy's densities return
    them: a division by zero raises nothing and gives [inf], [-inf] or
    [nan], of which only [inf] is above the draw. *)
Definition accepts (u p q : Q) : bool :=
  if Qeq_bool q 0 then Qltb 0 p else Qltb u (p / q)%Q.

(** [np.diag(np.array(scale))] *)
Definition diag (scale : vector) : matrix :=
  imap (fun k x => <[k := x]> (replicate (length scale) 0%Q)) scale.

(** [samples[0, :] = self.seed] *)
Definition assign_seed (samples : matrix) (seed : ndarray)
  : result matrix :=
  match seed with
  | Vec v => set_row samples 0 v
  | Mat [v] => set_row samples 0 v
  | Mat _ => _ ← index samples 0; Raise ValueError
  end.

(** *** Metropolis-Hastings *)

(** The proposal of one MH step.  [self.pdf_proposal_type] is the list
    that [init_mcmc] built, so the test
    [self.pdf_proposal_type == 'Uniform'] compares a list with a
    string. *)
Definition list_eq_str (l : list string) (s : string) : bool := false.

Definition mh_candidate (self : t) (samples : matrix) (i : nat) (g : G)
  : result (vector * G) :=
  t0 ← index (pdf_proposal_type self) 0;
  if (t0 =? "Normal")%string then
    x ← get_row samples i;
    if dimension self =? 1
    then Ok (Random.normal_vec x (pdf_proposal_scale self) g)
    else Ok (multivariate_normal x (diag (pdf_proposal_scale self)) g)
  else if list_eq_str (pdf_proposal_type self) "Uniform" then
    x ← get_row samples i;
    let half := map (fun s => (s / 2)%Q) (pdf_proposal_scale self) in
    Ok (Random.uniform_vec (zip_with Qminus x half) (zip_with Qplus x half) g)
  else
    (* no branch assigned [candidate]; its use in the next statement *)
    Raise UnboundLocalError.

(** The candidate, the current point and the acceptance of step [i]. *)
Definition mh_draw (self : t) (pdf_ : target_item) (samples : matrix)
           (i : nat) (g : G) : result (vector * vector * bool * G) :=
  '(candidate, g) ← mh_candidate self samples i g;
  p_proposal ← apply_target pdf_ candidate (pdf_target_params self);
  x ← get_row samples i;
  p_current ← apply_target pdf_ x (pdf_target_params self);
  let '(u, g) := random_sample g in
  let accept := accepts u p_proposal p_current in
  Ok (candidate, x, accept, g).

Definition mh_body (self : t) (pdf_ : target_item) (i : nat)
           (s : matrix * G) : result (matrix * G) :=
  let '(samples, g) := s in
  '(candidate, x, accept, g) ← mh_draw self pdf_ samples i g;
  if accept : bool then
    samples ← set_row samples (i + 1) candidate; Ok (samples, g)
  else
    samples ← set_row samples (i + 1) x; Ok (samples, g).

(** The number of transitions of the MH and MMH loops. *)
Definition transitions (self : t) : Z :=
  nsamples self * jump self - 1 + nburn self.

Definition mh_chain (self : t) (samples : matrix) (g : G)
  : result (matrix * G) :=
  samples ← assign_seed samples (seed self);
  pdf_ ← index (pdf_target self) 0;
  for_ (range (transitions self)) (mh_body self pdf_) (samples, g).

(** *** Modified Metropolis-Hastings *)

(** The proposal for coordinate [j] around [x]:
    [np.random.normal(loc, scale)] is a float,
    [np.random.uniform(low, high, size=1)] an array of one entry; [None]
    when neither branch assigns. *)
Definition mmh_candidate (self : t) (j : nat) (x : Q) (g : G)
  : result (option draw * G) :=
  tj ← index (pdf_proposal_type self) j;
  if (tj =? "Normal")%string then
    sj ← index (pdf_proposal_scale self) j;
    let '(c, g) := Random.normal x sj g in Ok (Some (Float c), g)
  else if (tj =? "Uniform")%string then
    sj ← index (pdf_proposal_scale self) j;
    let '(c, g) := Random.uniform (x - sj / 2)%Q (x + sj / 2)%Q g in
    Ok (Some (Array1 c), g)
  else Ok (None, g).

(** [marginal_pdf]: candidate, current value and acceptance of
    coordinate [j] at step [i].  The target gets a float or an array of
    one entry, and the cell [samples[i + 1, j]] takes the entry of
    either. *)
Definition mmh_marginal_draw (self : t) (samples : matrix) (i j : nat)
           (g : G) : result (Q * Q * bool * G) :=
  pdf_ ← index (pdf_target self) j;
  tj ← index (pdf_proposal_type self) j;
  x ← get samples i j;
  '(c, g) ← mmh_candidate self j x g;
  candidate ← match c with
              | Some c => Ok (value c)
              | None => Raise UnboundLocalError
              end;
  p_proposal ← apply_target pdf_ [candidate] (pdf_target_params self);
  p_current ← apply_target pdf_ [x] (pdf_target_params self);
  let '(u, g) := random_sample g in
  let accept := accepts u p_proposal p_current in
  Ok (candidate, x, accept, g).

Definition mmh_marginal_coord (self : t) (i j : nat) (s : matrix * G)
  : result (matrix * G) :=
  let '(samples, g) := s in
  '(candidate, x, accept, g) ← mmh_marginal_draw self samples i j g;
  if accept : bool then
    samples ← set samples (i + 1) j candidate; Ok (samples, g)
  else
    samples ← set samples (i + 1) j x; Ok (samples, g).

Definition mmh_marginal_body (self : t) (i : nat) (s : matrix * G)
  : result (matrix * G) :=
  for_ (range (dimension self)) (mmh_marginal_coord self i) s.

(** [joint_pdf]: the state of the inner loop is the two Python lists
    [(candidate, current)] and the random source; the draw for
    coordinate [j] gives the candidate list and the acceptance. *)
Definition mmh_joint_draw (self : t) (pdf_ : target_item)
           (samples : matrix) (i j : nat)
           (s : point * point * G) : result (point * bool * G) :=
  let '(candidate, current, g) := s in
  x ← get samples i j;
  '(c, g) ← mmh_candidate self j x g;
  candidate ← match c with
              | Some c =>
                  if (j <? length candidate)%nat
                  then Ok (<[j := c]> candidate)
                  else Raise IndexError
              | None => Ok candidate
              end;
  p_proposal ← apply_point pdf_ candidate (pdf_target_params self);
  p_current ← apply_point pdf_ current (pdf_target_params self);
  let '(u, g) := random_sample g in
  let accept := accepts u p_proposal p_current in
  Ok (candidate, accept, g).

Definition mmh_joint_coord (self : t) (pdf_ : target_item)
           (samples : matrix) (i j : nat)
           (s : point * point * G) : result (point * point * G) :=
  let '(_, current, _) := s in
  '(candidate, accept, g) ← mmh_joint_draw self pdf_ samples i j s;
  cj ← index candidate j;
  xj ← index current j;
  if accept : bool then Ok (candidate, <[j := cj]> current, g)
  else Ok (<[j := xj]> candidate, current, g).

(** [samples[i, :] = current] for a Python list: the row is looked up,
    then NumPy makes an array of the list, which must give one
    dimension. *)
Definition set_row_list (m : matrix) (i : nat) (l : point)
  : result matrix :=
  _ ← index m i;
  if no_array l then Raise ValueError
  else set_row m i (map value l).

Definition mmh_joint_body (self : t) (pdf_ : target_item) (i : nat)
           (s : matrix * G) : result (matrix * G) :=
  let '(samples, g) := s in
  row ← get_row samples i;
  let candidate := array row in
  let current := array row in
  '(_, current, g) ←
    for_ (range (dimension self)) (mmh_joint_coord self pdf_ samples i)
         (candidate, current, g);
  samples ← set_row_list samples (i + 1) current;
  Ok (samples, g).

Definition mmh_chain (self : t) (samples : matrix) (g : G)
  : result (matrix * G) :=
  samples ← assign_seed samples (seed self);
  if (pdf_target_type self =? "marginal_pdf")%string then
    for_ (range (transitions self)) (mmh_marginal_body self) (samples, g)
  else if (pdf_target_type self =? "joint_pdf")%string then
    pdf_ ← index (pdf_target self) 0;
    for_ (range (transitions self)) (mmh_joint_body self pdf_)
         (samples, g)
  else Ok (samples, g).

(** *** Affine invariant ensemble sampler with stretch moves *)

(** [samples[0:k, :] = self.seed] for a seed of [k] rows: the slice has
    [room] rows; a one-dimensional seed is written to each of them, a
    two-dimensional one needs [room = k] (or a single row), with the
    width of the buffer or a single column. *)
Definition assign_ensemble (samples : matrix) (d : nat) (seed : ndarray)
  : result matrix :=
  let k := len seed in
  let room := Nat.min k (length samples) in
  match seed with
  | Vec v =>
      if (length v =? d)%nat
      then Ok (replicate room v ++ drop room samples)
      else match v with
           | [x] => Ok (replicate room (replicate d x) ++ drop room samples)
           | _ => Raise ValueError
           end
  | Mat m =>
      if (room =? k)%nat || (k =? 1)%nat then
        if forallb (fun row => (length row =? d)%nat) m
        then Ok (take room m ++ drop room samples)
        else if forallb (fun row => (length row =? 1)%nat) m
             then Ok (take room (map (fun row => replicate d (hd 0%Q row)) m)
                      ++ drop room samples)
             else Raise ValueError
      else Raise ValueError
  end.

(** [S + s * (x - S)] on arrays of one shape *)
Definition stretch_move (S' : vector) (s : Q) (x : vector) : vector :=
  zip_with (fun Sk xk => (Sk + s * (xk - Sk))%Q) S' x.

(** [s ** (self.dimension - 1)] *)
Definition power (s : Q) (e : Z) : result Q :=
  if (e <? 0) && Qeq_bool s 0 then Raise ZeroDivisionError
  else Ok (s ^ e)%Q.

(** The companion, the stretch factor, the candidate, the current
    point and the acceptance of step [i] for an ensemble of size
    [k].  The loop starts at [i = k - 1], so the slice
    [samples[i-k+2 : i+1]] and the row [i-k+1] have no negative
    index. *)
Definition stretch_draw (self : t) (pdf_ : target_item) (k : nat)
           (samples : matrix) (i : nat) (g : G)
  : result (vector * Q * vector * vector * bool * G) :=
  let complementary_ensemble :=
    take (i + 1 - (i + 2 - k)) (drop (i + 2 - k) samples) in
  '(S', g) ← Random.choice complementary_ensemble g;
  a ← index (pdf_proposal_scale self) 0;
  let '(u, g) := py_random g in
  s ← div ((1 + (a - 1) * u) ^ 2)%Q a;
  x ← get_row samples (i + 1 - k);
  let candidate := stretch_move S' s x in
  p_proposal ← apply_target pdf_ candidate (pdf_target_params self);
  x ← get_row samples (i + 1 - k);
  p_current ← apply_target pdf_ x (pdf_target_params self);
  sd ← power s (dimension self - 1);
  let '(v, g) := random_sample g in
  let accept := accepts v (sd * p_proposal)%Q p_current in
  Ok (S', s, candidate, x, accept, g).

Definition stretch_body (self : t) (pdf_ : target_item) (k : nat)
           (i : nat) (st : matrix * G) : result (matrix * G) :=
  let '(samples, g) := st in
  '(_, _, candidate, x, accept, g) ← stretch_draw self pdf_ k samples i g;
  if accept : bool then
    samples ← set_row samples (i + 1) candidate; Ok (samples, g)
  else
    samples ← set_row samples (i + 1) x; Ok (samples, g).

Definition stretch_chain (self : t) (samples : matrix) (g : G)
  : result (matrix * G) :=
  let ensemble_size := len (seed self) in
  samples ← assign_ensemble samples (Z.to_nat (dimension self)) (seed self);
  pdf_ ← index (pdf_target self) 0;
  for_ (range2 (Z.of_nat ensemble_size - 1)
               (nsamples self * jump self - 1))
       (stretch_body self pdf_ ensemble_size) (samples, g).

(** [output[j:j+k, :] = samples[i:i+k, :]] *)
Definition copy_block (k : nat) (samples : matrix) (i : nat)
           (st : matrix * nat) : result (matrix * nat) :=
  let '(output, j) := st in
  let src := take k (drop i samples) in
  let room := Nat.min k (length output - j) in
  if (length src =? room)%nat then
    Ok (take j output ++ src ++ drop (j + room) output, (j + k)%nat)
  else match src with
       | [row] =>
           Ok (take j output ++ replicate room row
                 ++ drop (j + room) output, (j + k)%nat)
       | _ => Raise ValueError
       end.

(** The blocks kept for the output of the ensemble sampler.  [range]
    refuses the step [0]; a negative step starts at
    [step - ensemble_size < 0], below the stop, and gives no index; a
    positive one starts at [(jump - 1) * ensemble_size >= 0]. *)
Definition stretch_output (self : t) (samples : matrix)
  : result matrix :=
  let k := len (seed self) in
  output ← zeros (nsamples self) (dimension self);
  let step := jump self * Z.of_nat k in
  blocks ← (if step =? 0 then Raise ValueError
            else if step <? 0 then Ok []
            else Ok (range3 (step - Z.of_nat k)
                            (Z.of_nat (length samples)) step));
  '(output, _) ← for_ blocks (copy_block k samples) (output, O);
  Ok output.

(** ** Python slices [xs[start:stop:step]] *)

Definition clamp (x lo hi : Z) (n : Z) : Z :=
  if x <? 0 then Z.max (x + n) lo else Z.min x hi.

Fixpoint walk {A} (fuel : nat) (xs : list A) (k stop step : Z)
  : list A :=
  match fuel with
  | O => []
  | S fuel' =>
      if (if 0 <? step then k <? stop else stop <? k)
      then match xs !! Z.to_nat k with
           | Some x => x :: walk fuel' xs (k + step) stop step
           | None => []
           end
      else []
  end.

Definition slice {A} (xs : list A) (start stop step : Z)
  : result (list A) :=
  let n := Z.of_nat (length xs) in
  if step =? 0 then Raise ValueError
  else if 0 <? step then
    Ok (walk (length xs) xs (clamp start 0 n n) (clamp stop 0 n n) step)
  else
    Ok (walk (length xs) xs (clamp start (-1) (n - 1) n)
             (clamp stop (-1) (n - 1) n) step).

(** ** [run_mcmc] *)

(** The chain as the kernels leave it in [samples], before the part
    to return is cut out. *)
Definition raw_chain (self : t) (g : G) : result (matrix * G) :=
  samples ← zeros (nsamples self * jump self) (dimension self);
  if (algorithm self =? "MH")%string then mh_chain self samples g
  else if (algorithm self =? "MMH")%string then mmh_chain self samples g
  else if (algorithm self =? "Stretch")%string
       then stretch_chain self samples g
  else Ok (samples, g).

Definition run_mcmc (self : t) (g : G) : result (matrix * G) :=
  '(samples, g) ← raw_chain self g;
  if (algorithm self =? "MMH")%string || (algorithm self =? "MH")%string
  then
    out ← slice samples (nburn self)
                (nsamples self * jump self + nburn self) (jump self);
    Ok (out, g)
  else
    output ← stretch_output self samples;
    Ok (output, g).

(** [MCMC(...)]: [__init__] validates, then samples. *)
Definition new (a : Args.t) (g : G) : result (matrix * G) :=
  self ← init_mcmc a; run_mcmc self g.

End Engine.
End MCMC.

Lemma bind_Ok {A B} (m : result A) (f : A → result B) b :
  (m ≫= f) = Ok b → ∃ a, m = Ok a ∧ f a = Ok b.
Proof. destruct m as [a|e]; simpl; [eauto | discriminate]. Qed.

Lemma index_Ok {A} (xs : list A) i x : index xs i = Ok x ↔ xs !! i = Some x.
Proof. unfold index. destruct (xs !! i); split; congruence. Qed.

Lemma list_mul_concat {A} (xs : list A) n :
  list_mul xs n = concat (replicate n xs).
Proof. induction n; simpl; congruence. Qed.

Lemma list_mul_singleton {A} (x : A) n : list_mul [x] n = replicate n x.
Proof. induction n; simpl; congruence. Qed.

Lemma length_list_mul {A} (xs : list A) n :
  length (list_mul xs n) = (n * length xs)%nat.
Proof. induction n; simpl; [done|]. rewrite length_app. lia. Qed.

Lemma lookup_list_mul {A} (xs : list A) n k :
  (k < n * length xs)%nat →
  list_mul xs n !! k = xs !! (k mod length xs)%nat.
Proof.
  revert k. induction n as [|n IH]; intros k Hk; [lia|].
  simpl. destruct (decide (k < length xs)%nat) as [Hlt|Hge].
  - rewrite lookup_app_l by done. by rewrite Nat.mod_small.
  - rewrite lookup_app_r by lia. rewrite IH by lia.
    f_equal. 
    replace k with ((k - length xs) + 1 * length xs)%nat at 2 by lia.
    by rewrite Nat.Div0.mod_add.
Qed.

Lemma length_flat_map_replicate {A} (f : nat → A) r a n :
  length (flat_map (λ j, replicate r (f j)) (seq a n)) = (n * r)%nat.
Proof.
  revert a. induction n as [|n IH]; intros a; simpl; [done|].
  rewrite length_app, length_replicate, IH. lia.
Qed.

Lemma lookup_flat_map_replicate {A} (f : nat → A) r a n k :
  (k < n * r)%nat →
  flat_map (λ j, replicate r (f j)) (seq a n) !! k = Some (f (a + k / r)%nat).
Proof.
  revert a k. induction n as [|n IH]; intros a k Hk; [lia|].
  assert (r ≠ 0)%nat by (intros ->; lia).
  simpl. destruct (decide (k < r)%nat) as [Hlt|Hge].
  - rewrite lookup_app_l by (by rewrite length_replicate).
    rewrite lookup_replicate_2 by done.
    by rewrite Nat.div_small, Nat.add_0_r.
  - rewrite lookup_app_r by (rewrite length_replicate; lia).
    rewrite length_replicate, IH by lia.
    do 2 f_equal.
    replace k with ((k - r) + 1 * r)%nat at 2 by lia.
    rewrite Nat.div_add by done. lia.
Qed.

Lemma lvl_replicate li lr :
  Strata.lvl li lr =
  flat_map (λ j, replicate (Z.to_nat lr) (Z.of_nat j)) (seq 0 (Z.to_nat li)).
Proof.
  unfold Strata.lvl, range. induction (seq 0 (Z.to_nat li)) as [|j js IH];
    simpl; [done|]. by rewrite list_mul_singleton, IH.
Qed.

Lemma mod_mul_div (k r n : nat) :
  (r ≠ 0 → (k mod (n * r)) / r = (k / r) mod n)%nat.
Proof.
  intros Hr. rewrite (Nat.mul_comm n r), Nat.Div0.mod_mul_r.
  rewrite Nat.mul_comm, Nat.div_add by done.
  rewrite Nat.div_small; [done|]. by apply Nat.mod_upper_bound.
Qed.

(** The column the loop writes for a factor with [li] levels. *)
Lemma lookup_rng li lr rr k :
  0 < li → 0 < lr → 0 <= rr →
  (k < Z.to_nat rr * (Z.to_nat li * Z.to_nat lr))%nat →
  list_mul (Strata.lvl li lr) (Z.to_nat rr) !! k =
  Some ((Z.of_nat k / lr) `mod` li).
Proof.
  intros Hli Hlr Hrr Hk.
  assert (length (Strata.lvl li lr) = (Z.to_nat li * Z.to_nat lr)%nat) as Hlen
    by (rewrite lvl_replicate; apply length_flat_map_replicate).
  rewrite lookup_list_mul by (by rewrite Hlen).
  rewrite Hlen, lvl_replicate, lookup_flat_map_replicate
    by (apply Nat.mod_upper_bound; lia).
  f_equal. simpl. rewrite mod_mul_div by lia.
  rewrite Nat2Z.inj_mod, Nat2Z.inj_div. by rewrite !Z2Nat.id by lia.
Qed.

Lemma Zprod_app l1 l2 : Zprod (l1 ++ l2) = Zprod l1 * Zprod l2.
Proof. induction l1; simpl; [by destruct (Zprod l2)|]. rewrite IHl1. lia. Qed.

Lemma Zprod_pos l : Forall (λ n, 0 < n) l → 0 < Zprod l.
Proof. induction 1; simpl; lia. Qed.

Lemma Zprod_split l i li :
  l !! i = Some li → Zprod l = Zprod (take i l) * (li * Zprod (drop (S i) l)).
Proof.
  intros Hi. rewrite <- (take_drop_middle l i li) at 1 by done.
  by rewrite Zprod_app.
Qed.

Lemma Zprod_take_S l i li :
  l !! i = Some li → Zprod (take (S i) l) = Zprod (take i l) * li.
Proof.
  intros Hi. erewrite take_S_r by done. rewrite Zprod_app. simpl. lia.
Qed.

Lemma Zprod_drop l i li :
  l !! i = Some li → Zprod (drop i l) = li * Zprod (drop (S i) l).
Proof. intros Hi. by erewrite drop_S by done. Qed.

(** What holds of [ff] once the columns before [i] are written. *)
Definition ff_inv (levels : list Z) (i : nat) (ff : matrix) : Prop :=
  length ff = Z.to_nat (Zprod levels) ∧
  Forall (λ row, length row = length levels) ff ∧
  ∀ k c row lc, (c < i)%nat → ff !! k = Some row → levels !! c = Some lc →
    row !! c = Some (inject_Z ((Z.of_nat k / Zprod (take c levels)) `mod` lc)).

Lemma fullfact_body_inv levels i li ff :
  Forall (λ n, 0 < n) levels →
  levels !! i = Some li →
  ff_inv levels i ff →
  ∃ ff',
    Strata.fullfact_body levels i
      (ff, Zprod (take i levels), Zprod (drop i levels)) =
    Ok (ff', Zprod (take (S i) levels), Zprod (drop (S i) levels)) ∧
    ff_inv levels (S i) ff'.
Proof.
  intros Hpos Hi (Hlen & Hrows & Hcols).
  assert (0 < li) as Hli by (eapply (Forall_lookup_1 _ _ _ _ Hpos Hi)).
  assert (0 < Zprod (take i levels)) as Hlr
    by (apply Zprod_pos, Forall_take, Hpos).
  assert (0 < Zprod (drop (S i) levels)) as Hrr
    by (apply Zprod_pos, Forall_drop, Hpos).
  assert (Zprod (drop i levels) / li = Zprod (drop (S i) levels)) as Hdiv.
  { rewrite (Zprod_drop _ _ _ Hi), Z.mul_comm. apply Z.div_mul. lia. }
  set (col := list_mul (Strata.lvl li (Zprod (take i levels)))
                       (Z.to_nat (Zprod (drop (S i) levels)))).
  assert (length col = length ff) as Hcol.
  { unfold col. rewrite length_list_mul, lvl_replicate,
      length_flat_map_replicate, Hlen, (Zprod_split _ _ _ Hi).
    rewrite !Z2Nat.inj_mul by lia. lia. }
  assert (i < length levels)%nat as Hilt by (by eapply lookup_lt_Some).
  exists (zip_with (λ row x, <[i := x]> row) ff (map inject_Z col)).
  split.
  - unfold Strata.fullfact_body.
    rewrite (proj2 (index_Ok _ _ _) Hi). simpl. rewrite Hdiv. fold col.
    unfold set_col.
    replace (forallb _ ff) with true; cycle 1.
    { symmetry. apply forallb_forall. intros row Hrow.
      apply Nat.ltb_lt. apply list_elem_of_In in Hrow.
      rewrite Forall_forall in Hrows. rewrite (Hrows _ Hrow). done. }
    rewrite length_map, Hcol, Nat.eqb_refl. simpl.
    by rewrite (Zprod_take_S _ _ _ Hi).
  - split; [|split].
    + rewrite length_zip_with, length_map. lia.
    + apply Forall_forall. intros row' Hrow'.
      apply list_elem_of_lookup in Hrow' as [k Hk].
      apply lookup_zip_with_Some in Hk as (row & x & -> & Hrow & _).
      rewrite length_insert. rewrite Forall_forall in Hrows.
      eapply Hrows, list_elem_of_lookup_2, Hrow.
    + intros k c row' lc Hc Hk Hlc.
      apply lookup_zip_with_Some in Hk as (row & x & -> & Hrow & Hx).
      destruct (decide (c = i)) as [->|Hne].
      * rewrite list_lookup_insert_eq; cycle 1.
        { rewrite Forall_forall in Hrows.
          rewrite (Hrows row) by (eapply list_elem_of_lookup_2, Hrow). done. }
        assert (lc = li) as -> by congruence.
        rewrite list_lookup_fmap in Hx. unfold col in Hx.
        rewrite lookup_rng in Hx; [simpl in Hx; congruence|lia..|].
        apply lookup_lt_Some in Hrow. rewrite Hlen, (Zprod_split _ _ _ Hi) in Hrow.
        rewrite !Z2Nat.inj_mul in Hrow by lia. lia.
      * rewrite list_lookup_insert_ne by done.
        eapply Hcols; [|done..]. lia.
Qed.

Lemma fullfact_loop levels m : ∀ i ff,
  Forall (λ n, 0 < n) levels →
  (i + m = length levels)%nat →
  ff_inv levels i ff →
  ∃ ff',
    for_ (seq i m) (Strata.fullfact_body levels)
      (ff, Zprod (take i levels), Zprod (drop i levels)) =
    Ok (ff', Zprod (take (i + m) levels), Zprod (drop (i + m) levels)) ∧
    ff_inv levels (i + m) ff'.
Proof.
  induction m as [|m IH]; intros i ff Hpos Him Hinv.
  - rewrite Nat.add_0_r. by exists ff.
  - destruct (lookup_lt_is_Some_2 levels i) as [li Hi]; [lia|].
    destruct (fullfact_body_inv levels i li ff Hpos Hi Hinv)
      as (ff1 & Hbody & Hinv1).
    destruct (IH (S i) ff1 Hpos ltac:(lia) Hinv1) as (ff' & Hloop & Hinv').
    exists ff'. replace (i + S m)%nat with (S i + m)%nat by lia.
    split; [|done]. cbn [seq for_]. rewrite Hbody. exact Hloop.
Qed.

Lemma fullfact_spec levels :
  levels ≠ [] →
  Forall (λ n, 0 < n) levels →
  ∃ ff, Strata.fullfact levels = Ok ff ∧ ff_inv levels (length levels) ff.
Proof.
  intros Hne Hpos. pose proof (Zprod_pos _ Hpos) as HN.
  assert ((Zprod levels <? 0) || (Z.of_nat (length levels) <? 0) = false)
    as Hb by (apply orb_false_iff; split; apply Z.ltb_ge; lia).
  unfold Strata.fullfact.
  replace (match levels with
           | [] => Raise TypeError
           | _ => zeros (Zprod levels) (Z.of_nat (length levels))
           end)
    with (zeros (Zprod levels) (Z.of_nat (length levels)))
    by (by destruct levels).
  unfold zeros, full. rewrite Hb.
  cbn [mbind result_bind]. unfold range. rewrite !Nat2Z.id.
  destruct (fullfact_loop levels (length levels) 0
              (replicate (Z.to_nat (Zprod levels))
                 (replicate (length levels) 0%Q))
              Hpos eq_refl) as (ff & Hloop & Hinv).
  { split; [by rewrite length_replicate|]. split; [|intros; lia].
    apply Forall_replicate. by rewrite length_replicate. }
  exists ff. split; [|done].
  change (Zprod (take 0 levels)) with 1 in Hloop.
  rewrite drop_0 in Hloop. by rewrite Hloop.
Qed.

(** The level column of dimension [i] as the ordering contract words it:
    each level value repeated [prod(nstrata[0..i-1])] times in a row, and
    that block tiled [prod(nstrata[i+1..])] times. *)
Definition level_column (nstrata : list Z) (i : nat) : list Z :=
  let block :=
    flat_map (λ v, replicate (Z.to_nat (Zprod (take i nstrata))) (Z.of_nat v))
             (seq 0 (Z.to_nat (default 0 (nstrata !! i)))) in
  concat (replicate (Z.to_nat (Zprod (drop (S i) nstrata))) block).

Lemma lookup_level_column nstrata i n k :
  Forall (λ n, 0 < n) nstrata →
  nstrata !! i = Some n →
  (k < Z.to_nat (Zprod nstrata))%nat →
  level_column nstrata i !! k =
  Some ((Z.of_nat k / Zprod (take i nstrata)) `mod` n).
Proof.
  intros Hpos Hi Hk.
  assert (0 < n) as Hn by (eapply (Forall_lookup_1 _ _ _ _ Hpos Hi)).
  assert (0 < Zprod (take i nstrata)) as Hlr
    by (apply Zprod_pos, Forall_take, Hpos).
  assert (0 < Zprod (drop (S i) nstrata)) as Hrr
    by (apply Zprod_pos, Forall_drop, Hpos).
  unfold level_column. rewrite Hi. simpl.
  rewrite <- list_mul_concat, <- lvl_replicate.
  apply lookup_rng; [lia..|].
  rewrite (Zprod_split _ _ _ Hi), !Z2Nat.inj_mul in Hk by lia. lia.
Qed.

Lemma Qsum_replicate n x : (Qsum (replicate n x) == inject_Z (Z.of_nat n) * x)%Q.
Proof.
  induction n as [|n IH]; [simpl; ring|].
  cbn [replicate Qsum foldr]. fold (Qsum (replicate n x)). rewrite IH.
  rewrite Nat2Z.inj_succ. unfold Z.succ. rewrite inject_Z_plus. ring.
Qed.

Lemma Qprod_widths ns :
  Forall (λ n, 0 < n) ns →
  (Qprod (zip_with Qdiv (replicate (length ns) 1%Q) (map inject_Z ns))
   * inject_Z (Zprod ns) == 1)%Q.
Proof.
  induction 1 as [|n ns Hn Hns IH]; [reflexivity|].
  cbn [length replicate map zip_with Qprod Zprod foldr].
  fold (Qprod (zip_with Qdiv (replicate (length ns) 1%Q) (map inject_Z ns))).
  fold (Zprod ns). rewrite inject_Z_mult.
  set (P := Qprod _) in *. 
  assert (~ inject_Z n == 0)%Q as Hn0.
  { intros E. apply (inject_Z_injective n 0) in E. lia. }
  transitivity ((1 / inject_Z n * inject_Z n) * (P * inject_Z (Zprod ns)))%Q;
    [ring|]. rewrite IH. field. done.
Qed.

Lemma lookup_zip_with_2 {A B C} (f : A → B → C) l k i x y :
  l !! i = Some x → k !! i = Some y → zip_with f l k !! i = Some (f x y).
Proof. intros Hx Hy. by rewrite lookup_zip_with, Hx, Hy. Qed.

Lemma ones_Ok n m :
  ones (Z.of_nat n) (Z.of_nat m) = Ok (replicate n (replicate m 1%Q)).
Proof.
  unfold ones, full.
  assert ((Z.of_nat n <? 0) || (Z.of_nat m <? 0) = false) as ->
    by (apply orb_false_iff; split; apply Z.ltb_ge; lia).
  by rewrite !Nat2Z.id.
Qed.

(** C8. For every non-empty vector of positive strata counts, [Strata]
    built from it has [prod(nstrata)] cells; the origin of cell [k] in
    dimension [j] is [level / nstrata_j], the level being entry [k] of the
    level column of [j], in which each level value repeats
    [prod(nstrata[0..j-1])] times and the block of all levels is tiled
    [prod(nstrata[j+1..])] times, that is, level
    [(k / prod(nstrata[0..j-1])) mod nstrata_j]; every width in dimension
    [j] is [1 / nstrata_j]; the weights are the products of the widths of
    each cell and sum to 1, so within 1e-5 of it.  The empty vector builds
    nothing: [fullfact] raises [TypeError] on it. *)
Theorem strata_full_factorial (nstrata : list Z) :
  nstrata ≠ [] →
  Forall (λ n, 0 < n) nstrata →
  ∃ s, Strata.init (Strata.of_nstrata nstrata) = Ok s ∧
    length (Strata.origins s) = Z.to_nat (Zprod nstrata) ∧
    length (Strata.widths s) = Z.to_nat (Zprod nstrata) ∧
    length (Strata.weights s) = Z.to_nat (Zprod nstrata) ∧
    (∀ k j n, (k < Z.to_nat (Zprod nstrata))%nat → nstrata !! j = Some n →
       ∃ lev,
         level_column nstrata j !! k = Some lev ∧
         lev = (Z.of_nat k / Zprod (take j nstrata)) `mod` n ∧
         get (Strata.origins s) k j = Ok (inject_Z lev / inject_Z n)%Q ∧
         get (Strata.widths s) k j = Ok (1 / inject_Z n)%Q) ∧
    Strata.weights s = map Qprod (Strata.widths s) ∧
    (Qsum (Strata.weights s) == 1)%Q ∧
    (Qabs (1 - Qsum (Strata.weights s)) <= 1 # 100000)%Q.
Proof.
  intros Hne Hpos. pose proof (Zprod_pos _ Hpos) as HN.
  destruct (fullfact_spec nstrata Hne Hpos)
    as (ff & Hff & Hlen & Hrows & Hcols).
  set (nsq := map inject_Z nstrata).
  set (wrow := zip_with Qdiv (replicate (length nstrata) 1%Q) nsq).
  set (N := Z.to_nat (Zprod nstrata)) in *.
  assert (Strata.init (Strata.of_nstrata nstrata) =
          Ok (Strata.mk (divide_rows ff nsq) (replicate N wrow)
                (replicate N (Qprod wrow)))) as Hinit.
  { unfold Strata.init, Strata.of_nstrata. cbn [Strata.nstrata].
    rewrite Hff. cbn [mbind result_bind]. rewrite ones_Ok.
    cbn [mbind result_bind]. unfold divide_rows, prod_axis1.
    rewrite length_map, Hlen. fold nsq. 
    by rewrite !fmap_replicate. }
  assert (Qsum (replicate N (Qprod wrow)) == 1)%Q as Hsum.
  { rewrite Qsum_replicate. unfold N. rewrite Z2Nat.id by lia.
    rewrite Qmult_comm. apply Qprod_widths, Hpos. }
  eexists. split; [exact Hinit|]. cbn [Strata.origins Strata.widths Strata.weights].
  split; [by unfold divide_rows; rewrite length_map|].
  split; [by rewrite length_replicate|].
  split; [by rewrite length_replicate|].
  split; [|split; [by rewrite fmap_replicate|split; [done|]]].
  - intros k j n Hk Hj.
    exists ((Z.of_nat k / Zprod (take j nstrata)) `mod` n).
    split; [by apply lookup_level_column|]. split; [done|].
    destruct (lookup_lt_is_Some_2 ff k) as [row Hrow]; [lia|].
    pose proof (Hcols k j row n ltac:(by eapply lookup_lt_Some) Hrow Hj) as Hrj.
    assert (nsq !! j = Some (inject_Z n)) as Hnj
      by (unfold nsq; by rewrite list_lookup_fmap, Hj).
    split.
    + unfold get, index, divide_rows. rewrite list_lookup_fmap, Hrow.
      cbn [fmap option_fmap option_map mbind result_bind].
      by rewrite (lookup_zip_with_2 _ _ _ _ _ _ Hrj Hnj).
    + unfold get, index. rewrite lookup_replicate_2 by done.
      cbn [mbind result_bind]. unfold wrow.
      erewrite lookup_zip_with_2; [done| |exact Hnj].
      apply lookup_replicate_2. by eapply lookup_lt_Some.
  - rewrite Hsum. simpl. discriminate.
Qed.

(** [Strata(nstrata=[])]: [np.prod([])] is the float [1.0], no
    dimension for [np.zeros]. *)
Example strata_empty_counts :
  Strata.fullfact [] = Raise TypeError ∧
  Strata.init (Strata.of_nstrata []) = Raise TypeError.
Proof. split; reflexivity. Qed.

(** * A deterministic random source and stand-ins for SciPy

    The concrete instances below drive the samplers on explicit inputs. *)

Module Fixture.

(** The draws cycle through 0, 1/4, 1/2, 3/4; the state counts them. *)
Definition unit_draw (n : nat) : Q := (inject_Z (Z.of_nat (n mod 4)) / 4)%Q.

Lemma unit_draw_range n : (0 <= unit_draw n)%Q ∧ (unit_draw n < 1)%Q.
Proof.
  unfold unit_draw.
  assert (n mod 4 < 4)%nat as Hlt by (apply Nat.mod_upper_bound; lia).
  split.
  - apply Qle_shift_div_l; [reflexivity|].
    rewrite Qmult_0_l. change 0%Q with (inject_Z 0).
    rewrite <- Zle_Qle. lia.
  - apply Qlt_shift_div_r; [reflexivity|].
    rewrite Qmult_1_l. change 4%Q with (inject_Z 4).
    rewrite <- Zlt_Qlt. lia.
Qed.

Lemma randbelow_lt k n : (0 < k)%nat → (n mod k < k)%nat.
Proof. intros. apply Nat.mod_upper_bound. lia. Qed.

(** The shuffles are rotations of [range(k)] by the state. *)
Definition rotation (k n : nat) : list nat :=
  drop (n mod k) (seq 0 k) ++ take (n mod k) (seq 0 k).

Lemma rotation_perm k n : Permutation (rotation k n) (seq 0 k).
Proof.
  unfold rotation. rewrite Permutation_app_comm. by rewrite take_drop.
Qed.

Global Instance counter : RandomSource nat := {|
  random_sample n := (unit_draw n, S n);
  random_sample_range := unit_draw_range;
  standard_normal n := ((inject_Z (Z.of_nat (n mod 3)) - 1)%Q, S n);
  multivariate_normal mean cov n :=
    (map (λ m, (m + unit_draw n)%Q) mean, S n);
  multivariate_normal_length mean cov n := length_map _ mean;
  permutation k n := (rotation k n, S n);
  permutation_perm k n := rotation_perm k n;
  py_random n := (unit_draw n, S n);
  py_random_range := unit_draw_range;
  py_randbelow k n := ((n mod k)%nat, S n);
  py_randbelow_lt k n := randbelow_lt k n
|}.

(** Every [scipy.stats] function is the constant 1. *)
Global Instance flat_stats : Distributions.Scipy := λ _ _ _ _, 1%Q.

(** A stand-in for [np.float32]: the nearest multiple of [2^-24], the
    spacing of single precision on [[1/2, 1)]. *)
Global Instance single : Float32 :=
  λ x, (inject_Z (Qfloor (x * inject_Z (2 ^ 24) + (1 # 2)))
        / inject_Z (2 ^ 24))%Q.

(** A stand-in for double precision: the nearest multiple of [2^-53],
    the spacing of doubles on [[1/2, 1)]; it keeps the integers as they
    are.  The power is taken for whole exponents. *)
Definition nearest53 (x : Q) : Q :=
  (inject_Z (Qfloor (x * inject_Z (2 ^ 53) + (1 # 2)))
   / inject_Z (2 ^ 53))%Q.

Global Instance double : Float64 := {|
  float64 := nearest53;
  float_pow x y := nearest53 (x ^ Qfloor y)
|}.

(** The working directory holds no [custom_dist.py]. *)
Definition no_custom : option (string → option Distributions.callable) :=
  None.

Definition flat_mvn : Z → vector → Q := λ _ _, 1%Q.

(** Stand-ins for [np.min(pdist(...))] and the largest correlation. *)
Definition flat_pdist : string → matrix → result Q := λ _ _, Ok 1%Q.
Definition flat_corr : matrix → result Q := λ _, Ok 1%Q.

End Fixture.

(** * Loops *)

Lemma for_app {A St} (l1 l2 : list A) (body : A → St → result St) s :
  for_ (l1 ++ l2) body s = (s' ← for_ l1 body s; for_ l2 body s').
Proof.
  revert s. induction l1 as [|x l1 IH]; intros s; [done|].
  cbn [app for_]. destruct (body x s) as [s1|e]; [|done].
  cbn [mbind result_bind]. apply IH.
Qed.

Lemma for_seq_S {St} (body : nat → St → result St) a n s :
  for_ (seq a (S n)) body s = (s' ← for_ (seq a n) body s; body (a + n)%nat s').
Proof.
  rewrite seq_S, for_app. destruct (for_ (seq a n) body s) as [s1|e]; [|done].
  cbn [mbind result_bind for_]. by destruct (body (a + n)%nat s1).
Qed.

Ltac bind_inv H :=
  let a := fresh "a" in
  let E := fresh "E" in
  apply bind_Ok in H as (a & E & H).

(** A loop of transitions whose step [i] writes row [i + 1] only. *)
Section Transitions.
Context {G : Type}.
Variable body : nat → matrix * G → result (matrix * G).
Variable Inv : matrix → Prop.
Hypothesis body_frame : ∀ i s g s' g',
  Inv s → body i (s, g) = Ok (s', g') →
  Inv s' ∧ length s' = length s ∧ ∀ r, r ≠ (i + 1)%nat → s' !! r = s !! r.

Lemma transitions_frame m : ∀ a s g s' g',
  Inv s → for_ (seq a m) body (s, g) = Ok (s', g') →
  Inv s' ∧ length s' = length s ∧ ∀ r, (r ≤ a)%nat → s' !! r = s !! r.
Proof.
  induction m as [|m IH]; intros a s g s' g' Hs Hfor.
  - cbn in Hfor. by inversion Hfor; subst.
  - cbn [seq for_] in Hfor. apply bind_Ok in Hfor as ([s1 g1] & E & Hfor).
    destruct (body_frame _ _ _ _ _ Hs E) as (Hs1 & Hlen & Hrows).
    destruct (IH _ _ _ _ _ Hs1 Hfor) as (Hs' & Hlen' & Hrows').
    split; [done|]. split; [congruence|]. intros r Hr.
    rewrite Hrows' by lia. apply Hrows. lia.
Qed.


Lemma transitions_step_from a T s0 g0 raw g' i :
  Inv s0 →
  for_ (seq a T) body (s0, g0) = Ok (raw, g') →
  (a ≤ i < a + T)%nat →
  ∃ s g s1 g1,
    for_ (seq a (i - a)) body (s0, g0) = Ok (s, g) ∧
    body i (s, g) = Ok (s1, g1) ∧
    Inv s ∧ length s = length s0 ∧
    (∀ r, (r ≤ i)%nat → raw !! r = s !! r) ∧
    raw !! (i + 1)%nat = s1 !! (i + 1)%nat.
Proof.
  intros Hs0 Hfor Hi.
  replace T with (S (i - a) + (T - S (i - a)))%nat in Hfor by lia.
  rewrite seq_app, for_app in Hfor.
  apply bind_Ok in Hfor as ([s1 g1] & E & Hfor).
  rewrite for_seq_S in E. apply bind_Ok in E as ([s g] & E0 & E).
  replace (a + (i - a))%nat with i in E by lia.
  replace (a + S (i - a))%nat with (S i) in Hfor by lia.
  destruct (transitions_frame _ _ _ _ _ _ Hs0 E0) as (Hs & Hlen & _).
  destruct (body_frame _ _ _ _ _ Hs E) as (Hs1 & _ & Hrow1).
  destruct (transitions_frame _ _ _ _ _ _ Hs1 Hfor) as (_ & _ & Hrows).
  exists s, g, s1, g1. repeat split; try done.
  - intros r Hr. rewrite Hrows by lia. apply Hrow1. lia.
  - apply Hrows. lia.
Qed.

End Transitions.

(** * Array updates *)

Definition rows_of_length (d : nat) (m : matrix) : Prop :=
  Forall (λ row, length row = d) m.

Lemma set_row_frame m i v m' :
  set_row m i v = Ok m' →
  length m' = length m ∧ ∀ r, r ≠ i → m' !! r = m !! r.
Proof.
  unfold set_row. intros H. bind_inv H. apply index_Ok in E.
  destruct (_ =? _)%nat.
  - inversion H; subst. rewrite length_insert. split; [done|].
    intros r Hr. by rewrite list_lookup_insert_ne.
  - destruct v as [|x [|]]; try discriminate. inversion H; subst.
    rewrite length_insert. split; [done|].
    intros r Hr. by rewrite list_lookup_insert_ne.
Qed.

Lemma set_row_lookup d m i v m' :
  rows_of_length d m → length v = d →
  set_row m i v = Ok m' → m' !! i = Some v ∧ rows_of_length d m'.
Proof.
  unfold set_row. intros Hm Hv H. bind_inv H. apply index_Ok in E.
  assert (length a = d) as Ha
    by (eapply (Forall_lookup_1 _ _ _ _ Hm E)).
  rewrite Hv, Ha, Nat.eqb_refl in H. inversion H; subst.
  split.
  - apply list_lookup_insert_eq. by eapply lookup_lt_Some.
  - by apply Forall_insert.
Qed.

Lemma length_draws {G A B} (f : A → G → B * G) xs g :
  length (fst (Random.draws f xs g)) = length xs.
Proof.
  revert g. induction xs as [|x xs IH]; intros g; [done|].
  cbn [Random.draws]. destruct (f x g) as [y g1].
  specialize (IH g1). destruct (Random.draws f xs g1) as [ys g2].
  simpl in *. by rewrite IH.
Qed.

(** * Validated configurations *)

Lemma broadcast_length {A} d (xs ys : list A) :
  MCMC.broadcast d xs = Ok ys → length ys = Z.to_nat d.
Proof.
  unfold MCMC.broadcast. destruct (Z.eqb_spec (Z.of_nat (length xs)) d) as [<-|Hne];
    cbn [negb].
  - intros [= <-]. by rewrite Nat2Z.id.
  - destruct (Nat.eqb_spec (length xs) 1) as [Hone|]; [|discriminate].
    intros [= <-]. rewrite length_list_mul. lia.
Qed.

(** What [init_mcmc] guarantees about the configuration it returns. *)
Record validated (self : MCMC.t) : Prop := {
  valid_type_length :
    length (MCMC.pdf_proposal_type self) = Z.to_nat (MCMC.dimension self);
  valid_scale_length :
    length (MCMC.pdf_proposal_scale self) = Z.to_nat (MCMC.dimension self);
  valid_target_type :
    MCMC.pdf_target_type self = "joint_pdf" ∨
    MCMC.pdf_target_type self = "marginal_pdf";
  valid_algorithm :
    MCMC.algorithm self = "MH" ∨ MCMC.algorithm self = "MMH" ∨
    MCMC.algorithm self = "Stretch";
  valid_seed :
    if (MCMC.algorithm self =? "Stretch")%string
    then (3 ≤ MCMC.len (MCMC.seed self))%nat
    else Z.of_nat (MCMC.len (MCMC.seed self)) = MCMC.dimension self
}.

Lemma existsb_eqb_In s l : existsb (String.eqb s) l = true → In s l.
Proof.
  intros H. apply existsb_exists in H as (x & Hx & Heq).
  apply String.eqb_eq in Heq. by subst.
Qed.

Lemma init_mcmc_validated `{Distributions.Scipy} custom mvn a self :
  MCMC.init_mcmc custom mvn a = Ok self → validated self.
Proof.
  unfold MCMC.init_mcmc. intros Hinit.
  apply bind_Ok in Hinit as (n & _ & Hinit).
  apply bind_Ok in Hinit as (sd & _ & Hinit).
  apply bind_Ok in Hinit as (? & Hseed & Hinit).
  apply bind_Ok in Hinit as (? & _ & Hinit).
  apply bind_Ok in Hinit as (types & Htypes & Hinit).
  apply bind_Ok in Hinit as (scales & Hscales & Hinit).
  apply bind_Ok in Hinit as (ttype & Httype & Hinit).
  apply bind_Ok in Hinit as (alg & Halg & Hinit).
  apply bind_Ok in Hinit as (tgt & _ & Hinit).
  inversion Hinit; subst; clear Hinit.
  split; cbn.
  - destruct (_ && _) in Htypes; [discriminate|]. by eapply broadcast_length.
  - by eapply broadcast_length.
  - match type of Httype with
    | match ?X with _ => _ end = _ => destruct X as [ty|]; [|discriminate]
    end.
    destruct (existsb _ _) eqn:Hex in Httype; [|discriminate].
    inversion Httype; subst. apply existsb_eqb_In in Hex. simpl in Hex.
    intuition (subst; auto).
  - destruct (MCMC.Args.algorithm a) as [s|]; [|inversion Halg; auto].
    destruct (existsb _ _) eqn:Hex in Halg; [|discriminate].
    inversion Halg; subst. apply existsb_eqb_In in Hex. simpl in Hex.
    intuition (subst; auto).
  - destruct (MCMC.Args.algorithm a) as [s|].
    + assert (alg = s) as ->
        by (destruct (existsb _ _) in Halg; [by inversion Halg|discriminate]).
      unfold MCMC.is_ in Hseed.
      destruct (s =? "Stretch")%string; cbn [negb] in Hseed.
      * destruct (Nat.ltb_spec (MCMC.len sd) 3); [discriminate|lia].
      * destruct (Z.eqb_spec (Z.of_nat (MCMC.len sd))
                    (default 1 (MCMC.Args.dimension a)));
          [done|discriminate].
    + inversion Halg; subst. cbn in Hseed |- *.
      destruct (Z.eqb_spec (Z.of_nat (MCMC.len sd))
                  (default 1 (MCMC.Args.dimension a)));
        [done|discriminate].
Qed.

(** * Metropolis-Hastings *)

Section MH.
Context {G : Type} `{RandomSource G}.
Variable self : MCMC.t.
Variable pdf_ : MCMC.target_item.
Hypothesis Hvalid : validated self.
Let d := Z.to_nat (MCMC.dimension self).

Lemma mh_candidate_length s i g cand g1 :
  rows_of_length d s →
  MCMC.mh_candidate self s i g = Ok (cand, g1) → length cand = d.
Proof.
  intros Hs. unfold MCMC.mh_candidate. intros Hc.
  apply bind_Ok in Hc as (t0 & _ & Hc).
  destruct (t0 =? "Normal")%string; [|cbn in Hc; discriminate].
  apply bind_Ok in Hc as (x & Hx & Hc). apply index_Ok in Hx.
  assert (length x = d) as Hlx by (eapply (Forall_lookup_1 _ _ _ _ Hs Hx)).
  destruct (MCMC.dimension self =? 1).
  - inversion Hc as [Hpair].
    apply (f_equal fst) in Hpair. cbn [fst] in Hpair. subst cand.
    unfold Random.normal_vec. rewrite length_draws, length_zip.
    rewrite (valid_scale_length _ Hvalid). fold d. lia.
  - inversion Hc as [Hpair].
    apply (f_equal fst) in Hpair. cbn [fst] in Hpair. subst cand.
    by rewrite multivariate_normal_length.
Qed.

Lemma mh_draw_inv s i g cand x acc g1 :
  rows_of_length d s →
  MCMC.mh_draw self pdf_ s i g = Ok (cand, x, acc, g1) →
  s !! i = Some x ∧ length x = d ∧ length cand = d.
Proof.
  intros Hs. unfold MCMC.mh_draw. intros Hd.
  apply bind_Ok in Hd as ([c g0] & Hc & Hd).
  apply bind_Ok in Hd as (pp & _ & Hd).
  apply bind_Ok in Hd as (x0 & Hx & Hd).
  apply bind_Ok in Hd as (pc & _ & Hd).
  destruct (random_sample g0) as [u g2]. inversion Hd; subst.
  apply index_Ok in Hx. split; [done|]. split.
  - eapply (Forall_lookup_1 _ _ _ _ Hs Hx).
  - by eapply mh_candidate_length.
Qed.

Lemma mh_body_spec i s g s' g' :
  rows_of_length d s →
  MCMC.mh_body self pdf_ i (s, g) = Ok (s', g') →
  ∃ cand x acc,
    MCMC.mh_draw self pdf_ s i g = Ok (cand, x, acc, g') ∧
    s !! i = Some x ∧
    s' !! (i + 1)%nat = Some (if acc : bool then cand else x) ∧
    rows_of_length d s'.
Proof.
  intros Hs. unfold MCMC.mh_body. intros Hb.
  apply bind_Ok in Hb as ([[[cand x] acc] g1] & Hd & Hb).
  destruct (mh_draw_inv _ _ _ _ _ _ _ Hs Hd) as (Hx & Hlx & Hlc).
  exists cand, x, acc.
  destruct acc; apply bind_Ok in Hb as (s1 & Hset & Hb); inversion Hb; subst;
    (split; [done|]; split; [done|]); by eapply set_row_lookup.
Qed.

Lemma mh_body_frame i s g s' g' :
  rows_of_length d s →
  MCMC.mh_body self pdf_ i (s, g) = Ok (s', g') →
  rows_of_length d s' ∧ length s' = length s ∧
  ∀ r, r ≠ (i + 1)%nat → s' !! r = s !! r.
Proof.
  intros Hs Hb.
  destruct (mh_body_spec _ _ _ _ _ Hs Hb) as (cand & x & acc & _ & _ & _ & Hs').
  split; [done|]. unfold MCMC.mh_body in Hb.
  apply bind_Ok in Hb as ([[[c1 x1] acc1] g1] & _ & Hb).
  destruct acc1; apply bind_Ok in Hb as (s1 & Hset & Hb); inversion Hb; subst;
    by eapply set_row_frame.
Qed.
End MH.

(** * Seeding the chain *)

Lemma zeros_rows n m s :
  zeros n m = Ok s →
  rows_of_length (Z.to_nat m) s ∧ length s = Z.to_nat n.
Proof.
  unfold zeros, full. destruct (_ || _); [discriminate|]. intros [= <-].
  split; [|by rewrite length_replicate].
  apply Forall_replicate. by rewrite length_replicate.
Qed.

Lemma set_row_rows d m i v m' :
  rows_of_length d m → set_row m i v = Ok m' →
  rows_of_length d m' ∧
  ((length v = d ∨ d = 1%nat) → m' !! i = Some v).
Proof.
  unfold set_row. intros Hm Hset.
  apply bind_Ok in Hset as (row & Hrow & Hset). apply index_Ok in Hrow.
  assert (length row = d) as Hd by (eapply (Forall_lookup_1 _ _ _ _ Hm Hrow)).
  assert (i < length m)%nat as Hi by (by eapply lookup_lt_Some).
  destruct (Nat.eqb_spec (length v) (length row)) as [Hlen|Hlen].
  - inversion Hset; subst. split.
    + by apply Forall_insert.
    + intros _. by apply list_lookup_insert_eq.
  - destruct v as [|x [|]]; try discriminate. inversion Hset; subst. split.
    + apply Forall_insert; [done|]. by rewrite length_replicate.
    + intros [Hv| Hv]; simpl in *; exfalso; lia.
Qed.



(** * Component-wise updates *)

Lemma get_Ok (m : matrix) i j x :
  get m i j = Ok x ↔ ∃ row, m !! i = Some row ∧ row !! j = Some x.
Proof.
  unfold get. split.
  - intros Hg. apply bind_Ok in Hg as (row & Hrow & Hx).
    apply index_Ok in Hrow, Hx. eauto.
  - intros (row & Hrow & Hx). apply index_Ok in Hrow, Hx.
    by rewrite Hrow; cbn [mbind result_bind].
Qed.

Lemma get_row_eq (m m' : matrix) i j : m' !! i = m !! i → get m' i j = get m i j.
Proof. unfold get, index. by intros ->. Qed.

Lemma set_spec d (m : matrix) i j x m' :
  rows_of_length d m → set m i j x = Ok m' →
  rows_of_length d m' ∧ length m' = length m ∧
  (∀ r, r ≠ i → m' !! r = m !! r) ∧
  (∀ c, c ≠ j → get m' i c = get m i c) ∧
  get m' i j = Ok x.
Proof.
  unfold set. intros Hm Hset.
  apply bind_Ok in Hset as (row & Hrow & Hset). apply index_Ok in Hrow.
  destruct (Nat.ltb_spec j (length row)) as [Hj|]; [|discriminate].
  inversion Hset; subst; clear Hset.
  assert (i < length m)%nat as Hi by (by eapply lookup_lt_Some).
  assert (length row = d) as Hd by (eapply (Forall_lookup_1 _ _ _ _ Hm Hrow)).
  split; [|split; [|split; [|split]]].
  - apply Forall_insert; [done|]. by rewrite length_insert.
  - by rewrite length_insert.
  - intros r Hr. by rewrite list_lookup_insert_ne.
  - intros c Hc. unfold get, index.
    rewrite list_lookup_insert_eq, Hrow by done. cbn [mbind result_bind].
    by rewrite list_lookup_insert_ne.
  - apply get_Ok. exists (<[j:=x]> row).
    split; by apply list_lookup_insert_eq.
Qed.

(** A loop over the coordinates of row [r]: step [j] writes the cell
    [(r, j)] only. *)
Section Coordinates.
Context {G : Type}.
Variable coord : nat → matrix * G → result (matrix * G).
Variable r : nat.
Variable Inv : matrix → Prop.
Hypothesis coord_frame : ∀ j s g s' g',
  Inv s → coord j (s, g) = Ok (s', g') →
  Inv s' ∧ length s' = length s ∧
  (∀ r', r' ≠ r → s' !! r' = s !! r') ∧
  (∀ c, c ≠ j → get s' r c = get s r c).

Lemma coordinates_frame m : ∀ a s g s' g',
  Inv s → for_ (seq a m) coord (s, g) = Ok (s', g') →
  Inv s' ∧ length s' = length s ∧
  (∀ r', r' ≠ r → s' !! r' = s !! r') ∧
  (∀ c, (c < a)%nat → get s' r c = get s r c).
Proof.
  induction m as [|m IH]; intros a s g s' g' Hs Hfor.
  - cbn in Hfor. by inversion Hfor; subst.
  - cbn [seq for_] in Hfor. apply bind_Ok in Hfor as ([s1 g1] & E & Hfor).
    destruct (coord_frame _ _ _ _ _ Hs E) as (Hs1 & Hlen & Hrows & Hcells).
    destruct (IH _ _ _ _ _ Hs1 Hfor) as (Hs' & Hlen' & Hrows' & Hcells').
    split; [done|]. split; [congruence|]. split.
    + intros r' Hr'. rewrite Hrows' by done. by apply Hrows.
    + intros c Hc. rewrite Hcells' by lia. apply Hcells. lia.
Qed.

End Coordinates.

(** * Modified Metropolis-Hastings, marginal densities *)

Section MMH_marginal.
Context {G : Type} `{RandomSource G}.
Variable self : MCMC.t.
Let d := Z.to_nat (MCMC.dimension self).

Lemma mmh_marginal_draw_inv s i j g cand x acc g1 :
  MCMC.mmh_marginal_draw self s i j g = Ok (cand, x, acc, g1) →
  get s i j = Ok x.
Proof.
  unfold MCMC.mmh_marginal_draw. intros Hd.
  apply bind_Ok in Hd as (pdf_ & _ & Hd).
  apply bind_Ok in Hd as (tj & _ & Hd).
  apply bind_Ok in Hd as (x0 & Hx & Hd).
  apply bind_Ok in Hd as ([c g0] & _ & Hd).
  apply bind_Ok in Hd as (c0 & _ & Hd).
  apply bind_Ok in Hd as (pp & _ & Hd).
  apply bind_Ok in Hd as (pc & _ & Hd).
  destruct (random_sample g0) as [u g2]. by inversion Hd; subst.
Qed.

Lemma mmh_marginal_coord_spec i j s g s' g' :
  rows_of_length d s →
  MCMC.mmh_marginal_coord self i j (s, g) = Ok (s', g') →
  ∃ cand x acc,
    MCMC.mmh_marginal_draw self s i j g = Ok (cand, x, acc, g') ∧
    get s i j = Ok x ∧
    rows_of_length d s' ∧ length s' = length s ∧
    (∀ r, r ≠ (i + 1)%nat → s' !! r = s !! r) ∧
    (∀ c, c ≠ j → get s' (i + 1) c = get s (i + 1) c) ∧
    get s' (i + 1) j = Ok (if acc : bool then cand else x).
Proof.
  intros Hs. unfold MCMC.mmh_marginal_coord. intros Hb.
  apply bind_Ok in Hb as ([[[cand x] acc] g1] & Hd & Hb).
  pose proof (mmh_marginal_draw_inv _ _ _ _ _ _ _ _ Hd) as Hx.
  exists cand, x, acc.
  destruct acc; apply bind_Ok in Hb as (s1 & Hset & Hb); inversion Hb; subst;
    destruct (set_spec _ _ _ _ _ _ Hs Hset) as (?&?&?&?&?); done.
Qed.

Lemma mmh_marginal_coord_frame i j s g s' g' :
  rows_of_length d s →
  MCMC.mmh_marginal_coord self i j (s, g) = Ok (s', g') →
  rows_of_length d s' ∧ length s' = length s ∧
  (∀ r', r' ≠ (i + 1)%nat → s' !! r' = s !! r') ∧
  (∀ c, c ≠ j → get s' (i + 1) c = get s (i + 1) c).
Proof.
  intros Hs Hb.
  by destruct (mmh_marginal_coord_spec _ _ _ _ _ _ Hs Hb)
    as (?&?&?&?&?&?&?&?&?&?).
Qed.

Lemma mmh_marginal_body_frame i s g s' g' :
  rows_of_length d s →
  MCMC.mmh_marginal_body self i (s, g) = Ok (s', g') →
  rows_of_length d s' ∧ length s' = length s ∧
  ∀ r, r ≠ (i + 1)%nat → s' !! r = s !! r.
Proof.
  intros Hs Hb. unfold MCMC.mmh_marginal_body, range in Hb.
  destruct (coordinates_frame (MCMC.mmh_marginal_coord self i) (i + 1)
              (rows_of_length d) (mmh_marginal_coord_frame i) _ _ _ _ _ _ Hs Hb)
    as (?&?&?&?). done.
Qed.


End MMH_marginal.

(** * Modified Metropolis-Hastings, joint density *)

(** A loop over the coordinates of a working list: step [j] changes
    position [j] of [current] only. *)
Section Working_vector.
Context {G A : Type}.
Variable coord : nat → list A * list A * G → result (list A * list A * G).
Hypothesis coord_frame : ∀ j cv cur g cv' cur' g',
  coord j (cv, cur, g) = Ok (cv', cur', g') →
  length cur' = length cur ∧ ∀ c, c ≠ j → cur' !! c = cur !! c.

Lemma working_frame m : ∀ a cv cur g cv' cur' g',
  for_ (seq a m) coord (cv, cur, g) = Ok (cv', cur', g') →
  length cur' = length cur ∧
  ∀ c, (c < a ∨ a + m ≤ c)%nat → cur' !! c = cur !! c.
Proof.
  induction m as [|m IH]; intros a cv cur g cv' cur' g' Hfor.
  - cbn in Hfor. by inversion Hfor; subst.
  - cbn [seq for_] in Hfor.
    apply bind_Ok in Hfor as ([[cv1 cur1] g1] & E & Hfor).
    destruct (coord_frame _ _ _ _ _ _ _ E) as (Hlen & Hpos).
    destruct (IH _ _ _ _ _ _ _ Hfor) as (Hlen' & Hpos').
    split; [congruence|]. intros c Hc.
    rewrite Hpos' by lia. apply Hpos. lia.
Qed.

End Working_vector.

Section MMH_joint.
Context {G : Type} `{RandomSource G}.
Variable self : MCMC.t.
Variable pdf_ : MCMC.target_item.
Let d := Z.to_nat (MCMC.dimension self).

Lemma mmh_joint_coord_spec samples i j cv cur g cv' cur' g' :
  MCMC.mmh_joint_coord self pdf_ samples i j (cv, cur, g) = Ok (cv', cur', g') →
  ∃ cand acc c x,
    MCMC.mmh_joint_draw self pdf_ samples i j (cv, cur, g) = Ok (cand, acc, g') ∧
    cand !! j = Some c ∧ cur !! j = Some x ∧
    cur' = <[j := if acc : bool then c else x]> cur.
Proof.
  unfold MCMC.mmh_joint_coord. intros Hc.
  apply bind_Ok in Hc as ([[cand acc] g1] & Hd & Hc).
  apply bind_Ok in Hc as (c & Hcj & Hc). apply index_Ok in Hcj.
  apply bind_Ok in Hc as (x & Hxj & Hc). apply index_Ok in Hxj.
  exists cand, acc, c, x.
  destruct acc; inversion Hc; subst; repeat split; try done.
  symmetry. by apply list_insert_id.
Qed.

Lemma mmh_joint_coord_frame samples i j cv cur g cv' cur' g' :
  MCMC.mmh_joint_coord self pdf_ samples i j (cv, cur, g) = Ok (cv', cur', g') →
  length cur' = length cur ∧ ∀ c, c ≠ j → cur' !! c = cur !! c.
Proof.
  intros Hc.
  destruct (mmh_joint_coord_spec _ _ _ _ _ _ _ _ _ Hc)
    as (cand & acc & c & x & _ & _ & _ & ->).
  split; [by rewrite length_insert|].
  intros c' Hc'. by rewrite list_lookup_insert_ne.
Qed.

(** Writing the list [current] to a row keeps the entries of its
    coordinates. *)
Lemma set_row_list_spec s r cur s' :
  rows_of_length d s → length cur = d →
  MCMC.set_row_list s r cur = Ok s' →
  s' !! r = Some (map MCMC.value cur) ∧
  rows_of_length d s' ∧ length s' = length s ∧
  ∀ r', r' ≠ r → s' !! r' = s !! r'.
Proof.
  intros Hs Hcl Hset. unfold MCMC.set_row_list in Hset.
  apply bind_Ok in Hset as (row & _ & Hset).
  destruct (MCMC.no_array cur); [discriminate|].
  assert (length (map MCMC.value cur) = d) as Hvl by (by rewrite length_map).
  destruct (set_row_lookup d _ _ _ _ Hs Hvl Hset) as (Hw & Hs').
  destruct (set_row_frame _ _ _ _ Hset) as (Hl & Hfr).
  done.
Qed.

Lemma mmh_joint_body_spec i s g s' g' :
  rows_of_length d s →
  MCMC.mmh_joint_body self pdf_ i (s, g) = Ok (s', g') →
  ∃ row cvf curf,
    s !! i = Some row ∧
    for_ (seq 0 d) (MCMC.mmh_joint_coord self pdf_ s i)
         (MCMC.array row, MCMC.array row, g)
      = Ok (cvf, curf, g') ∧
    s' !! (i + 1)%nat = Some (map MCMC.value curf) ∧
    rows_of_length d s' ∧ length s' = length s ∧
    ∀ r, r ≠ (i + 1)%nat → s' !! r = s !! r.
Proof.
  intros Hs. unfold MCMC.mmh_joint_body, range. fold d. intros Hb.
  apply bind_Ok in Hb as (row & Hrow & Hb). apply index_Ok in Hrow.
  apply bind_Ok in Hb as ([[cvf curf] g1] & Hloop & Hb).
  apply bind_Ok in Hb as (s1 & Hset & Hb). inversion Hb; subst.
  destruct (working_frame _ (mmh_joint_coord_frame s i) _ _ _ _ _ _ _ _ Hloop)
    as (Hlen & _).
  assert (length row = d) as Hd by (eapply (Forall_lookup_1 _ _ _ _ Hs Hrow)).
  assert (length curf = d) as Hcl
    by (rewrite Hlen; unfold MCMC.array; by rewrite length_map).
  destruct (set_row_list_spec _ _ _ _ Hs Hcl Hset) as (Hw & Hs' & Hl & Hfr).
  exists row, cvf, curf. repeat split; done.
Qed.

Lemma mmh_joint_body_frame i s g s' g' :
  rows_of_length d s →
  MCMC.mmh_joint_body self pdf_ i (s, g) = Ok (s', g') →
  rows_of_length d s' ∧ length s' = length s ∧
  ∀ r, r ≠ (i + 1)%nat → s' !! r = s !! r.
Proof.
  intros Hs Hb.
  by destruct (mmh_joint_body_spec _ _ _ _ _ Hs Hb) as (?&?&?&?&?&?&?&?&?).
Qed.


End MMH_joint.

(** * Metropolis-Hastings: the rows of the raw chain *)

Section MH_rows.
Context {G : Type} `{RandomSource G}.
Variable self : MCMC.t.
Variable pdf_ : MCMC.target_item.
Hypothesis Hvalid : validated self.
Let d := Z.to_nat (MCMC.dimension self).

End MH_rows.

(** * The raw chain of an MH or MMH run *)



(** * The ensemble sampler with stretch moves *)

(** Comparing a uniform draw with the ratio accepts on an interval of
    length [min(1, r)]. *)
Lemma accept_probability (V r : Q) :
  (V < 1)%Q → (Qltb V r = true ↔ (V < Qmin 1 r)%Q).
Proof.
  intros HV. unfold Qltb. rewrite negb_true_iff.
  rewrite Q.min_glb_lt_iff. split.
  - intros Hle. split; [done|]. apply Qnot_le_lt. intros Hc.
    apply Qle_bool_iff in Hc. congruence.
  - intros [_ Hlt]. destruct (Qle_bool r V) eqn:E; [|done].
    apply Qle_bool_iff in E. exfalso. by apply (Qlt_not_le _ _ Hlt).
Qed.

(** The comparison of a draw with a ratio of NumPy floats: for a non-zero
    denominator it accepts on an interval of length [min(1, p / q)]; for a
    zero one the quotient is [inf] for a positive numerator, above every
    draw, and [nan] or [-inf] otherwise, above none. *)
Lemma accepts_spec (V p q : Q) :
  (V < 1)%Q →
  (¬ (q == 0)%Q → (MCMC.accepts V p q = true ↔ (V < Qmin 1 (p / q))%Q)) ∧
  ((q == 0)%Q → (MCMC.accepts V p q = true ↔ (0 < p)%Q)).
Proof.
  intros HV. unfold MCMC.accepts. destruct (Qeq_bool q 0) eqn:E.
  - apply Qeq_bool_iff in E. split; [done|]. intros _.
    unfold Qltb. rewrite negb_true_iff. split.
    + intros Hle. apply Qnot_le_lt. intros Hc.
      apply Qle_bool_iff in Hc. congruence.
    + intros Hlt. destruct (Qle_bool p 0) eqn:E'; [|done].
      apply Qle_bool_iff in E'. exfalso. by apply (Qlt_not_le _ _ Hlt).
  - apply Qeq_bool_neq in E. split; [|done]. intros _.
    by apply accept_probability.
Qed.

Lemma div_Ok p q r : MCMC.div p q = Ok r → ¬ (q == 0)%Q ∧ r = (p / q)%Q.
Proof.
  unfold MCMC.div. destruct (Qeq_bool q 0) eqn:E; [discriminate|].
  intros [= <-]. split; [|done]. by apply Qeq_bool_neq.
Qed.

Lemma choice_Ok {G : Type} `{RandomSource G} {A} (xs : list A) (g g1 : G) x :
  Random.choice xs g = Ok (x, g1) →
  ∃ idx, py_randbelow (length xs) g = (idx, g1) ∧ xs !! idx = Some x.
Proof.
  unfold Random.choice. destruct xs as [|x0 xs]; [discriminate|].
  destruct (py_randbelow _ g) as [idx g1'].
  intros Hc. apply bind_Ok in Hc as (x1 & Hx & Hc). apply index_Ok in Hx.
  inversion Hc; subst. by exists idx.
Qed.

Section Stretch.
Context {G : Type} `{RandomSource G}.
Variable self : MCMC.t.
Variable pdf_ : MCMC.target_item.
Let d := Z.to_nat (MCMC.dimension self).

(** What one step draws, read off the source: the companion is row
    [i - k + 2 + idx] for the position [idx] that [random.choice] picks
    among the [k - 1] rows before row [i + 1]; the stretch factor comes
    from one [random.random()]; the acceptance compares one
    [np.random.random()] with the ratio. *)
Lemma stretch_draw_spec k samples i g S' z cand x acc g3 :
  (1 ≤ k)%nat → (k - 1 ≤ i)%nat → (i + 1 ≤ length samples)%nat →
  MCMC.stretch_draw self pdf_ k samples i g = Ok (S', z, cand, x, acc, g3) →
  ∃ idx g1 U g2 V a p_prop p_cur,
    py_randbelow (k - 1) g = (idx, g1) ∧ (idx < k - 1)%nat ∧
    samples !! (i + 2 - k + idx)%nat = Some S' ∧
    MCMC.pdf_proposal_scale self !! 0%nat = Some a ∧
    py_random g1 = (U, g2) ∧
    ¬ (a == 0)%Q ∧ z = ((1 + (a - 1) * U) ^ 2 / a)%Q ∧
    samples !! (i + 1 - k)%nat = Some x ∧
    cand = MCMC.stretch_move S' z x ∧
    (∃ f, pdf_ = MCMC.TFun f ∧
       f (MCMC.array cand) (MCMC.pdf_target_params self) = Ok p_prop ∧
       f (MCMC.array x) (MCMC.pdf_target_params self) = Ok p_cur) ∧
    random_sample g2 = (V, g3) ∧
    acc = MCMC.accepts V (z ^ (MCMC.dimension self - 1) * p_prop)%Q p_cur.
Proof.
  intros Hk Hi Hlen. unfold MCMC.stretch_draw, Random.choice.
  set (comp := take (i + 1 - (i + 2 - k)) (drop (i + 2 - k) samples)).
  assert (length comp = (k - 1)%nat) as Hcomp
    by (unfold comp; rewrite length_take, length_drop; lia).
  intros Hd.
  apply bind_Ok in Hd as ([S0 g1] & Hchoice & Hd).
  apply choice_Ok in Hchoice as (idx & Hrb & HS). rewrite Hcomp in Hrb.
  apply bind_Ok in Hd as (a & Ha & Hd). apply index_Ok in Ha.
  destruct (py_random g1) as [U g2] eqn:HU.
  apply bind_Ok in Hd as (z0 & Hz & Hd). apply div_Ok in Hz as (Ha0 & ->).
  apply bind_Ok in Hd as (x0 & Hx & Hd). apply index_Ok in Hx.
  apply bind_Ok in Hd as (pp & Hpp & Hd).
  apply bind_Ok in Hd as (x1 & Hx1 & Hd). apply index_Ok in Hx1.
  assert (x1 = x0) as -> by congruence.
  apply bind_Ok in Hd as (pc & Hpc & Hd).
  apply bind_Ok in Hd as (sd & Hsd & Hd).
  destruct (random_sample g2) as [V g3'] eqn:HV.
  inversion Hd; subst; clear Hd.
  unfold MCMC.power in Hsd. destruct (_ && _); [discriminate|].
  inversion Hsd; subst sd; clear Hsd.
  exists idx, g1, U, g2, V, a, pp, pc.
  assert (idx < k - 1)%nat as Hidx
    by (rewrite <- Hcomp; by eapply lookup_lt_Some).
  unfold comp in HS.
  apply lookup_take_Some in HS as (HS & _). rewrite lookup_drop in HS.
  assert (∃ f, pdf_ = MCMC.TFun f ∧
            f (MCMC.array
                 (MCMC.stretch_move S' ((1 + (a - 1) * U) ^ 2 / a)%Q x))
              (MCMC.pdf_target_params self) = Ok pp ∧
            f (MCMC.array x) (MCMC.pdf_target_params self) = Ok pc) as Hf.
  { destruct pdf_ as [f|name]; [|discriminate]. by exists f. }
  repeat split; try done.
Qed.

Lemma stretch_draw_rows k samples i g S' z cand x acc g3 :
  rows_of_length d samples →
  MCMC.stretch_draw self pdf_ k samples i g = Ok (S', z, cand, x, acc, g3) →
  length cand = d ∧ length x = d.
Proof.
  intros Hs. unfold MCMC.stretch_draw. intros Hd.
  apply bind_Ok in Hd as ([S0 g1] & Hchoice & Hd).
  apply choice_Ok in Hchoice as (idx & _ & HS).
  apply lookup_take_Some in HS as (HS & _). rewrite lookup_drop in HS.
  apply bind_Ok in Hd as (a & _ & Hd).
  destruct (py_random g1) as [U g2].
  apply bind_Ok in Hd as (z0 & _ & Hd).
  apply bind_Ok in Hd as (x0 & Hx & Hd). apply index_Ok in Hx.
  apply bind_Ok in Hd as (pp & _ & Hd).
  apply bind_Ok in Hd as (x1 & Hx1 & Hd). apply index_Ok in Hx1.
  apply bind_Ok in Hd as (pc & _ & Hd).
  apply bind_Ok in Hd as (sd & _ & Hd).
  destruct (random_sample g2) as [V g3'].
  inversion Hd; subst; clear Hd.
  assert (length S' = d) as HlS by (eapply (Forall_lookup_1 _ _ _ _ Hs HS)).
  assert (length x0 = d) as Hlx by (eapply (Forall_lookup_1 _ _ _ _ Hs Hx)).
  assert (length x = d) as Hlx1 by (eapply (Forall_lookup_1 _ _ _ _ Hs Hx1)).
  split; [|done]. unfold MCMC.stretch_move. rewrite length_zip_with. lia.
Qed.

Lemma stretch_body_spec k i s g s' g' :
  rows_of_length d s →
  MCMC.stretch_body self pdf_ k i (s, g) = Ok (s', g') →
  ∃ S' z cand x acc,
    MCMC.stretch_draw self pdf_ k s i g = Ok (S', z, cand, x, acc, g') ∧
    s' !! (i + 1)%nat = Some (if acc : bool then cand else x) ∧
    rows_of_length d s' ∧ length s' = length s ∧
    ∀ r, r ≠ (i + 1)%nat → s' !! r = s !! r.
Proof.
  intros Hs. unfold MCMC.stretch_body. intros Hb.
  apply bind_Ok in Hb as ([[[[[S' z] cand] x] acc] g1] & Hd & Hb).
  destruct (stretch_draw_rows _ _ _ _ _ _ _ _ _ _ Hs Hd) as (Hlc & Hlx).
  exists S', z, cand, x, acc.
  destruct acc; apply bind_Ok in Hb as (s1 & Hset & Hb); inversion Hb; subst;
    (split; [done|]); destruct (set_row_frame _ _ _ _ Hset) as (? & ?).
  - by destruct (set_row_lookup d _ _ _ _ Hs Hlc Hset) as (? & ?).
  - by destruct (set_row_lookup d _ _ _ _ Hs Hlx Hset) as (? & ?).
Qed.

Lemma stretch_body_frame k i s g s' g' :
  rows_of_length d s →
  MCMC.stretch_body self pdf_ k i (s, g) = Ok (s', g') →
  rows_of_length d s' ∧ length s' = length s ∧
  ∀ r, r ≠ (i + 1)%nat → s' !! r = s !! r.
Proof.
  intros Hs Hb.
  by destruct (stretch_body_spec _ _ _ _ _ _ Hs Hb) as (?&?&?&?&?&?&?&?&?&?).
Qed.

End Stretch.

Lemma assign_ensemble_rows d samples seed s0 :
  rows_of_length d samples →
  MCMC.assign_ensemble samples d seed = Ok s0 →
  rows_of_length d s0 ∧ length s0 = length samples.
Proof.
  intros Hs. unfold MCMC.assign_ensemble.
  set (room := Nat.min (MCMC.len seed) (length samples)).
  assert (room ≤ length samples)%nat as Hroom by (unfold room; lia).
  assert (∀ top : matrix, rows_of_length d top → length top = room →
            rows_of_length d (top ++ drop room samples) ∧
            length (top ++ drop room samples) = length samples) as Happ.
  { intros top Htop Hlen. split.
    - apply Forall_app. split; [done|]. by apply Forall_drop.
    - rewrite length_app, length_drop. lia. }
  intros Hass. destruct seed as [v|m].
  - destruct (Nat.eqb_spec (length v) d) as [Hv|Hv].
    + inversion Hass; subst. apply Happ; [by apply Forall_replicate|].
      by rewrite length_replicate.
    + destruct v as [|x [|]]; try discriminate. inversion Hass; subst.
      apply Happ; [|by rewrite length_replicate].
      apply Forall_replicate. by rewrite length_replicate.
  - cbn [MCMC.len] in *.
    assert (length (take room m) = room) as Htake
      by (rewrite length_take; unfold room; lia).
    match type of Hass with
    | (if ?b then _ else _) = _ => destruct b; [|discriminate]
    end.
    destruct (forallb (λ row, (length row =? d)%nat) m) eqn:Hw.
    + inversion Hass; subst. apply Happ; [|done]. apply Forall_take.
      apply Forall_forall. intros row Hrow.
      rewrite forallb_forall in Hw. apply Nat.eqb_eq, Hw.
      by apply list_elem_of_In.
    + match type of Hass with
      | (if ?b then _ else _) = _ => destruct b; [|discriminate]
      end.
      inversion Hass; subst. apply Happ.
      * apply Forall_take, Forall_fmap, Forall_forall. intros row _.
        cbn. by rewrite length_replicate.
      * rewrite length_take, length_map. unfold room. lia.
Qed.

(** C3. In every Stretch run that [init_mcmc] admits and whose chain
    completes, with [K] the number of rows of the seed and [pi] the target
    function [pdf_target[0]], the loop takes exactly the steps
    [K - 1 <= i <= total - 2], and at each of them, from the state the run
    has reached: the companion [S] is the row that [random.choice] picks
    among the [K - 1] rows [i - K + 2 .. i], the point being updated, row
    [i + 1 - K], not among them; the stretch factor is
    [z = (1 + (a - 1) U)^2 / a] for one draw [U] of [random.random()]; the
    candidate has the coordinates [S_c + z (x_c - S_c)] for [x] the row [K]
    steps behind the row [i + 1] being written; [pi] is evaluated at the
    candidate and at [x], both arrays of floats; the step accepts when one draw [V] of
    [np.random.random()] is below [z^(d-1) pi(candidate) / pi(x)], that is,
    for [pi(x)] other than zero, on an interval of length [min(1, ratio)];
    where [pi(x)] is zero the quotient of NumPy floats is [inf] for a
    positive numerator and the step accepts, and is [nan] or [-inf]
    otherwise and the step rejects; and row [i + 1] is the candidate on
    acceptance and [x] unchanged on rejection. *)
Theorem stretch_chain_transitions
    {G : Type} `{RandomSource G} `{Distributions.Scipy}
    custom mvn (a : MCMC.Args.t) (self : MCMC.t) (g g' : G) (raw : matrix) :
  MCMC.init_mcmc custom mvn a = Ok self →
  MCMC.algorithm self = "Stretch" →
  MCMC.raw_chain self g = Ok (raw, g') →
  let K := MCMC.len (MCMC.seed self) in
  let total := Z.to_nat (MCMC.nsamples self * MCMC.jump self) in
  let d := MCMC.dimension self in
  let params := MCMC.pdf_target_params self in
  (3 ≤ K)%nat ∧ length raw = total ∧
  (∀ i, In i (range2 (Z.of_nat K - 1)
                (MCMC.nsamples self * MCMC.jump self - 1)) ↔
        (K - 1 ≤ i ∧ i + 2 ≤ total)%nat) ∧
  ∀ i, (K - 1 ≤ i)%nat → (i + 2 ≤ total)%nat →
    ∃ pi samples s0 s g_i idx g1 U g2 V g3 scale S' x p_prop p_cur
      (accept : bool),
      zeros (MCMC.nsamples self * MCMC.jump self) d = Ok samples ∧
      MCMC.assign_ensemble samples (Z.to_nat d) (MCMC.seed self) = Ok s0 ∧
      MCMC.pdf_target self !! 0%nat = Some (MCMC.TFun pi) ∧
      for_ (seq (K - 1) (i - (K - 1)))
           (MCMC.stretch_body self (MCMC.TFun pi) K) (s0, g)
        = Ok (s, g_i) ∧
      py_randbelow (K - 1) g_i = (idx, g1) ∧ (idx < K - 1)%nat ∧
      raw !! (i + 2 - K + idx)%nat = Some S' ∧
      MCMC.pdf_proposal_scale self !! 0%nat = Some scale ∧
      py_random g1 = (U, g2) ∧ (0 <= U)%Q ∧ (U < 1)%Q ∧
      raw !! (i + 1 - K)%nat = Some x ∧
      length S' = Z.to_nat d ∧ length x = Z.to_nat d ∧
      let z := ((1 + (scale - 1) * U) ^ 2 / scale)%Q in
      let candidate := zip_with (λ Sc xc, (Sc + z * (xc - Sc))%Q) S' x in
      pi (MCMC.array candidate) params = Ok p_prop ∧
      pi (MCMC.array x) params = Ok p_cur ∧
      random_sample g2 = (V, g3) ∧ (0 <= V)%Q ∧ (V < 1)%Q ∧
      let ratio := (z ^ (d - 1) * p_prop / p_cur)%Q in
      (¬ (p_cur == 0)%Q → (accept = true ↔ (V < Qmin 1 ratio)%Q)) ∧
      ((p_cur == 0)%Q → (accept = true ↔ (0 < z ^ (d - 1) * p_prop)%Q)) ∧
      raw !! (i + 1)%nat = Some (if accept then candidate else x).
Proof.
  intros Hinit Halg Hraw K total d0 params.
  pose proof (init_mcmc_validated _ _ _ _ Hinit) as Hvalid.
  set (d := Z.to_nat (MCMC.dimension self)).
  assert (3 ≤ K)%nat as HK.
  { pose proof (valid_seed _ Hvalid) as Hs. by rewrite Halg in Hs. }
  unfold MCMC.raw_chain in Hraw.
  apply bind_Ok in Hraw as (samples & Hzeros & Hraw).
  destruct (zeros_rows _ _ _ Hzeros) as (Hrows & Hlen). fold d in Hrows.
  rewrite Halg in Hraw. cbn [String.eqb Ascii.eqb Bool.eqb] in Hraw.
  cbv iota in Hraw. unfold MCMC.stretch_chain in Hraw.
  apply bind_Ok in Hraw as (s0 & Hseed & Hraw).
  apply bind_Ok in Hraw as (pdf_ & Hpdf & Hraw). apply index_Ok in Hpdf.
  destruct (assign_ensemble_rows _ _ _ _ Hrows Hseed) as (Hrows0 & Hlen0).
  fold K in Hraw. unfold range2 in Hraw |- *.
  replace (Z.to_nat (Z.of_nat K - 1)) with (K - 1)%nat in Hraw |- * by lia.
  replace (Z.to_nat (MCMC.nsamples self * MCMC.jump self - 1
                     - (Z.of_nat K - 1)))
    with (total - K)%nat in Hraw |- * by (unfold total; lia).
  destruct (transitions_frame _ _ (stretch_body_frame self pdf_ K)
              _ _ _ _ _ _ Hrows0 Hraw) as (_ & Hlenraw & Hraw_rows).
  split; [done|]. split; [unfold total; congruence|]. split.
  { intros i. rewrite in_seq. lia. }
  intros i Hi1 Hi2.
  destruct (transitions_step_from _ _ (stretch_body_frame self pdf_ K)
              (K - 1) (total - K) s0 g raw g' i Hrows0 Hraw ltac:(lia))
    as (s & g_i & s1 & g_i1 & Hpre & Hbody & Hs & Hlens & Hrowsle & Hrow1).
  destruct (stretch_body_spec self pdf_ K i s g_i s1 g_i1 Hs Hbody)
    as (S' & z & cand & x & acc & Hdraw & Hw & _).
  destruct (stretch_draw_rows self pdf_ K s i g_i S' z cand x acc g_i1
              Hs Hdraw) as (_ & Hlx).
  destruct (stretch_draw_spec self pdf_ K s i g_i S' z cand x acc g_i1
              ltac:(lia) Hi1 ltac:(unfold total in *; lia) Hdraw)
    as (idx & g1 & U & g2 & V & scale & p_prop & p_cur
        & Hrb & Hidx & HS & Hsc & HU & Hsc0 & -> & Hx & -> & Hf & HV & ->).
  destruct Hf as (pi & -> & Hpp & Hpc).
  assert (length S' = d) as HlS by (eapply (Forall_lookup_1 _ _ _ _ Hs HS)).
  pose proof (py_random_range g1) as HUr. rewrite HU in HUr. cbn in HUr.
  pose proof (random_sample_range g2) as HVr. rewrite HV in HVr. cbn in HVr.
  destruct (accepts_spec V
              (((1 + (scale - 1) * U) ^ 2 / scale) ^ (d0 - 1) * p_prop)%Q
              p_cur (proj2 HVr)) as (Hnz & Hz).
  exists pi, samples, s0, s, g_i, idx, g1, U, g2, V, g_i1, scale, S', x,
    p_prop, p_cur,
    (MCMC.accepts V
       (((1 + (scale - 1) * U) ^ 2 / scale) ^ (d0 - 1) * p_prop)%Q p_cur).
  cbv zeta. unfold MCMC.stretch_move in *.
  split_and!; try done; try tauto.
  - rewrite Hrowsle by lia. done.
  - rewrite Hrowsle by lia. done.
  - rewrite Hrow1. exact Hw.
Qed.

(** * Burn-in *)

Lemma is_ok_bind {A B} (m : result A) (f : A → result B) :
  (∀ a, m = Ok a → is_ok (f a) = false) → is_ok (m ≫= f) = false.
Proof. destruct m as [a|e]; [|done]. intros Hf. by apply Hf. Qed.

(** A loop fails when one of its steps fails in every state that the
    steps before it can reach. *)
Lemma for_raises_at {St} (body : nat → St → result St) l1 x l2 s :
  (∀ s', for_ l1 body s = Ok s' → is_ok (body x s') = false) →
  is_ok (for_ (l1 ++ x :: l2) body s) = false.
Proof.
  intros Hx. rewrite for_app. apply is_ok_bind. intros s' Hs'.
  cbn [for_]. apply is_ok_bind. intros s'' Hs''.
  specialize (Hx s' Hs'). by rewrite Hs'' in Hx.
Qed.

Lemma set_row_past_end (m : matrix) i v :
  (length m ≤ i)%nat → set_row m i v = Raise IndexError.
Proof.
  intros Hi. unfold set_row, index. by rewrite lookup_ge_None_2.
Qed.

Lemma set_past_end (m : matrix) i j x :
  (length m ≤ i)%nat → set m i j x = Raise IndexError.
Proof.
  intros Hi. unfold set, index. by rewrite lookup_ge_None_2.
Qed.

Section Last_row.
Context {G : Type} `{RandomSource G}.
Variable self : MCMC.t.
Variable pdf_ : MCMC.target_item.

(** A transition from the last row of the buffer has no row to write. *)
Lemma mh_body_last_row i s (g : G) :
  length s = (i + 1)%nat → is_ok (MCMC.mh_body self pdf_ i (s, g)) = false.
Proof.
  intros Hlen. unfold MCMC.mh_body. apply is_ok_bind.
  intros [[[cand x] acc] g1] _.
  destruct acc; rewrite set_row_past_end by lia; done.
Qed.

Lemma mmh_marginal_body_last_row i s (g : G) :
  1 <= MCMC.dimension self →
  length s = (i + 1)%nat →
  is_ok (MCMC.mmh_marginal_body self i (s, g)) = false.
Proof.
  intros Hd Hlen. unfold MCMC.mmh_marginal_body, range.
  destruct (Z.to_nat (MCMC.dimension self)) as [|d'] eqn:E; [lia|].
  cbn [seq for_]. apply is_ok_bind. intros s1 Hs1.
  unfold MCMC.mmh_marginal_coord in Hs1.
  apply bind_Ok in Hs1 as ([[[cand x] acc] g1] & _ & Hs1).
  destruct acc; rewrite set_past_end in Hs1 by lia; discriminate.
Qed.

Lemma mmh_joint_body_last_row i s (g : G) :
  length s = (i + 1)%nat →
  is_ok (MCMC.mmh_joint_body self pdf_ i (s, g)) = false.
Proof.
  intros Hlen. unfold MCMC.mmh_joint_body. apply is_ok_bind. intros row _.
  apply is_ok_bind. intros [[cv cur] g1] _.
  unfold MCMC.set_row_list, index. by rewrite lookup_ge_None_2 by lia.
Qed.
End Last_row.

(** C1. With a burn-in, no MH or MMH run returns: the buffer that
    [run_mcmc] allocates has [nsamples * jump] rows, the loop takes
    [nsamples * jump - 1 + nburn] transitions, and the transition from the
    last row has no row to write. *)
Theorem run_mcmc_burn_in_overruns_buffer
    {G : Type} `{RandomSource G} `{Distributions.Scipy}
    custom mvn (a : MCMC.Args.t) (self : MCMC.t) (g : G) :
  MCMC.init_mcmc custom mvn a = Ok self →
  MCMC.algorithm self = "MH" ∨ MCMC.algorithm self = "MMH" →
  1 <= MCMC.nsamples self → 1 <= MCMC.jump self → 1 <= MCMC.dimension self →
  1 <= MCMC.nburn self →
  is_ok (MCMC.raw_chain self g) = false ∧ is_ok (MCMC.run_mcmc self g) = false.
Proof.
  intros Hinit Halg Hn Hj Hd Hb.
  pose proof (init_mcmc_validated _ _ _ _ Hinit) as Hvalid.
  assert (is_ok (MCMC.raw_chain self g) = false) as Hraw; cycle 1.
  { split; [done|]. unfold MCMC.run_mcmc.
    by destruct (MCMC.raw_chain self g). }
  set (d := Z.to_nat (MCMC.dimension self)).
  set (rows := Z.to_nat (MCMC.nsamples self * MCMC.jump self)).
  assert (1 ≤ rows)%nat as Hrows1 by (unfold rows; nia).
  assert (seq 0 (Z.to_nat (MCMC.transitions self)) =
          seq 0 (rows - 1) ++ (rows - 1)%nat ::
          seq rows (Z.to_nat (MCMC.transitions self) - rows)) as Hseq.
  { assert (rows ≤ Z.to_nat (MCMC.transitions self))%nat
      by (unfold MCMC.transitions, rows; lia).
    replace (Z.to_nat (MCMC.transitions self))
      with ((rows - 1) + S (Z.to_nat (MCMC.transitions self) - rows))%nat
      at 1 by lia.
    rewrite seq_app. cbn [seq plus]. do 3 f_equal. lia. }
  unfold MCMC.raw_chain. apply is_ok_bind. intros samples Hzeros.
  destruct (zeros_rows _ _ _ Hzeros) as (Hrows & Hlen).
  fold d in Hrows. fold rows in Hlen.
  destruct Halg as [Ha|Ha]; rewrite Ha;
    cbn [String.eqb Ascii.eqb Bool.eqb]; cbv iota.
  - unfold MCMC.mh_chain. apply is_ok_bind. intros s0 Hseed.
    apply is_ok_bind. intros pdf_ _. unfold range. rewrite Hseq.
    assert (rows_of_length d s0 ∧ length s0 = rows) as (Hrows0 & Hlen0).
    { unfold MCMC.assign_seed in Hseed.
      destruct (MCMC.seed self) as [v|[|v [|]]];
        try (apply bind_Ok in Hseed as (? & _ & ?); discriminate);
        destruct (set_row_rows _ _ _ _ _ Hrows Hseed) as (? & _);
        destruct (set_row_frame _ _ _ _ Hseed) as (? & _);
        (split; [done|congruence]). }
    apply for_raises_at. intros [s g1] Hpre.
    destruct (transitions_frame _ _ (mh_body_frame self pdf_ Hvalid)
                _ _ _ _ _ _ Hrows0 Hpre) as (_ & Hl & _).
    apply mh_body_last_row. lia.
  - unfold MCMC.mmh_chain. apply is_ok_bind. intros s0 Hseed.
    assert (rows_of_length d s0 ∧ length s0 = rows) as (Hrows0 & Hlen0).
    { unfold MCMC.assign_seed in Hseed.
      destruct (MCMC.seed self) as [v|[|v [|]]];
        try (apply bind_Ok in Hseed as (? & _ & ?); discriminate);
        destruct (set_row_rows _ _ _ _ _ Hrows Hseed) as (? & _);
        destruct (set_row_frame _ _ _ _ Hseed) as (? & _);
        (split; [done|congruence]). }
    destruct (valid_target_type _ Hvalid) as [Ht|Ht]; rewrite Ht;
      cbn [String.eqb Ascii.eqb Bool.eqb]; cbv iota.
    + apply is_ok_bind. intros pdf_ _. unfold range. rewrite Hseq.
      apply for_raises_at. intros [s g1] Hpre.
      destruct (transitions_frame _ _ (mmh_joint_body_frame self pdf_)
                  _ _ _ _ _ _ Hrows0 Hpre) as (_ & Hl & _).
      apply mmh_joint_body_last_row. lia.
    + unfold range. rewrite Hseq.
      apply for_raises_at. intros [s g1] Hpre.
      destruct (transitions_frame _ _ (mmh_marginal_body_frame self)
                  _ _ _ _ _ _ Hrows0 Hpre) as (_ & Hl & _).
      apply mmh_marginal_body_last_row; [done|lia].
Qed.

(** * Validation of the MCMC options *)

Section Validation.
Context `{Distributions.Scipy}.
Variable custom_dist : option (string → option Distributions.callable).
Variable mvn : Z → vector → Q.

(** C5. With [algorithm] and [pdf_target_type] both omitted, [init_mcmc]
    never returns a configuration: the target type is checked while the
    algorithm is still [None], so it is neither defaulted to
    [marginal_pdf] nor accepted; the default [MMH] would only be assigned
    by the check that follows. *)
Theorem init_mcmc_omitted_algorithm_raises (a : MCMC.Args.t) :
  MCMC.Args.algorithm a = None →
  MCMC.Args.pdf_target_type a = None →
  is_ok (MCMC.init_mcmc custom_dist mvn a) = false ∧
  (MCMC.Args.nsamples a ≠ None → MCMC.Args.seed a = None →
   MCMC.Args.dimension a = None → MCMC.Args.pdf_proposal_type a = None →
   MCMC.Args.pdf_proposal_scale a = None →
   MCMC.init_mcmc custom_dist mvn a = Raise ValueError).
Proof.
  intros Halg Htt. split.
  - unfold MCMC.init_mcmc. rewrite Halg, Htt.
    repeat (simpl; try reflexivity;
            match goal with
            | |- is_ok (mbind _ ?m) = false => destruct m
            end).
  - intros Hn Hseed Hdim Hty Hsc.
    unfold MCMC.init_mcmc. rewrite Halg, Htt, Hseed, Hdim, Hty, Hsc.
    destruct (MCMC.Args.nsamples a); [reflexivity|done].
Qed.

(** C6. A Stretch run whose seed is omitted passes validation whenever the
    dimension is at least 3: the omitted seed has already been replaced by
    [np.zeros(dimension)], whose length the ensemble check then reads as
    an ensemble size. *)
Theorem init_mcmc_stretch_omitted_seed_accepted (d n : Z) :
  3 <= d →
  ∃ self,
    MCMC.init_mcmc custom_dist mvn
      (MCMC.Args.mk (Some d) None None None None None (Some "Stretch") None
         (Some n) None None) = Ok self ∧
    MCMC.algorithm self = "Stretch" ∧
    MCMC.dimension self = d ∧
    MCMC.seed self = MCMC.Vec (replicate (Z.to_nat d) 0%Q).
Proof.
  intros Hd. unfold MCMC.init_mcmc. cbn [MCMC.Args.algorithm MCMC.Args.dimension
    MCMC.Args.nsamples MCMC.Args.seed MCMC.Args.jump MCMC.Args.pdf_proposal_type
    MCMC.Args.pdf_proposal_scale MCMC.Args.pdf_target_type MCMC.Args.pdf_target
    MCMC.Args.pdf_target_params MCMC.Args.nburn default mbind result_bind].
  unfold id. assert ((d <? 0) = false) as -> by (apply Z.ltb_ge; lia).
  cbn [mbind result_bind MCMC.is_ String.eqb Ascii.eqb Bool.eqb negb MCMC.len].
  rewrite length_replicate.
  assert ((Z.to_nat d <? 3)%nat = false) as -> by (apply Nat.ltb_ge; lia).
  unfold MCMC.broadcast. simpl.
  destruct (negb _); destruct (d =? 1); simpl; eexists; done.
Qed.

End Validation.

(** The Stretch configuration with no seed in three dimensions. *)
Lemma init_mcmc_stretch_omitted_seed_accepted_witness :
  3 <= 3 ∧
  ∃ self,
    MCMC.init_mcmc Fixture.no_custom Fixture.flat_mvn
      (MCMC.Args.mk (Some 3) None None None None None (Some "Stretch") None
         (Some 6) None None) = Ok self ∧
    MCMC.algorithm self = "Stretch" ∧
    MCMC.dimension self = 3 ∧
    MCMC.seed self = MCMC.Vec (replicate (Z.to_nat 3) 0%Q).
Proof.
  split; [lia|].
  apply (init_mcmc_stretch_omitted_seed_accepted Fixture.no_custom
           Fixture.flat_mvn 3 6). lia.
Defined.

(** [MCMC(nsamples=10)]: every other option omitted. *)
Lemma init_mcmc_omitted_algorithm_raises_witness :
  MCMC.Args.algorithm
    (MCMC.Args.mk None None None None None None None None (Some 10) None None)
    = None ∧
  MCMC.init_mcmc Fixture.no_custom Fixture.flat_mvn
    (MCMC.Args.mk None None None None None None None None (Some 10) None None)
    = Raise ValueError.
Proof.
  split; [reflexivity|].
  apply (init_mcmc_omitted_algorithm_raises Fixture.no_custom Fixture.flat_mvn
           (MCMC.Args.mk None None None None None None None None (Some 10)
              None None) eq_refl eq_refl); [discriminate|reflexivity..].
Defined.

(** * The samplers at explicit inputs *)

Module Inputs.
Import Distributions.

(** [MCMC(dimension=1, pdf_proposal_type=..., pdf_proposal_scale=1,
    pdf_target_type='joint_pdf', algorithm='MH', jump=1, nsamples=3,
    seed=np.zeros(1), nburn=...)] *)
Definition mh (proposal : string) (nburn : Z) : MCMC.Args.t :=
  MCMC.Args.mk (Some 1) (Some (STS.One proposal)) (Some (STS.One 1%Q))
    (Some "joint_pdf") None None (Some "MH") (Some 1) (Some 3)
    (Some (MCMC.Vec [0%Q])) (Some nburn).

(** [MCMC(dimension=2, algorithm='MMH', pdf_target_type=..., nsamples=3,
    nburn=...)] *)
Definition mmh (target_type : string) (nburn : Z) : MCMC.Args.t :=
  MCMC.Args.mk (Some 2) None None (Some target_type) None None (Some "MMH")
    None (Some 3) None (Some nburn).

(** [MCMC(dimension=2, pdf_proposal_type='Normal', algorithm='MMH',
    pdf_target_type=..., nsamples=3, nburn=...)] *)
Definition mmh_normal (target_type : string) (nburn : Z) : MCMC.Args.t :=
  MCMC.Args.mk (Some 2) (Some (STS.One "Normal")) None (Some target_type)
    None None (Some "MMH") None (Some 3) None (Some nburn).

(** [MCMC(dimension=2, algorithm='MMH', pdf_target_type='joint_pdf',
    pdf_target=f, nsamples=3)], with the default Uniform proposal *)
Definition mmh_joint (f : MCMC.density) : MCMC.Args.t :=
  MCMC.Args.mk (Some 2) None None (Some "joint_pdf")
    (Some (MCMC.TargetFun f)) None (Some "MMH") None (Some 3) None None.

(** [MCS(dimension=2, dist_type=['Uniform','Uniform'],
    dist_params=[[0,1],[0,1]], nsamples=100)] *)
Definition mcs : MCS.Args.t :=
  MCS.Args.mk (Some 2) (Some [DStr "Uniform"; DStr "Uniform"])
    (Some [[0; 1]; [0; 1]]%Q) (Some 100).

(** [PSS(dist_type=['Uniform','Uniform'], dist_params=[[0,1],[0,1]],
    pss_design=[1,1], pss_strata=[4,4])] *)
Definition pss : PSS.Args.t :=
  PSS.Args.mk None (Some [DStr "Uniform"; DStr "Uniform"])
    (Some [[0; 1]; [0; 1]]%Q) (Some [1; 1]) (Some [4; 4]).

(** [LHS(dimension=2, dist_type=['Uniform','Uniform'],
    dist_params=[[0,1],[0,1]], lhs_criterion=..., nsamples=3)] *)
Definition lhs (criterion : string) : LHS.Args.t :=
  LHS.Args.mk (Some 2) (Some [DStr "Uniform"; DStr "Uniform"])
    (Some [[0; 1]; [0; 1]]%Q) (Some criterion) (Some "euclidean") (Some 100)
    (Some 3).

(** [MCMC(dimension=2, algorithm='Stretch', nsamples=8,
    seed=np.array([[1,1],[1,-1],[-1,1],[-1,-1]]))] *)
Definition stretch : MCMC.Args.t :=
  MCMC.Args.mk (Some 2) None None None None None (Some "Stretch") None
    (Some 8) (Some (MCMC.Mat [[1; 1]; [1; -1]; [-1; 1]; [-1; -1]]%Q)) None.

(** [def bump(x, params): return 1 / (1 + x[0]**2 + x[1]**2)] *)
Definition bump : MCMC.density :=
  λ x _,
    match map MCMC.value x with
    | x0 :: x1 :: _ => Ok (1 / (1 + x0 * x0 + x1 * x1))%Q
    | _ => Raise IndexError
    end.

(** The same run with [pdf_target=bump]. *)
Definition stretch_bump : MCMC.Args.t :=
  MCMC.Args.mk (Some 2) None None None (Some (MCMC.TargetFun bump)) None
    (Some "Stretch") None (Some 8)
    (Some (MCMC.Mat [[1; 1]; [1; -1]; [-1; 1]; [-1; -1]]%Q)) None.

End Inputs.

(** The burn-in failure on explicit inputs: with [nburn = 1] the MH run,
    the MMH run with marginal densities and the MMH run with the joint
    density and the Normal proposal raise [IndexError]; with [nburn = 0]
    the same configurations return [nsamples] rows.  The MMH run with the
    joint density and the default Uniform proposal does not get that far:
    in two dimensions its first candidate is a list holding an array, and
    the run raises [ValueError] with or without burn-in. *)
Example burn_in_index_error :
  MCMC.new Fixture.no_custom Fixture.flat_mvn (Inputs.mh "Normal" 1) O
    = Raise IndexError ∧
  MCMC.new Fixture.no_custom Fixture.flat_mvn (Inputs.mmh "marginal_pdf" 1) O
    = Raise IndexError ∧
  MCMC.new Fixture.no_custom Fixture.flat_mvn
    (Inputs.mmh_normal "joint_pdf" 1) O = Raise IndexError ∧
  (∃ out g, MCMC.new Fixture.no_custom Fixture.flat_mvn
              (Inputs.mh "Normal" 0) O = Ok (out, g) ∧ length out = 3%nat) ∧
  (∃ out g, MCMC.new Fixture.no_custom Fixture.flat_mvn
              (Inputs.mmh "marginal_pdf" 0) O = Ok (out, g) ∧
            length out = 3%nat) ∧
  (∃ out g, MCMC.new Fixture.no_custom Fixture.flat_mvn
              (Inputs.mmh_normal "joint_pdf" 0) O = Ok (out, g) ∧
            length out = 3%nat) ∧
  MCMC.new Fixture.no_custom Fixture.flat_mvn (Inputs.mmh "joint_pdf" 0) O
    = Raise ValueError ∧
  MCMC.new Fixture.no_custom Fixture.flat_mvn (Inputs.mmh "joint_pdf" 1) O
    = Raise ValueError.
Proof.
  split; [vm_compute; reflexivity|].
  split; [vm_compute; reflexivity|].
  split; [vm_compute; reflexivity|].
  split; [eexists _, _; (split; [vm_compute; reflexivity|reflexivity])|].
  split; [eexists _, _; (split; [vm_compute; reflexivity|reflexivity])|].
  split; [eexists _, _; (split; [vm_compute; reflexivity|reflexivity])|].
  split; vm_compute; reflexivity.
Qed.

(** The joint mode with the Uniform proposal in two dimensions, under
    targets that take the Python list as it comes.  Where the target is
    [np.float64(0)] everywhere, each ratio is [nan], each step rejects,
    no array enters [current] and the run returns the seed in every row.
    Where it is [np.float64(1)] everywhere, each step accepts and the
    list of arrays has no place in the row: [ValueError]. *)
Example joint_uniform_proposal_lists :
  MCMC.new Fixture.no_custom Fixture.flat_mvn
    (Inputs.mmh_joint (λ _ _, Ok 0%Q)) O
    = Ok ([[0; 0]; [0; 0]; [0; 0]]%Q, 8%nat) ∧
  MCMC.new Fixture.no_custom Fixture.flat_mvn
    (Inputs.mmh_joint (λ _ _, Ok 1%Q)) O
    = Raise ValueError.
Proof. split; vm_compute; reflexivity. Qed.

(** An MH configuration with one step of burn-in. *)
Lemma run_mcmc_burn_in_overruns_buffer_witness :
  ∃ self,
    MCMC.init_mcmc Fixture.no_custom Fixture.flat_mvn (Inputs.mh "Normal" 1)
      = Ok self ∧
    MCMC.algorithm self = "MH" ∧ 1 <= MCMC.nburn self ∧
    is_ok (MCMC.raw_chain self O) = false ∧
    is_ok (MCMC.run_mcmc self O) = false.
Proof.
  pose (self := MCMC.mk 1 ["Normal"] [1%Q] "joint_pdf"
                  [MCMC.TFun MCMC.norm_target] [] "MH" 1 3
                  (MCMC.Vec [0%Q]) 1).
  exists self. split; [reflexivity|]. split; [reflexivity|].
  split; [cbn; lia|].
  apply (run_mcmc_burn_in_overruns_buffer Fixture.no_custom Fixture.flat_mvn
           (Inputs.mh "Normal" 1) self O eq_refl (or_introl eq_refl));
    cbn; lia.
Defined.

(** C4. An MH run with the Uniform proposal never draws a candidate: the
    test of the Uniform branch compares the list of proposal types with a
    string, no branch assigns [candidate], and every transition raises
    [UnboundLocalError] at its first use, whatever the state and the
    random source; a run with at least one transition returns nothing. *)
Theorem mh_uniform_proposal_draws_nothing
    {G : Type} `{RandomSource G} (self : MCMC.t) (pdf_ : MCMC.target_item)
    (g : G) :
  MCMC.pdf_proposal_type self !! 0%nat = Some "Uniform" →
  (∀ samples i,
     MCMC.mh_candidate self samples i g = Raise UnboundLocalError ∧
     MCMC.mh_draw self pdf_ samples i g = Raise UnboundLocalError ∧
     MCMC.mh_body self pdf_ i (samples, g) = Raise UnboundLocalError) ∧
  (MCMC.algorithm self = "MH" → 1 <= MCMC.transitions self →
   is_ok (MCMC.raw_chain self g) = false ∧
   is_ok (MCMC.run_mcmc self g) = false).
Proof.
  intros Hty.
  assert (∀ (g0 : G) samples i,
            MCMC.mh_candidate self samples i g0 = Raise UnboundLocalError)
    as Hcand.
  { intros g0 samples i. unfold MCMC.mh_candidate, index. by rewrite Hty. }
  assert (∀ p (g0 : G) samples i,
            MCMC.mh_body self p i (samples, g0) = Raise UnboundLocalError)
    as Hbody.
  { intros p g0 samples i. unfold MCMC.mh_body, MCMC.mh_draw.
    by rewrite Hcand. }
  split.
  - intros samples i. split; [done|]. split; [|done].
    unfold MCMC.mh_draw. by rewrite Hcand.
  - intros Halg HT.
    assert (is_ok (MCMC.raw_chain self g) = false) as Hraw; cycle 1.
    { split; [done|]. unfold MCMC.run_mcmc.
      by destruct (MCMC.raw_chain self g). }
    unfold MCMC.raw_chain. apply is_ok_bind. intros samples _.
    rewrite Halg. cbn [String.eqb Ascii.eqb Bool.eqb]. cbv iota.
    unfold MCMC.mh_chain. apply is_ok_bind. intros s0 _.
    apply is_ok_bind. intros p _. unfold range.
    destruct (Z.to_nat (MCMC.transitions self)) as [|T] eqn:E; [lia|].
    cbn [seq for_]. by rewrite Hbody.
Qed.

(** The MH configuration with the Uniform proposal. *)
Lemma mh_uniform_proposal_draws_nothing_witness :
  ∃ self,
    MCMC.init_mcmc Fixture.no_custom Fixture.flat_mvn (Inputs.mh "Uniform" 0)
      = Ok self ∧
    MCMC.pdf_proposal_type self !! 0%nat = Some "Uniform" ∧
    MCMC.mh_candidate self [[0%Q]] 0 O = Raise UnboundLocalError ∧
    MCMC.new Fixture.no_custom Fixture.flat_mvn (Inputs.mh "Uniform" 0) O
      = Raise UnboundLocalError.
Proof.
  pose (self := MCMC.mk 1 ["Uniform"] [1%Q] "joint_pdf"
                  [MCMC.TFun MCMC.norm_target] [] "MH" 1 3
                  (MCMC.Vec [0%Q]) 0).
  exists self. split; [reflexivity|]. split; [reflexivity|].
  split; [|reflexivity].
  apply (mh_uniform_proposal_draws_nothing self (MCMC.TFun MCMC.norm_target)
           O eq_refl).
Defined.

(** C7. No MCS construction returns: [run_mcs] calls [inv_cdf] with three
    arguments, and [inv_cdf(dist)] takes one.  The scenario passes
    validation, draws its uniform points and raises [TypeError]. *)
Theorem run_mcs_call_is_refused
    {G : Type} `{RandomSource G} `{Distributions.Scipy} custom (g : G) :
  (∀ self, is_ok (MCS.run_mcs custom self g) = false) ∧
  (∀ a, is_ok (MCS.new custom a g) = false) ∧
  is_ok (MCS.init_mcs Inputs.mcs) = true ∧
  MCS.new custom Inputs.mcs g = Raise TypeError.
Proof.
  assert (∀ self (g0 : G), is_ok (MCS.run_mcs custom self g0) = false) as Hrun.
  { intros self g0. unfold MCS.run_mcs. apply is_ok_bind.
    by intros [samples g1] _. }
  split; [done|]. split.
  { intros a. unfold MCS.new. apply is_ok_bind. intros self _. apply Hrun. }
  split; [reflexivity|].
  unfold MCS.new.
  change (MCS.init_mcs Inputs.mcs) with
    (Ok (MCS.mk 2 100 [Distributions.DStr "Uniform"; Distributions.DStr "Uniform"]
           [[0; 1]; [0; 1]]%Q)).
  cbn [mbind result_bind]. unfold MCS.run_mcs, Random.rand.
  cbn [MCS.nsamples MCS.dimension].
  change ((100 <? 0) || (2 <? 0)) with false. cbv iota.
  cbn [mbind result_bind]. by destruct (Random.draws _ _ g).
Qed.

(** [init_pss] admits no empty design. *)
Lemma init_pss_design `{Float64} a self :
  PSS.init_pss a = Ok self → PSS.pss_design self ≠ [].
Proof.
  unfold PSS.init_pss. intros Hinit.
  destruct (PSS.Args.dist_type a) as [dt|]; [|discriminate].
  destruct (existsb _ dt); [discriminate|].
  destruct (PSS.Args.dist_params a) as [dp|]; [|discriminate].
  destruct (PSS.Args.pss_design a) as [design|]; [|discriminate].
  destruct (PSS.Args.pss_strata a) as [strata|]; [|discriminate].
  destruct (negb _); [discriminate|].
  apply bind_Ok in Hinit as (check & _ & Hinit).
  destruct check as [|c cs]; [discriminate|].
  destruct (negb _); [discriminate|].
  apply bind_Ok in Hinit as (dim & _ & Hinit).
  apply bind_Ok in Hinit as ([dt' dp'] & _ & Hinit).
  apply bind_Ok in Hinit as (s0 & _ & Hinit).
  apply bind_Ok in Hinit as (d0 & Hd0 & Hinit).
  apply bind_Ok in Hinit as (n & _ & Hinit).
  inversion Hinit; subst. cbn. apply index_Ok in Hd0. by destruct design.
Qed.

(** The scenario of four strata in each of two dimensions passes
    validation, whatever the rounding to doubles is. *)
Lemma init_pss_scenario `{Float64} :
  PSS.init_pss Inputs.pss =
  Ok (PSS.mk 2 [Distributions.DStr "Uniform"; Distributions.DStr "Uniform"]
        [[0; 1]; [0; 1]]%Q [1; 1] [4; 4] (PSS.Int 4)).
Proof.
  unfold PSS.init_pss, Inputs.pss.
  cbn [PSS.Args.dist_type PSS.Args.dist_params PSS.Args.pss_design
       PSS.Args.pss_strata PSS.Args.dimension].
  change (existsb Distributions.unrecognized _) with false. cbv iota.
  change (negb (_ =? _)%nat) with false. cbv iota.
  assert (PSS.sample_check [4; 4] [1; 1] =
          Ok (replicate 4 (float64 (inject_Z 4)))) as -> by reflexivity.
  cbn [mbind result_bind replicate forallb].
  rewrite !Qeq_bool_refl. reflexivity.
Qed.

(** C9. No PSS construction returns: the first pass of the loop of
    [run_pss] constructs [STS] with the keyword [pss_], which
    [STS.__init__] does not have.  The scenario passes validation and
    raises [TypeError]. *)
Theorem run_pss_call_is_refused
    {G : Type} `{RandomSource G} `{Distributions.Scipy} `{Float32}
    `{Float64} custom (g : G) :
  (∀ a, is_ok (PSS.new custom a g) = false) ∧
  is_ok (PSS.init_pss Inputs.pss) = true ∧
  PSS.new custom Inputs.pss g = Raise TypeError.
Proof.
  split; [|unfold PSS.new; rewrite init_pss_scenario; split; reflexivity].
  intros a. unfold PSS.new. apply is_ok_bind. intros self Hinit.
  apply init_pss_design in Hinit.
  unfold PSS.run_pss. apply is_ok_bind. intros s1 _.
  apply is_ok_bind. intros s2 _. unfold range. rewrite Nat2Z.id.
  destruct (PSS.pss_design self) as [|d0 design] eqn:Hdesign; [done|].
  apply is_ok_bind. intros st Hfor. exfalso.
  cbn [length seq for_] in Hfor.
  apply bind_Ok in Hfor as ([[[sU sX] g1] col] & Hbody & _).
  unfold PSS.run_pss_body in Hbody.
  apply bind_Ok in Hbody as (si & _ & Hbody).
  apply bind_Ok in Hbody as (di & _ & Hbody).
  apply bind_Ok in Hbody as (ns & _ & Hbody).
  apply bind_Ok in Hbody as (sts & Hcall & _). discriminate.
Qed.

(** The two shuffles of a block are independent draws: on the
    deterministic source the rows [0, 1, 2] and their images
    [10, 11, 12] end up paired differently. *)
Example shuffle_block_breaks_rows :
  PSS.shuffle_block 3 0 1 ([[0]; [1]; [2]], [[10]; [11]; [12]], 1%nat)%Q
  = Ok ([[1]; [2]; [0]], [[12]; [10]; [11]], 3%nat)%Q.
Proof. reflexivity. Qed.

(** * The transformation loop of [run_lhs] *)

Section Transform.
Context `{Distributions.Scipy}.
Variable custom_dist : option (string → option Distributions.callable).

(** [inv_cdf] on a string walks over its characters: a non-empty string
    raises, the empty string comes back as it is. *)
Lemma inv_cdf_str s :
  match Distributions.inv_cdf custom_dist (Distributions.ArgStr s) with
  | Ok r => s = "" ∧ r = Distributions.ArgStr ""
  | Raise _ => s ≠ ""
  end.
Proof.
  unfold Distributions.inv_cdf, Distributions.registry.
  destruct s as [|c s]; [done|].
  cbn [list_ascii_of_string for_].
  by destruct (Distributions.resolve custom_dist Distributions.PPF _).
Qed.

(** No entry of the transformed array is ever computed. *)
Lemma transform_entry_raises self samples i j acc :
  is_ok (LHS.transform_entry custom_dist self samples i j acc) = false.
Proof.
  unfold LHS.transform_entry.
  destruct (index (LHS.dist_type self) j) as [[s|f]|]; [|done..].
  cbn [mbind result_bind Distributions.arg_of_item].
  unfold call. cbn [bound_by Distributions.params length Nat.leb andb forallb
                      drop].
  pose proof (inv_cdf_str s) as Hs.
  destruct (Distributions.inv_cdf custom_dist (Distributions.ArgStr s))
    as [r|]; [|done].
  cbn [mbind result_bind].
  destruct (get samples i j); [|done]. cbn [mbind result_bind].
  by destruct (index (LHS.dist_params self) j).
Qed.
End Transform.

(** The LHS failure on explicit inputs: the design is built, the run
    raises [NotImplementedError]. *)
Example run_lhs_not_implemented pd corr :
  LHS.new Fixture.no_custom pd corr (Inputs.lhs "random") O
    = Raise NotImplementedError ∧
  LHS.new Fixture.no_custom pd corr (Inputs.lhs "centered") O
    = Raise NotImplementedError ∧
  (∃ self, LHS.init_lhs (Inputs.lhs "random") = Ok self ∧
     is_ok (LHS.design pd corr self O) = true) ∧
  (∃ self, LHS.init_lhs (Inputs.lhs "centered") = Ok self ∧
     is_ok (LHS.design pd corr self O) = true).
Proof.
  split; [vm_compute; reflexivity|].
  split; [vm_compute; reflexivity|].
  split; eexists; (split; [reflexivity|vm_compute; reflexivity]).
Qed.

(** The counts [2, 3] satisfy the hypothesis of the Strata theorem. *)
Lemma strata_full_factorial_witness :
  [2; 3] ≠ [] ∧ Forall (λ n, 0 < n) [2; 3] ∧
  ∃ s, Strata.init (Strata.of_nstrata [2; 3]) = Ok s ∧
       length (Strata.origins s) = 6%nat ∧
       (Qsum (Strata.weights s) == 1)%Q.
Proof.
  assert (Forall (λ n, 0 < n) [2; 3]) as Hpos by (repeat constructor).
  assert ([2; 3] ≠ []) as Hne by discriminate.
  split; [exact Hne|]. split; [exact Hpos|].
  destruct (strata_full_factorial [2; 3] Hne Hpos)
    as (s & Hs & Hlen & _ & _ & _ & _ & Hsum & _).
  exists s. split; [exact Hs|]. split; [exact Hlen|exact Hsum].
Defined.


(** A Stretch run from four walkers towards the target [bump], on the
    deterministic source: the first transition, which writes row 4. *)
Lemma stretch_chain_transitions_witness :
  ∃ self raw g',
    MCMC.init_mcmc Fixture.no_custom Fixture.flat_mvn Inputs.stretch_bump
      = Ok self ∧
    MCMC.algorithm self = "Stretch" ∧
    MCMC.raw_chain self O = Ok (raw, g') ∧
    (3 ≤ MCMC.len (MCMC.seed self))%nat ∧
    length raw = 8%nat ∧
    ∃ S' x z p_prop p_cur (accept : bool),
      let candidate := zip_with (λ Sc xc, (Sc + z * (xc - Sc))%Q) S' x in
      raw !! 0%nat = Some x ∧
      Inputs.bump (MCMC.array candidate) [] = Ok p_prop ∧
      Inputs.bump (MCMC.array x) [] = Ok p_cur ∧
      raw !! 4%nat = Some (if accept then candidate else x).
Proof.
  pose (self := MCMC.mk 2 ["Uniform"; "Uniform"] [2%Q; 2%Q] "joint_pdf"
                  [MCMC.TFun Inputs.bump] []
                  "Stretch" 1 8
                  (MCMC.Mat [[1; 1]; [1; -1]; [-1; 1]; [-1; -1]]%Q) 0).
  assert (MCMC.init_mcmc Fixture.no_custom Fixture.flat_mvn
            Inputs.stretch_bump = Ok self) as Hinit by reflexivity.
  destruct (MCMC.raw_chain self O) as [[raw g']|e] eqn:Hraw;
    [|vm_compute in Hraw; discriminate].
  destruct (stretch_chain_transitions Fixture.no_custom Fixture.flat_mvn
              Inputs.stretch_bump self O g' raw Hinit eq_refl Hraw)
    as (HK & Hlen & _ & Hsteps).
  destruct (Hsteps 3%nat ltac:(unfold self; cbn; lia)
              ltac:(unfold self; cbn; lia))
    as (pi & samples & s0 & s & g_i & idx & g1 & U & g2 & V & g3 & scale
        & S' & x & p_prop & p_cur & accept & _ & _ & Hpi & _ & _ & _ & _
        & _ & _ & _ & _ & Hx & _ & _ & Hpp & Hpc & _ & _ & _ & _ & _ & Hrow).
  assert (pi = Inputs.bump) as -> by (by injection Hpi as <-).
  exists self, raw, g'.
  split; [exact Hinit|]. split; [reflexivity|]. split; [exact Hraw|].
  split; [exact HK|]. split; [exact Hlen|].
  exists S', x, ((1 + (scale - 1) * U) ^ 2 / scale)%Q, p_prop, p_cur, accept.
  cbv zeta. split; [exact Hx|]. split; [exact Hpp|]. split; [exact Hpc|].
  exact Hrow.
Defined.

(** * Latin hypercube designs *)

Lemma set_col_length (m : matrix) j col m' :
  set_col m j col = Ok m' → length m' = length m.
Proof.
  unfold set_col. destruct (forallb _ m); [|discriminate].
  destruct (Nat.eqb_spec (length col) (length m)) as [Hlen|Hlen].
  - intros [= <-]. rewrite length_zip_with. lia.
  - destruct col as [|x [|]]; try discriminate. intros [= <-].
    by rewrite length_map.
Qed.

(** A property that every step of a loop keeps. *)
Lemma for_invariant {A St} (P : St → Prop) (body : A → St → result St) xs :
  (∀ x s s', P s → body x s = Ok s' → P s') →
  ∀ s s', P s → for_ xs body s = Ok s' → P s'.
Proof.
  intros Hbody. induction xs as [|x xs IH]; intros s s' Hs Hfor.
  - by inversion Hfor; subst.
  - cbn [for_] in Hfor. apply bind_Ok in Hfor as (s1 & E & Hfor).
    eapply IH; [|exact Hfor]. by eapply Hbody.
Qed.

Section Designs.
Context {G : Type} `{RandomSource G}.
Variable min_pdist : string → matrix → result Q.
Variable max_abs_corr : matrix → result Q.
Variable self : LHS.t.
Let n := Z.to_nat (LHS.nsamples self).

Lemma _random_length a b (g g' : G) samples :
  LHS._random self a b g = Ok (samples, g') → length samples = n.
Proof.
  unfold LHS._random. intros Hr.
  apply bind_Ok in Hr as ([u g1] & _ & Hr).
  apply bind_Ok in Hr as (s0 & Hz & Hr).
  destruct (zeros_rows _ _ _ Hz) as (_ & Hlen0).
  apply bind_Ok in Hr as (s1 & Hscale & Hr).
  apply (for_invariant (λ s : matrix, length s = n)) in Hscale;
    [|clear; intros i s s' Hs Hb|done].
  2:{ apply bind_Ok in Hb as (ui & _ & Hb).
      by rewrite (set_col_length _ _ _ _ Hb). }
  apply (for_invariant (λ s : matrix * G, length (fst s) = n)) in Hr;
    [done|clear|done].
  intros j [s g2] [s' g3] Hs Hb. cbn [fst] in *.
  destruct (permutation _ g2) as [order g4].
  apply bind_Ok in Hb as (col & _ & Hb).
  apply bind_Ok in Hb as (s2 & Hset & Hb). inversion Hb; subst.
  by rewrite (set_col_length _ _ _ _ Hset).
Qed.

Lemma _centered_length a b (g g' : G) samples :
  LHS._centered self a b g = Ok (samples, g') → length samples = n.
Proof.
  unfold LHS._centered. intros Hr.
  apply bind_Ok in Hr as (s0 & Hz & Hr).
  destruct (zeros_rows _ _ _ Hz) as (_ & Hlen0).
  apply (for_invariant (λ s : matrix * G, length (fst s) = n)) in Hr;
    [done|clear|done].
  intros j [s g2] [s' g3] Hs Hb. cbn [fst] in *.
  destruct (permutation _ g2) as [order g4].
  apply bind_Ok in Hb as (col & _ & Hb).
  apply bind_Ok in Hb as (s2 & Hset & Hb). inversion Hb; subst.
  by rewrite (set_col_length _ _ _ _ Hset).
Qed.

Lemma _max_min_length a b (g g' : G) samples :
  LHS._max_min min_pdist self a b g = Ok (samples, g') → length samples = n.
Proof.
  unfold LHS._max_min. intros Hr.
  apply bind_Ok in Hr as ([s0 g1] & H0 & Hr).
  apply _random_length in H0.
  apply bind_Ok in Hr as ([[s1 dist] g2] & Hloop & Hr).
  inversion Hr; subst; clear Hr.
  apply (for_invariant (λ s : matrix * Q * G, length (fst (fst s)) = n))
    in Hloop; [done| |done].
  intros _ [[s d0] g3] [[s' d1] g4] Hs Hb. cbn [fst] in *.
  apply bind_Ok in Hb as ([st g5] & Htry & Hb).
  apply _random_length in Htry.
  apply bind_Ok in Hb as (dd & _ & Hb).
  destruct (Qltb d0 dd); inversion Hb; subst; done.
Qed.

Lemma _correlate_length a b (g g' : G) samples :
  LHS._correlate max_abs_corr self a b g = Ok (samples, g') →
  length samples = n.
Proof.
  unfold LHS._correlate. intros Hr.
  apply bind_Ok in Hr as ([s0 g1] & H0 & Hr).
  apply _random_length in H0.
  apply bind_Ok in Hr as ([[s1 dist] g2] & Hloop & Hr).
  inversion Hr; subst; clear Hr.
  apply (for_invariant
           (λ s : matrix * option Q * G, length (fst (fst s)) = n))
    in Hloop; [done| |done].
  intros _ [[s d0] g3] [[s' d1] g4] Hs Hb. cbn [fst] in *.
  apply bind_Ok in Hb as ([st g5] & Htry & Hb).
  apply _random_length in Htry.
  apply bind_Ok in Hb as (r & _ & Hb).
  destruct (match d0 with Some c => Qltb r c | None => true end);
    inversion Hb; subst; done.
Qed.

Lemma design_length (g g' : G) samples :
  LHS.design min_pdist max_abs_corr self g = Ok (samples, g') →
  length samples = n.
Proof.
  unfold LHS.design. destruct (_ <? 0); [discriminate|].
  destruct (_ =? "random")%string; [apply _random_length|].
  destruct (_ =? "centered")%string; [apply _centered_length|].
  destruct (_ =? "maximin")%string; [apply _max_min_length|].
  destruct (_ =? "correlate")%string; [apply _correlate_length|].
  discriminate.
Qed.

End Designs.

(** C10. No LHS run with at least one sample in at least one dimension
    returns: once the unit-hypercube design is built, the first entry
    [run_lhs] transforms hands the name [self.dist_type[j]], a string, to
    [inv_cdf], which walks over its characters; the call raises, or
    returns what is no function. *)
Theorem run_lhs_transform_is_refused
    {G : Type} `{RandomSource G} `{Distributions.Scipy}
    custom pd corr (self : LHS.t) (g : G) :
  1 <= LHS.nsamples self → 1 <= LHS.dimension self →
  is_ok (LHS.run_lhs custom pd corr self g) = false.
Proof.
  intros Hn Hd. unfold LHS.run_lhs. apply is_ok_bind.
  intros [samples g1] Hdesign. apply design_length in Hdesign.
  apply is_ok_bind. intros out Hout. exfalso.
  unfold range in Hout. rewrite Nat2Z.id, Hdesign in Hout.
  destruct (Z.to_nat (LHS.nsamples self)) as [|n'] eqn:En; [lia|].
  destruct (Z.to_nat (LHS.dimension self)) as [|d'] eqn:Ed; [lia|].
  cbn [seq for_] in Hout.
  apply bind_Ok in Hout as (acc1 & Hrow & _).
  apply bind_Ok in Hrow as (acc2 & Hentry & _).
  pose proof (transform_entry_raises custom self samples 0 0
                (map (map (λ _, 0%Q)) samples)) as Hr.
  by rewrite Hentry in Hr.
Qed.

(** The LHS configuration with three samples in two dimensions. *)
Lemma run_lhs_transform_is_refused_witness :
  ∃ self,
    LHS.init_lhs (Inputs.lhs "random") = Ok self ∧
    1 <= LHS.nsamples self ∧ 1 <= LHS.dimension self ∧
    is_ok (LHS.design Fixture.flat_pdist Fixture.flat_corr self O) = true ∧
    is_ok (LHS.run_lhs Fixture.no_custom Fixture.flat_pdist Fixture.flat_corr
             self O) = false.
Proof.
  pose (self := LHS.mk 2 3
                  [Distributions.DStr "Uniform"; Distributions.DStr "Uniform"]
                  [[0; 1]; [0; 1]]%Q "random" "euclidean" 100).
  exists self. split; [reflexivity|].
  split; [cbn; lia|]. split; [cbn; lia|].
  split; [vm_compute; reflexivity|].
  apply (run_lhs_transform_is_refused Fixture.no_custom Fixture.flat_pdist
           Fixture.flat_corr self O); cbn; lia.
Defined.

(** * The Latin property of the designs *)





(** * Collecting loops and column updates *)

Lemma traverse_lookup {A B} (f : A → result B) xs ys :
  traverse f xs = Ok ys →
  length ys = length xs ∧
  ∀ i x, xs !! i = Some x → ∃ y, ys !! i = Some y ∧ f x = Ok y.
Proof.
  revert ys. induction xs as [|x xs IH]; intros ys Ht.
  - inversion Ht; subst. split; [done|]. intros i x Hx.
    by rewrite lookup_nil in Hx.
  - cbn [traverse] in Ht. apply bind_Ok in Ht as (y & Hy & Ht).
    apply bind_Ok in Ht as (ys' & Hys & Ht). inversion Ht; subst.
    destruct (IH _ Hys) as [Hlen Hlook]. split; [simpl; lia|].
    intros [|i] x' Hx'; simpl in *.
    + inversion Hx'; subst. eauto.
    + by apply Hlook.
Qed.

Lemma forallb_lookup {A} (f : A → bool) l i x :
  forallb f l = true → l !! i = Some x → f x = true.
Proof.
  revert i. induction l as [|y l IH]; intros i Hall Hx;
    [by rewrite lookup_nil in Hx|].
  cbn [forallb] in Hall. apply andb_true_iff in Hall as [Hy Hall].
  destruct i as [|i]; simpl in Hx; [by inversion Hx; subst|by eapply IH].
Qed.

Lemma set_col_get (m : matrix) j col m' :
  set_col m j col = Ok m' → length col = length m →
  (∀ r c, c ≠ j → get m' r c = get m r c) ∧
  (∀ r v, col !! r = Some v → get m' r j = Ok v).
Proof.
  unfold set_col. destruct (forallb _ m) eqn:Hall; [|discriminate].
  intros Hset Hlen. rewrite Hlen, Nat.eqb_refl in Hset.
  inversion Hset; subst; clear Hset. split.
  - intros r c Hc. unfold get, index. rewrite lookup_zip_with.
    destruct (m !! r) as [row|] eqn:Hrow; simpl; [|done].
    destruct (col !! r) as [x|] eqn:Hx; simpl.
    + by rewrite list_lookup_insert_ne.
    + apply lookup_ge_None in Hx. apply lookup_lt_Some in Hrow. lia.
  - intros r v Hv. apply get_Ok.
    destruct (lookup_lt_is_Some_2 m r) as [row Hrow];
      [apply lookup_lt_Some in Hv; lia|].
    exists (<[j:=v]> row). split.
    + rewrite lookup_zip_with, Hrow. simpl. by rewrite Hv.
    + apply list_lookup_insert_eq.
      apply Nat.ltb_lt. exact (forallb_lookup _ _ _ _ Hall Hrow).
Qed.

Lemma draws_Forall {G A B} (P : B → Prop) (f : A → G → B * G) xs g :
  (∀ x g, P (fst (f x g))) → Forall P (fst (Random.draws f xs g)).
Proof.
  intros Hf. revert g. induction xs as [|x xs IH]; intros g; [constructor|].
  cbn [Random.draws]. pose proof (Hf x g) as Hx. destruct (f x g) as [y g1].
  specialize (IH g1). destruct (Random.draws f xs g1) as [ys g2].
  simpl in *. by constructor.
Qed.



(** A loop over [range(k)] whose invariant follows the index. *)
Lemma for_range_invariant {St} (P : nat → St → Prop)
      (body : nat → St → result St) m :
  (∀ i s s', (i < m)%nat → P i s → body i s = Ok s' → P (S i) s') →
  ∀ k, (k <= m)%nat →
  ∀ s s', P 0%nat s → for_ (seq 0 k) body s = Ok s' → P k s'.
Proof.
  intros Hbody. induction k as [|k IH]; intros Hk s s' H0 Hfor.
  - by inversion Hfor; subst.
  - rewrite for_seq_S in Hfor. apply bind_Ok in Hfor as (s1 & E & Hfor).
    apply (Hbody k s1 s'); [lia| |done]. apply (IH ltac:(lia) s s1 H0 E).
Qed.

(** The cut points [a = cut[:n]] and [b = cut[1:n + 1]] of
    [cut = np.linspace(0, 1, n + 1)]. *)
Lemma cut_points N :
  0 <= N →
  let n := Z.to_nat N in
  let cut := linspace01 N in
  let a := take n cut in
  let b := take n (drop 1 cut) in
  length a = n ∧ length b = n ∧
  (∀ r, (r < n)%nat →
        a !! r = Some (inject_Z (Z.of_nat r) / inject_Z N)%Q) ∧
  (∀ r, (r < n)%nat →
        b !! r = Some (inject_Z (Z.of_nat (1 + r)) / inject_Z N)%Q).
Proof.
  intros HN n cut a b. subst a b cut. unfold linspace01, range.
  replace (Z.to_nat (N + 1)) with (S n) by (subst n; lia).
  split; [|split; [|split]].
  - rewrite length_take, length_map, length_seq. lia.
  - rewrite length_take, length_drop, length_map, length_seq. lia.
  - intros r Hr. rewrite lookup_take_lt by done.
    rewrite list_lookup_fmap, lookup_seq_lt by lia. done.
  - intros r Hr. rewrite lookup_take_lt by done. rewrite lookup_drop.
    rewrite list_lookup_fmap, lookup_seq_lt by lia. done.
Qed.

Section Latin.
Context {G : Type} `{RandomSource G}.
Variable min_pdist : string → matrix → result Q.
Variable max_abs_corr : matrix → result Q.
Variable self : LHS.t.
Let N := LHS.nsamples self.
Let n := Z.to_nat N.
Let d := Z.to_nat (LHS.dimension self).
Hypothesis HN : 0 < N.
Variables a b : vector.
Hypothesis Hla : length a = n.
Hypothesis Hlb : length b = n.
Hypothesis Ha : ∀ r, (r < n)%nat →
  a !! r = Some (inject_Z (Z.of_nat r) / inject_Z N)%Q.
Hypothesis Hb : ∀ r, (r < n)%nat →
  b !! r = Some (inject_Z (Z.of_nat (1 + r)) / inject_Z N)%Q.










End Latin.



(** * The designs return *)

Lemma traverse_total {A B} (f : A → result B) xs :
  Forall (λ x, is_ok (f x) = true) xs → ∃ ys, traverse f xs = Ok ys.
Proof.
  induction 1 as [|x xs Hx _ [ys IH]]; [by exists []|].
  cbn [traverse]. destruct (f x) as [y|e]; [|discriminate].
  exists (y :: ys). cbn [mbind result_bind]. by rewrite IH.
Qed.

Lemma set_col_Ok d (m : matrix) j col :
  rows_of_length d m → (j < d)%nat → length col = length m →
  ∃ m', set_col m j col = Ok m' ∧ length m' = length m ∧
        rows_of_length d m'.
Proof.
  intros Hm Hj Hlen. unfold set_col.
  assert (forallb (λ row : vector, (j <? length row)%nat) m = true) as ->.
  { apply forallb_forall. intros row Hrow. apply Nat.ltb_lt.
    apply list_elem_of_In in Hrow. unfold rows_of_length in Hm.
    rewrite Forall_forall in Hm. by rewrite (Hm _ Hrow). }
  rewrite Hlen, Nat.eqb_refl. eexists. split; [done|].
  split; [rewrite length_zip_with; lia|].
  apply Forall_forall. intros row' Hrow'.
  apply list_elem_of_lookup in Hrow' as [k Hk].
  apply lookup_zip_with_Some in Hk as (row & x & -> & Hrow & _).
  rewrite length_insert. unfold rows_of_length in Hm.
  rewrite Forall_forall in Hm. eapply Hm, list_elem_of_lookup_2, Hrow.
Qed.

Lemma for_range_total {St} (P : St → Prop) (body : nat → St → result St) m :
  (∀ i s, (i < m)%nat → P s → ∃ s', body i s = Ok s' ∧ P s') →
  ∀ k, (k <= m)%nat →
  ∀ s, P s → ∃ s', for_ (seq 0 k) body s = Ok s' ∧ P s'.
Proof.
  intros Hbody. induction k as [|k IH]; intros Hk s Hs; [by exists s|].
  destruct (IH ltac:(lia) s Hs) as (s1 & E & Hs1).
  destruct (Hbody k s1 ltac:(lia) Hs1) as (s' & Hb & Hs').
  exists s'. split; [|done]. rewrite for_seq_S, E. exact Hb.
Qed.

Lemma rand_Ok {G} `{RandomSource G} n d (g : G) :
  0 <= n → 0 <= d →
  ∃ u g', Random.rand n d g = Ok (u, g') ∧
          length u = Z.to_nat n ∧ rows_of_length (Z.to_nat d) u.
Proof.
  intros Hn Hd. unfold Random.rand.
  assert ((n <? 0) || (d <? 0) = false) as ->
    by (apply orb_false_iff; split; apply Z.ltb_ge; lia).
  pose proof (length_draws
                (λ _ : nat, Random.draws (λ _ : nat, random_sample) (range d))
                (range n) g) as Hl.
  pose proof (draws_Forall (λ row : vector, length row = Z.to_nat d)
                (λ _ : nat, Random.draws (λ _ : nat, random_sample) (range d))
                (range n) g) as HF.
  destruct (Random.draws _ (range n) g) as [u g']. cbn [fst] in Hl, HF.
  exists u, g'. split; [done|]. split.
  - by rewrite Hl; unfold range; rewrite length_seq.
  - apply HF. intros _ g0. rewrite length_draws. unfold range.
    by rewrite length_seq.
Qed.

Lemma zeros_Ok n d :
  0 <= n → 0 <= d →
  ∃ s, zeros n d = Ok s ∧ length s = Z.to_nat n ∧
       rows_of_length (Z.to_nat d) s.
Proof.
  intros Hn Hd. unfold zeros, full.
  assert ((n <? 0) || (d <? 0) = false) as ->
    by (apply orb_false_iff; split; apply Z.ltb_ge; lia).
  eexists. split; [done|]. split; [by rewrite length_replicate|].
  apply Forall_replicate. by rewrite length_replicate.
Qed.

Lemma get_is_ok d (m : matrix) r j :
  rows_of_length d m → (r < length m)%nat → (j < d)%nat →
  is_ok (get m r j) = true.
Proof.
  intros Hm Hr Hj. destruct (lookup_lt_is_Some_2 m r Hr) as [row Hrow].
  pose proof (Forall_lookup_1 _ _ _ _ Hm Hrow) as Hlen. simpl in Hlen.
  destruct (lookup_lt_is_Some_2 row j ltac:(lia)) as [x Hx].
  by rewrite (proj2 (get_Ok m r j x) (ex_intro _ row (conj Hrow Hx))).
Qed.

Section Returns.
Context {G : Type} `{RandomSource G}.
Variable self : LHS.t.
Let N := LHS.nsamples self.
Let D := LHS.dimension self.
Let n := Z.to_nat N.
Let d := Z.to_nat D.
Hypothesis HN : 0 <= N.
Hypothesis HD : 0 <= D.
Variables a b : vector.
Hypothesis Hla : length a = n.
Hypothesis Hlb : length b = n.

Definition shaped (s : matrix) : Prop :=
  length s = n ∧ rows_of_length d s.

Lemma _random_returns (g : G) :
  ∃ samples g', LHS._random self a b g = Ok (samples, g') ∧ shaped samples.
Proof.
  unfold LHS._random. fold N D.
  destruct (rand_Ok N D g HN HD) as (u & g1 & -> & Hlu & Hu).
  cbn [mbind result_bind].
  destruct (zeros_Ok N D HN HD) as (s0 & -> & Hl0 & Hs0).
  cbn [mbind result_bind]. unfold range. fold d.
  destruct (for_range_total shaped
              (λ i samples, ui ← get_col u i;
                            set_col samples i (LHS.scale_into ui a b))
              d) with (k := d) (s := s0) as (s1 & -> & Hs1); [|lia|done|].
  { intros i s Hi [Hls Hs].
    destruct (traverse_total (λ row : vector, index row i) u) as [ui Hui].
    { eapply Forall_impl; [exact Hu|]. intros row Hrow. simpl in Hrow.
      destruct (lookup_lt_is_Some_2 row i ltac:(fold d; lia)) as [x Hx].
      unfold index. by rewrite Hx. }
    unfold get_col. rewrite Hui. cbn [mbind result_bind].
    apply traverse_lookup in Hui as [Hlui _].
    destruct (set_col_Ok d s i (LHS.scale_into ui a b) Hs Hi)
      as (s' & Hset & Hl' & Hs').
    { unfold LHS.scale_into. rewrite !length_zip_with. fold n in Hlu. lia. }
    exists s'. split; [done|]. split; [lia|done]. }
  cbn [mbind result_bind].
  destruct (for_range_total (λ st : matrix * G, shaped (fst st))
              (λ j '(samples, g),
                 let '(order, g) := permutation (Z.to_nat N) g in
                 col ← take_rows_col samples order j;
                 samples ← set_col samples j col;
                 Ok (samples, g))
              d) with (k := d) (s := (s1, g1)) as ([s2 g2] & -> & Hs2);
    [|lia|done|by exists s2, g2].
  intros j [s g0] Hj [Hls Hs]. cbn [fst] in *. fold n.
  pose proof (permutation_perm n g0) as Hperm.
  destruct (permutation n g0) as [p g3]. cbn [fst] in Hperm.
  destruct (traverse_total (λ r, get s r j) p) as [col Hcol].
  { apply Forall_forall. intros r Hr. rewrite Hperm in Hr.
    apply elem_of_seq in Hr. apply (get_is_ok d); [done|lia|done]. }
  unfold take_rows_col. rewrite Hcol. cbn [mbind result_bind].
  apply traverse_lookup in Hcol as [Hlc _].
  destruct (set_col_Ok d s j col Hs Hj) as (s' & -> & Hl' & Hs').
  { rewrite Hlc, (Permutation_length Hperm), length_seq. lia. }
  cbn [mbind result_bind]. exists (s', g3). split; [done|].
  split; [cbn [fst]; lia|done].
Qed.

Lemma _centered_returns (g : G) :
  ∃ samples g', LHS._centered self a b g = Ok (samples, g') ∧ shaped samples.
Proof.
  unfold LHS._centered. fold N D.
  destruct (zeros_Ok N D HN HD) as (s0 & -> & Hl0 & Hs0).
  cbn [mbind result_bind]. unfold range. fold d.
  rewrite length_zip_with, Hla, Hlb, Nat.min_id.
  destruct (for_range_total (λ st : matrix * G, shaped (fst st))
              (λ i '(samples, g),
                 let '(order, g) := permutation n g in
                 col ← traverse
                         (index (zip_with (λ x y, ((x + y) / 2)%Q) a b))
                         order;
                 samples ← set_col samples i col;
                 Ok (samples, g))
              d) with (k := d) (s := (s0, g)) as ([s2 g2] & -> & Hs2);
    [|lia|done|by exists s2, g2].
  intros j [s g0] Hj [Hls Hs]. cbn [fst] in *.
  pose proof (permutation_perm n g0) as Hperm.
  destruct (permutation n g0) as [p g3]. cbn [fst] in Hperm.
  destruct (traverse_total
              (index (zip_with (λ x y, ((x + y) / 2)%Q) a b)) p)
    as [col Hcol].
  { apply Forall_forall. intros r Hr. rewrite Hperm in Hr.
    apply elem_of_seq in Hr.
    destruct (lookup_lt_is_Some_2
                (zip_with (λ x y, ((x + y) / 2)%Q) a b) r) as [x Hx];
      [rewrite length_zip_with; lia|].
    unfold index. by rewrite Hx. }
  rewrite Hcol. cbn [mbind result_bind].
  apply traverse_lookup in Hcol as [Hlc _].
  destruct (set_col_Ok d s j col Hs Hj) as (s' & -> & Hl' & Hs').
  { rewrite Hlc, (Permutation_length Hperm), length_seq. lia. }
  cbn [mbind result_bind]. exists (s', g3). split; [done|].
  split; [cbn [fst]; lia|done].
Qed.

End Returns.

(** X2. With a non-negative number of samples and a non-negative
    dimension the 'random' and the 'centered' design raise nothing and
    have [nsamples] rows of [dimension] entries. *)
Theorem design_random_centered_returns {G : Type} `{RandomSource G}
    pd corr (self : LHS.t) (g : G) :
  0 <= LHS.nsamples self → 0 <= LHS.dimension self →
  LHS.lhs_criterion self = "random" ∨ LHS.lhs_criterion self = "centered" →
  ∃ samples g',
    LHS.design pd corr self g = Ok (samples, g') ∧
    length samples = Z.to_nat (LHS.nsamples self) ∧
    Forall (λ row, length row = Z.to_nat (LHS.dimension self)) samples.
Proof.
  intros HN HD Hc. unfold LHS.design.
  assert ((LHS.nsamples self + 1 <? 0) = false) as ->
    by (apply Z.ltb_ge; lia).
  destruct (cut_points (LHS.nsamples self) HN) as (Hla & Hlb & _ & _).
  destruct Hc as [-> | ->]; cbn [String.eqb Ascii.eqb Bool.eqb].
  - by apply _random_returns.
  - by apply _centered_returns.
Qed.

(** The 'centered' design of three samples in two dimensions. *)
Lemma design_random_centered_returns_witness :
  ∃ samples g',
    LHS.design Fixture.flat_pdist Fixture.flat_corr
      (LHS.mk 2 3 [] [] "centered" "euclidean" 100) O = Ok (samples, g') ∧
    length samples = 3%nat ∧ Forall (λ row, length row = 2%nat) samples.
Proof.
  apply (design_random_centered_returns Fixture.flat_pdist Fixture.flat_corr
           (LHS.mk 2 3 [] [] "centered" "euclidean" 100) O);
    [cbn; lia|cbn; lia|by right].
Defined.

(** X3. A negative number of samples or a negative dimension makes every
    criterion of the design raise [ValueError]. *)
Theorem design_negative_shape_raises {G : Type} `{RandomSource G}
    pd corr (self : LHS.t) (g : G) :
  LHS.nsamples self < 0 ∨ LHS.dimension self < 0 →
  In (LHS.lhs_criterion self) LHS.criteria →
  LHS.design pd corr self g = Raise ValueError.
Proof.
  intros Hneg Hc. unfold LHS.design.
  destruct (LHS.nsamples self + 1 <? 0); [done|].
  assert ((LHS.nsamples self <? 0) || (LHS.dimension self <? 0) = true)
    as Hb.
  { apply orb_true_iff. destruct Hneg; [left|right]; apply Z.ltb_lt; lia. }
  assert (∀ a b, LHS._random self a b g = Raise ValueError) as Hrandom.
  { intros a b. unfold LHS._random, Random.rand. by rewrite Hb. }
  cbn [In LHS.criteria] in Hc.
  destruct Hc as [<-|[<-|[<-|[<-|[]]]]]; cbn [String.eqb Ascii.eqb Bool.eqb].
  - apply Hrandom.
  - unfold LHS._centered, zeros, full. by rewrite Hb.
  - unfold LHS._max_min. by rewrite Hrandom.
  - unfold LHS._correlate. by rewrite Hrandom.
Qed.

(** A design asked for minus two samples. *)
Lemma design_negative_shape_raises_witness :
  LHS.design Fixture.flat_pdist Fixture.flat_corr
    (LHS.mk 2 (-2) [] [] "maximin" "euclidean" 100) O = Raise ValueError.
Proof.
  apply (design_negative_shape_raises Fixture.flat_pdist Fixture.flat_corr
           (LHS.mk 2 (-2) [] [] "maximin" "euclidean" 100) O);
    [left; cbn; lia|cbn; tauto].
Defined.

(** * The full-factorial design lists every combination once *)

(** The levels that row [k] of the design holds: the digits of [k] in the
    mixed radix [levels], least significant first. *)
Fixpoint digits (levels : list Z) (k : Z) : list Z :=
  match levels with
  | [] => []
  | l :: ls => k `mod` l :: digits ls (k / l)
  end.

(** A choice of one level of each factor. *)
Definition combination (levels combo : list Z) : Prop :=
  Forall2 (λ x l, 0 <= x < l) combo levels.

Lemma length_digits levels k : length (digits levels k) = length levels.
Proof.
  revert k. induction levels as [|l ls IH]; intros k; [done|].
  simpl. by rewrite IH.
Qed.

Lemma digits_lookup levels : ∀ c lc k,
  Forall (λ n, 0 < n) levels → levels !! c = Some lc → 0 <= k →
  digits levels k !! c = Some ((k / Zprod (take c levels)) `mod` lc).
Proof.
  induction levels as [|l ls IH]; intros c lc k Hpos Hc Hk;
    [by rewrite lookup_nil in Hc|].
  apply Forall_cons in Hpos as [Hl Hpos].
  destruct c as [|c]; simpl in Hc.
  - inversion Hc; subst. cbn. by rewrite Z.div_1_r.
  - change (digits (l :: ls) k !! S c) with (digits ls (k / l) !! c).
    change (Zprod (take (S c) (l :: ls))) with (l * Zprod (take c ls)).
    assert (0 < Zprod (take c ls)) by (apply Zprod_pos, Forall_take, Hpos).
    rewrite (IH c lc (k / l) Hpos Hc) by (apply Z.div_pos; lia).
    by rewrite Z.div_div by lia.
Qed.

Lemma digits_combination levels k :
  Forall (λ n, 0 < n) levels → combination levels (digits levels k).
Proof.
  intros Hpos. revert k. induction Hpos as [|l ls Hl _ IH]; intros k;
    [constructor|].
  constructor; [|apply IH]. apply Z.mod_pos_bound. lia.
Qed.

Lemma digits_inj levels : ∀ k k',
  Forall (λ n, 0 < n) levels →
  0 <= k < Zprod levels → 0 <= k' < Zprod levels →
  digits levels k = digits levels k' → k = k'.
Proof.
  induction levels as [|l ls IH]; intros k k' Hpos Hk Hk' Heq.
  - cbn in Hk, Hk'. lia.
  - apply Forall_cons in Hpos as [Hl Hpos].
    cbn [Zprod foldr] in Hk, Hk'. fold (Zprod ls) in Hk, Hk'.
    cbn [digits] in Heq. injection Heq as Hmod Hdiv.
    assert (k / l = k' / l) as Hq.
    { apply IH; [done| | |done].
      - split; [apply Z.div_pos; lia|apply Z.div_lt_upper_bound; lia].
      - split; [apply Z.div_pos; lia|apply Z.div_lt_upper_bound; lia]. }
    rewrite (Z.div_mod k l), (Z.div_mod k' l) by lia. by rewrite Hq, Hmod.
Qed.

Lemma digits_surj levels combo :
  combination levels combo →
  ∃ k, 0 <= k < Zprod levels ∧ digits levels k = combo.
Proof.
  induction 1 as [|x l combo ls Hx _ (k & Hk & IH)].
  - exists 0. cbn. split; [lia|done].
  - exists (x + l * k). cbn [Zprod foldr digits]. fold (Zprod ls).
    split; [nia|].
    rewrite Z.mul_comm, Z.mod_add, Z.div_add, Z.mod_small, Z.div_small by lia.
    by rewrite Z.add_0_l, IH.
Qed.

Lemma map_inject_Z_inj (l1 l2 : list Z) :
  map inject_Z l1 = map inject_Z l2 → l1 = l2.
Proof.
  revert l2. induction l1 as [|x l1 IH]; intros [|y l2] E; try done.
  injection E as Hxy E. f_equal; [done|by apply IH].
Qed.

Lemma fullfact_row levels ff k row :
  Forall (λ n, 0 < n) levels →
  ff_inv levels (length levels) ff →
  ff !! k = Some row → row = map inject_Z (digits levels (Z.of_nat k)).
Proof.
  intros Hpos (Hlen & Hrows & Hcols) Hrow.
  pose proof (Forall_lookup_1 _ _ _ _ Hrows Hrow) as Hlr. simpl in Hlr.
  apply list_eq. intros c.
  destruct (levels !! c) as [lc|] eqn:Hc.
  - rewrite (Hcols k c row lc) by (try done; by eapply lookup_lt_Some).
    rewrite list_lookup_fmap, (digits_lookup levels c lc) by (try done; lia).
    done.
  - apply lookup_ge_None in Hc.
    rewrite (proj2 (lookup_ge_None row c)) by lia.
    symmetry. apply lookup_ge_None. rewrite length_map, length_digits. lia.
Qed.

(** X4. On a non-empty list of positive levels [fullfact] lists every
    combination of levels exactly once: each row is a combination, each
    combination is a row, and no two rows are equal. *)
Theorem fullfact_enumerates (levels : list Z) :
  levels ≠ [] → Forall (λ n, 0 < n) levels →
  ∃ ff, Strata.fullfact levels = Ok ff ∧
    length ff = Z.to_nat (Zprod levels) ∧
    (∀ k row, ff !! k = Some row →
       ∃ combo, combination levels combo ∧ row = map inject_Z combo) ∧
    (∀ combo, combination levels combo →
       ∃ k, ff !! k = Some (map inject_Z combo)) ∧
    (∀ k k' row, ff !! k = Some row → ff !! k' = Some row → k = k').
Proof.
  intros Hne Hpos. pose proof (Zprod_pos _ Hpos) as HN.
  destruct (fullfact_spec levels Hne Hpos) as (ff & Hff & Hinv).
  pose proof Hinv as (Hlen & _ & _).
  exists ff. split; [done|]. split; [done|]. split; [|split].
  - intros k row Hrow. exists (digits levels (Z.of_nat k)).
    split; [by apply digits_combination|by eapply fullfact_row].
  - intros combo Hcombo. destruct (digits_surj _ _ Hcombo) as (k & Hk & <-).
    destruct (lookup_lt_is_Some_2 ff (Z.to_nat k)) as [row Hrow]; [lia|].
    exists (Z.to_nat k). rewrite Hrow. f_equal.
    rewrite (fullfact_row levels ff _ row Hpos Hinv Hrow).
    by rewrite Z2Nat.id by lia.
  - intros k k' row Hk Hk'.
    pose proof (fullfact_row levels ff k row Hpos Hinv Hk) as E.
    pose proof (fullfact_row levels ff k' row Hpos Hinv Hk') as E'.
    apply lookup_lt_Some in Hk, Hk'.
    assert (digits levels (Z.of_nat k) = digits levels (Z.of_nat k')) as Hd
      by (apply map_inject_Z_inj; congruence).
    apply digits_inj in Hd; [lia|done|lia..].
Qed.

(** Two factors with two and three levels. *)
Lemma fullfact_enumerates_witness :
  ∃ ff, Strata.fullfact [2; 3] = Ok ff ∧ length ff = 6%nat ∧
        ∃ k, ff !! k = Some [1; 2]%Q.
Proof.
  destruct (fullfact_enumerates [2; 3])
    as (ff & Hff & Hlen & _ & Hall & _); [done|repeat constructor|].
  exists ff. split; [done|]. split; [done|].
  apply (Hall [1; 2]). repeat constructor; lia.
Defined.

(** * Stratified samples lie in their strata *)

Lemma uniform_range {G} `{RandomSource G} (o w : Q) (g : G) :
  (0 < w)%Q →
  (o <= fst (Random.uniform o (o + w) g))%Q ∧
  (fst (Random.uniform o (o + w) g) < o + w)%Q.
Proof.
  intros Hw. unfold Random.uniform.
  pose proof (random_sample_range g) as [Hu0 Hu1].
  destruct (random_sample g) as [u g1]. cbn [fst] in *.
  assert (o + (o + w - o) * u == o + w * u)%Q as -> by ring.
  assert (0 <= w * u)%Q by (apply Qmult_le_0_compat; lra).
  assert (0 < w * (1 - u))%Q by (apply Qmult_lt_0_compat; lra).
  split; lra.
Qed.

Section Strata_cells.
Context {G : Type} `{RandomSource G} `{Float32}.
Variable self : STS.t.
Let o := Strata.origins (STS.strata self).
Let w := Strata.widths (STS.strata self).
Let rows := length o.
Let cols := match o with [] => O | r :: _ => length r end.

(** The sample of cell [(r, c)] is what single precision keeps of a
    point of the stratum of the cell. *)
Definition placed (samples : matrix) (r c : nat) : Prop :=
  ∀ orc wrc, get o r c = Ok orc → get w r c = Ok wrc → (0 < wrc)%Q →
    ∃ u, get samples r c = Ok (float32 u) ∧
         (orc <= u)%Q ∧ (u < orc + wrc)%Q.

(** The columns before [j] are filled, and the rows before [i] of
    column [j]. *)
Definition filled_to (j i : nat) (st : matrix * matrix * G) : Prop :=
  let '(samples, samples_u_to_x, _) := st in
  rows_of_length cols samples ∧ rows_of_length cols samples_u_to_x ∧
  ∀ r c, (c < j ∨ (c = j ∧ r < i))%nat → placed samples r c.

Lemma run_sts_cell invcdf j i st st' :
  filled_to j i st →
  (let '(samples, samples_u_to_x, g) := st in
   oij ← get o i j;
   wij ← get w i j;
   let '(u, g) := Random.uniform oij (oij + wij)%Q g in
   samples ← set samples i j (float32 u);
   pj ← index (STS.dist_params self) j;
   x ← Distributions.apply_item invcdf (float32 u) pj;
   samples_u_to_x ← set samples_u_to_x i j (float32 x);
   Ok (samples, samples_u_to_x, g)) = Ok st' →
  filled_to j (S i) st'.
Proof.
  destruct st as [[s x] g]. intros (Hs & Hx & Hcells) Hbody.
  apply bind_Ok in Hbody as (oij & Hoij & Hbody).
  apply bind_Ok in Hbody as (wij & Hwij & Hbody).
  pose proof (uniform_range oij wij g) as Hu.
  destruct (Random.uniform oij (oij + wij) g) as [u g1]. cbn [fst] in Hu.
  apply bind_Ok in Hbody as (s1 & Hset & Hbody).
  apply bind_Ok in Hbody as (pj & _ & Hbody).
  apply bind_Ok in Hbody as (y & _ & Hbody).
  apply bind_Ok in Hbody as (x1 & Hsetx & Hbody).
  injection Hbody as <-.
  destruct (set_spec _ _ _ _ _ _ Hs Hset)
    as (Hs1 & _ & Hrows & Hcols & Hcell).
  destruct (set_spec _ _ _ _ _ _ Hx Hsetx) as (Hx1 & _).
  split; [done|]. split; [done|].
  intros r c Hrc orc wrc Horc Hwrc Hpos.
  destruct (decide (r = i)) as [->|Hr].
  - destruct (decide (c = j)) as [->|Hc].
    + exists u. split; [done|].
      assert (orc = oij) as -> by congruence.
      assert (wrc = wij) as -> by congruence. by apply Hu.
    + rewrite Hcols by done. apply (Hcells i c); [lia|done..].
  - rewrite (get_row_eq s s1 r c) by (by apply Hrows).
    apply (Hcells r c); [lia|done..].
Qed.

Lemma run_sts_column invcdf j st st' :
  filled_to j 0 st →
  for_ (seq 0 rows) (fun i '(samples, samples_u_to_x, g) =>
      oij ← get o i j;
      wij ← get w i j;
      let '(u, g) := Random.uniform oij (oij + wij)%Q g in
      samples ← set samples i j (float32 u);
      pj ← index (STS.dist_params self) j;
      x ← Distributions.apply_item invcdf (float32 u) pj;
      samples_u_to_x ← set samples_u_to_x i j (float32 x);
      Ok (samples, samples_u_to_x, g)) st = Ok st' →
  filled_to (S j) 0 st'.
Proof.
  intros Hst Hfor.
  apply (for_range_invariant (filled_to j) _ rows) in Hfor; [|clear Hfor|lia|done].
  - destruct st' as [[s x] g]. destruct Hfor as (Hs & Hx & Hcells).
    split; [done|]. split; [done|].
    intros r c Hrc orc wrc Horc Hwrc Hpos.
    apply (Hcells r c); [|done..].
    destruct (decide (c = j)) as [->|]; [|lia]. right. split; [done|].
    apply get_Ok in Horc as (row & Hrow & _).
    by apply lookup_lt_Some in Hrow.
  - intros i st0 st1 _ Hst0 Hbody.
    exact (run_sts_cell invcdf j i st0 st1 Hst0 Hbody).
Qed.

Lemma run_sts_cells (g g' : G) samples samples_u_to_x :
  STS.run_sts self g = Ok (samples, samples_u_to_x, g') →
  ∀ r c, (c < cols)%nat → placed samples r c.
Proof.
  unfold STS.run_sts. fold o w. fold rows cols. intros Hrun.
  apply bind_Ok in Hrun as ([[s x] g1] & Hfor & Hrun).
  injection Hrun as <- <- <-.
  apply (for_range_invariant (λ j, filled_to j 0) _ cols) in Hfor;
    [|clear Hfor|lia|].
  - destruct Hfor as (_ & _ & Hcells). intros r c Hc.
    apply Hcells. by left.
  - intros j st0 st1 _ Hst0 Hbody.
    apply bind_Ok in Hbody as (invcdf & _ & Hbody).
    exact (run_sts_column invcdf j st0 st1 Hst0 Hbody).
  - split; [|split].
    + apply Forall_replicate. by rewrite length_replicate.
    + apply Forall_replicate. by rewrite length_replicate.
    + intros r c Hrc. lia.
Qed.

End Strata_cells.

(** X5. Every sample that [run_sts] returns is drawn in its stratum and
    kept in single precision: for each cell [(i, j)] of positive width
    the sample is [np.float32(u)] for a draw [u] that is at least the
    origin of the cell and less than the origin plus the width.  The
    sample itself can leave the stratum by that rounding. *)
Theorem run_sts_in_strata {G : Type} `{RandomSource G} `{Float32}
    (self : STS.t) (g g' : G) samples samples_u_to_x :
  STS.run_sts self g = Ok (samples, samples_u_to_x, g') →
  ∀ i j oij wij,
    get (Strata.origins (STS.strata self)) i j = Ok oij →
    get (Strata.widths (STS.strata self)) i j = Ok wij →
    (j < match Strata.origins (STS.strata self) with
         | [] => O | r :: _ => length r end)%nat →
    (0 < wij)%Q →
    ∃ u, get samples i j = Ok (float32 u) ∧
         (oij <= u)%Q ∧ (u < oij + wij)%Q.
Proof.
  intros Hrun i j oij wij Ho Hw Hj Hpos.
  by apply (run_sts_cells self g g' samples samples_u_to_x Hrun i j Hj).
Qed.

(** Two strata of width one half in one dimension. *)
Lemma run_sts_in_strata_witness :
  ∃ samples samples_u_to_x g',
    STS.run_sts
      (STS.mk 1 [Distributions.DStr "Uniform"] [[0; 1]%Q]
         (Strata.mk [[0]; [1 # 2]]%Q [[1 # 2]; [1 # 2]]%Q [1 # 2; 1 # 2]%Q)
         [Distributions.DFun (λ x _, Ok x)]) O
    = Ok (samples, samples_u_to_x, g') ∧
    ∃ u, get samples 1 0 = Ok (float32 u) ∧
         (1 # 2 <= u)%Q ∧ (u < (1 # 2) + (1 # 2))%Q.
Proof.
  destruct (STS.run_sts
      (STS.mk 1 [Distributions.DStr "Uniform"] [[0; 1]%Q]
         (Strata.mk [[0]; [1 # 2]]%Q [[1 # 2]; [1 # 2]]%Q [1 # 2; 1 # 2]%Q)
         [Distributions.DFun (λ x _, Ok x)]) O)
    as [[[samples x] g']|e] eqn:E; [|vm_compute in E; discriminate].
  exists samples, x, g'. split; [reflexivity|].
  apply (run_sts_in_strata _ O g' samples x E 1 0 (1 # 2) (1 # 2))%Q;
    [reflexivity|reflexivity|cbn; lia|reflexivity].
Defined.

(** * One sample in each cell of the grid *)

(** The strata that [Strata(nstrata=design)] builds: cell [k] of
    dimension [j] starts at level [(k / prod(design[:j])) mod design[j]]
    over [design[j]] and is [1 / design[j]] wide. *)
Lemma of_nstrata_cells design :
  design ≠ [] → Forall (λ n, 0 < n) design →
  ∃ s, Strata.init (Strata.of_nstrata design) = Ok s ∧
    length (Strata.origins s) = Z.to_nat (Zprod design) ∧
    rows_of_length (length design) (Strata.origins s) ∧
    ∀ k j n, (k < Z.to_nat (Zprod design))%nat → design !! j = Some n →
      get (Strata.origins s) k j =
        Ok (inject_Z ((Z.of_nat k / Zprod (take j design)) `mod` n)
            / inject_Z n)%Q ∧
      get (Strata.widths s) k j = Ok (1 / inject_Z n)%Q.
Proof.
  intros Hne Hpos. pose proof (Zprod_pos _ Hpos) as HN.
  destruct (fullfact_spec design Hne Hpos)
    as (ff & Hff & Hlen & Hrows & Hcols).
  set (nsq := map inject_Z design).
  set (wrow := zip_with Qdiv (replicate (length design) 1%Q) nsq).
  set (N := Z.to_nat (Zprod design)) in *.
  exists (Strata.mk (divide_rows ff nsq) (replicate N wrow)
            (replicate N (Qprod wrow))).
  split; [|split; [|split]].
  - unfold Strata.init, Strata.of_nstrata. cbn [Strata.nstrata].
    rewrite Hff. cbn [mbind result_bind]. rewrite ones_Ok.
    cbn [mbind result_bind]. unfold divide_rows, prod_axis1.
    rewrite length_map, Hlen. fold nsq. by rewrite !fmap_replicate.
  - cbn [Strata.origins]. unfold divide_rows. by rewrite length_map.
  - cbn [Strata.origins]. unfold divide_rows, rows_of_length.
    apply Forall_fmap. eapply Forall_impl; [exact Hrows|].
    intros row Hrow. simpl in *. rewrite length_zip_with. unfold nsq.
    rewrite length_map. lia.
  - intros k j n Hk Hj. cbn [Strata.origins Strata.widths].
    destruct (lookup_lt_is_Some_2 ff k) as [row Hrow]; [lia|].
    pose proof (Hcols k j row n ltac:(by eapply lookup_lt_Some) Hrow Hj)
      as Hrj.
    assert (nsq !! j = Some (inject_Z n)) as Hnj
      by (unfold nsq; by rewrite list_lookup_fmap, Hj).
    split.
    + unfold get, index, divide_rows. rewrite list_lookup_fmap, Hrow.
      cbn [fmap option_fmap option_map mbind result_bind].
      by rewrite (lookup_zip_with_2 _ _ _ _ _ _ Hrj Hnj).
    + unfold get, index. rewrite lookup_replicate_2 by done.
      cbn [mbind result_bind]. unfold wrow.
      erewrite lookup_zip_with_2; [done| |exact Hnj].
      apply lookup_replicate_2. by eapply lookup_lt_Some.
Qed.

(** X6. Stratified sampling with [sts_design] draws one sample in each
    cell of the grid: sample [k] is, in every dimension [j], what single
    precision keeps of a draw in the interval of level
    [(k / prod(design[:j])) mod design[j]] among the [design[j]] equal
    intervals of [0, 1). *)
Theorem sts_one_sample_per_cell {G : Type} `{RandomSource G}
    `{Distributions.Scipy} `{Float32} custom (a : STS.Args.t) design
    (g g' : G) samplesU01 samples :
  STS.Args.sts_design a = Some design →
  design ≠ [] → Forall (λ n, 0 < n) design →
  STS.new custom a g = Ok (samplesU01, samples, g') →
  ∀ k j n, (k < Z.to_nat (Zprod design))%nat → design !! j = Some n →
    ∃ u, get samplesU01 k j = Ok (float32 u) ∧
      let lev := (Z.of_nat k / Zprod (take j design)) `mod` n in
      (inject_Z lev / inject_Z n <= u)%Q ∧
      (u < inject_Z (lev + 1) / inject_Z n)%Q.
Proof.
  intros Hdesign Hne Hpos Hnew k j n Hk Hj.
  destruct (of_nstrata_cells design Hne Hpos)
    as (s & Hs & Hlen & Hrows & Hcells).
  unfold STS.new in Hnew.
  apply bind_Ok in Hnew as ([[[dim dt] dp] strata] & Hinit & Hnew).
  assert (strata = s) as ->.
  { unfold STS.init_sts in Hinit. rewrite Hdesign in Hinit.
    apply bind_Ok in Hinit as (dim0 & _ & Hinit).
    apply bind_Ok in Hinit as (dt0 & _ & Hinit).
    apply bind_Ok in Hinit as (dp0 & _ & Hinit).
    apply bind_Ok in Hinit as (dp1 & _ & Hinit).
    apply bind_Ok in Hinit as (st & Hst & Hinit).
    destruct (negb _) in Hst; [discriminate|].
    rewrite Hs in Hst. injection Hst as <-. by injection Hinit as _ _ _ <-. }
  apply bind_Ok in Hnew as (r & _ & Hnew).
  destruct r as [icdf| | |]; try discriminate.
  destruct (Hcells k j n Hk Hj) as [Ho Hw].
  assert (0 < n) as Hn by (eapply (Forall_lookup_1 _ _ _ _ Hpos Hj)).
  assert (0 < inject_Z n)%Q as Hqn
    by (change 0%Q with (inject_Z 0); by rewrite <- Zlt_Qlt).
  destruct (run_sts_cells _ g g' samplesU01 samples Hnew k j) with
    (orc := (inject_Z ((Z.of_nat k / Zprod (take j design)) `mod` n)
             / inject_Z n)%Q) (wrc := (1 / inject_Z n)%Q)
    as (u & Hu & Hlo & Hhi); [|exact Ho|exact Hw| |].
  - cbn [STS.strata].
    destruct (Strata.origins s) as [|row0 rest] eqn:Eo;
      [simpl in Hlen; lia|].
    apply Forall_cons in Hrows as [-> _]. by eapply lookup_lt_Some.
  - apply Qlt_shift_div_l; [done|]. by rewrite Qmult_0_l.
  - exists u. split; [done|]. cbn zeta. split; [done|].
    rewrite inject_Z_plus.
    assert ((inject_Z ((Z.of_nat k / Zprod (take j design)) `mod` n)
             + inject_Z 1) / inject_Z n ==
            inject_Z ((Z.of_nat k / Zprod (take j design)) `mod` n)
            / inject_Z n + 1 / inject_Z n)%Q as ->; [|done].
    field. intros E. rewrite E in Hqn. by apply Qlt_irrefl in Hqn.
Qed.

(** A two by two grid with the default distribution. *)
Lemma sts_one_sample_per_cell_witness :
  ∃ samplesU01 samples g',
    STS.new Fixture.no_custom
      (STS.Args.mk None None None (Some [2; 2]) None) O
    = Ok (samplesU01, samples, g') ∧
    ∃ u, get samplesU01 3 1 = Ok (float32 u) ∧
         (inject_Z 1 / inject_Z 2 <= u)%Q ∧ (u < inject_Z 2 / inject_Z 2)%Q.
Proof.
  destruct (STS.new Fixture.no_custom
              (STS.Args.mk None None None (Some [2; 2]) None) O)
    as [[[samplesU01 samples] g']|e] eqn:E; [|vm_compute in E; discriminate].
  exists samplesU01, samples, g'. split; [reflexivity|].
  assert (Forall (λ n, 0 < n) [2; 2]) as Hpos by (repeat constructor).
  assert (3 < Z.to_nat (Zprod [2; 2]%Z))%nat as Hk by (cbn; lia).
  exact (sts_one_sample_per_cell Fixture.no_custom
           (STS.Args.mk None None None (Some [2; 2]) None) [2; 2]
           O g' samplesU01 samples eq_refl ltac:(done) Hpos E
           3%nat 1%nat 2 Hk eq_refl).
Defined.

(** * The registry of distributions *)

Section Registry_facts.
Context `{Distributions.Scipy}.
Variable custom_dist : option (string → option Distributions.callable).
Import Distributions.

Lemma builtin_loop (params : list Q) n : ∀ acc : list Q,
  for_ (seq 0 n) (fun k acc => p ← index params k; Ok (acc ++ [p])) acc =
  if (n <=? length params)%nat then Ok (acc ++ take n params)
  else Raise IndexError.
Proof.
  induction n as [|n IH]; intros acc.
  - cbn. by rewrite app_nil_r.
  - rewrite for_seq_S, IH.
    destruct (Nat.leb_spec (S n) (length params)) as [Hn|Hn].
    + assert ((n <=? length params)%nat = true) as ->
        by (apply Nat.leb_le; lia).
      cbn [mbind result_bind Nat.add].
      destruct (lookup_lt_is_Some_2 params n Hn) as [p Hp].
      unfold index. rewrite Hp. cbn [mbind result_bind].
      by rewrite (take_S_r _ _ _ Hp), app_assoc.
    + destruct (Nat.leb_spec n (length params)) as [Hn'|Hn']; [|done].
      cbn [mbind result_bind Nat.add].
      unfold index. by rewrite (proj2 (lookup_ge_None params n)) by lia.
Qed.

(** The families and the numbers of parameters behind the seven names. *)
Definition signature (name : string) : option (family * nat) :=
  if (name =? "Uniform")%string then Some (uniform, 2%nat)
  else if (name =? "Normal")%string then Some (norm, 2%nat)
  else if (name =? "Lognormal")%string then Some (lognorm, 2%nat)
  else if (name =? "Weibull")%string then Some (weibull_min, 2%nat)
  else if (name =? "Beta")%string then Some (weibull_min, 4%nat)
  else if (name =? "Exponential")%string then Some (expon, 2%nat)
  else if (name =? "Gamma")%string then Some (gamma, 3%nat)
  else None.

Lemma signature_names name :
  existsb (String.eqb name) names = true ↔ is_Some (signature name).
Proof.
  unfold signature, names. cbn [existsb].
  repeat (destruct (_ =? _)%string; [by split; eauto|]).
  cbn. split; [done|]. by intros [? ?].
Qed.

Lemma resolve_signature m name fam n :
  signature name = Some (fam, n) → resolve custom_dist m name = Ok (builtin m fam n).
Proof.
  unfold signature, resolve.
  repeat (destruct (_ =? _)%string; [by intros [= <- <-]|]). done.
Qed.

(** The entries of the list that a registry function returns, against
    the entries it was given. *)
Definition resolved (m : method) (it it' : item) : Prop :=
  match it with
  | DStr name => ∃ f, resolve custom_dist m name = Ok f ∧ it' = DFun f
  | DFun f => it' = DFun f
  end.

Lemma registry_loop m l : ∀ acc r,
  for_ l (fun it acc =>
            match it with
            | DStr name => f ← resolve custom_dist m name; Ok (acc ++ [DFun f])
            | DFun f => Ok (acc ++ [DFun f])
            end) acc = Ok r →
  ∃ l', r = acc ++ l' ∧ Forall2 (resolved m) l l'.
Proof.
  induction l as [|it l IH]; intros acc r Hfor.
  - injection Hfor as <-. exists []. by rewrite app_nil_r.
  - cbn [for_] in Hfor. apply bind_Ok in Hfor as (acc1 & Hit & Hfor).
    destruct (IH _ _ Hfor) as (l' & -> & Hl').
    destruct it as [name|f].
    + apply bind_Ok in Hit as (f & Hf & Hit). injection Hit as <-.
      exists (DFun f :: l'). split; [by rewrite <- app_assoc|].
      constructor; [by exists f|done].
    + injection Hit as <-.
      exists (DFun f :: l'). split; [by rewrite <- app_assoc|].
      by constructor.
Qed.

Lemma registry_functions m l : ∀ acc,
  Forall (λ it, ∃ f, it = DFun f) l →
  for_ l (fun it acc =>
            match it with
            | DStr name => f ← resolve custom_dist m name; Ok (acc ++ [DFun f])
            | DFun f => Ok (acc ++ [DFun f])
            end) acc = Ok (acc ++ l).
Proof.
  induction l as [|it l IH]; intros acc Hl; [by rewrite app_nil_r|].
  apply Forall_cons in Hl as [[f ->] Hl]. cbn [for_ mbind result_bind].
  rewrite IH by done. by rewrite <- app_assoc.
Qed.

End Registry_facts.

(** X7. The distribution 'Beta' cannot be evaluated by [pdf], [cdf] or
    [inv_cdf]: its function reads four parameters and hands them to
    SciPy's [weibull_min], which takes three.  Whatever the point, the
    call raises [IndexError] on fewer than four parameters and
    [TypeError] on four or more.  The module [custom_dist] plays no
    part. *)
Theorem beta_is_never_evaluated `{Distributions.Scipy} custom m :
  ∃ f, Distributions.resolve custom m "Beta" = Ok f ∧
    ∀ x params,
      f x params =
      if (4 <=? length params)%nat then Raise TypeError
      else Raise IndexError.
Proof.
  exists (Distributions.builtin m Distributions.weibull_min 4).
  split; [reflexivity|].
  intros x params. unfold Distributions.builtin.
  rewrite builtin_loop. by destruct (4 <=? length params)%nat.
Qed.

(** X8. On a list, [pdf], [cdf] and [inv_cdf] return a list of the same
    length in which every name is replaced by its function and every
    function is kept; a list so resolved passes through each of the
    three unchanged. *)
Theorem registry_resolves_names `{Distributions.Scipy} custom m l r :
  Distributions.registry custom m (Distributions.ArgList l) = Ok r →
  ∃ l', r = Distributions.ArgList l' ∧
    length l' = length l ∧
    Forall2 (resolved custom m) l l' ∧
    ∀ m', Distributions.registry custom m' (Distributions.ArgList l')
          = Ok (Distributions.ArgList l').
Proof.
  unfold Distributions.registry. intros Hr.
  apply bind_Ok in Hr as (l' & Hfor & Hr). injection Hr as <-.
  apply registry_loop in Hfor as (l'' & -> & Hl). cbn [app].
  exists l''. split; [done|]. split; [by rewrite (Forall2_length _ _ _ Hl)|].
  split; [done|]. intros m'.
  rewrite (registry_functions custom m' l'' []); [done|].
  apply Forall_forall. intros it' Hit'.
  apply list_elem_of_lookup in Hit' as [i Hi].
  destruct (Forall2_lookup_r _ _ _ _ _ Hl Hi) as (it & _ & Hres).
  destruct it as [name|f]; [destruct Hres as (f & _ & ->)|]; eauto.
Qed.

(** A name and a function. *)
Lemma registry_resolves_names_witness :
  ∃ l', Distributions.registry Fixture.no_custom Distributions.CDF
          (Distributions.ArgList
             [Distributions.DStr "Normal"; Distributions.DFun (λ x _, Ok x)])
        = Ok (Distributions.ArgList l') ∧ length l' = 2%nat.
Proof.
  destruct (registry_resolves_names Fixture.no_custom Distributions.CDF
              [Distributions.DStr "Normal"; Distributions.DFun (λ x _, Ok x)]
              _ eq_refl) as (l' & Hr & Hlen & _).
  exists l'. split; [|exact Hlen]. by injection Hr as <-.
Defined.

(** * Without [custom_dist.py] *)

Section No_custom.
Context `{Distributions.Scipy}.
Import Distributions.

(** An entry that the [if]/[elif] chain handles: one of the seven names,
    or a function, which the loop skips. *)
Definition known (it : item) : bool :=
  match it with
  | DStr name => existsb (String.eqb name) names
  | DFun _ => true
  end.

(** The function that takes the place of a known entry. *)
Definition function_of (m : method) (it : item) : item :=
  match it with
  | DStr name =>
      match signature name with
      | Some (fam, n) => DFun (builtin m fam n)
      | None => it
      end
  | DFun f => DFun f
  end.

Lemma resolve_unknown m name :
  signature name = None → resolve None m name = Raise NotImplementedError.
Proof.
  unfold signature, resolve.
  repeat (destruct (_ =? _)%string; [discriminate|]). done.
Qed.

Lemma registry_loop_no_custom m l : ∀ acc,
  for_ l (fun it acc =>
            match it with
            | DStr name => f ← resolve None m name; Ok (acc ++ [DFun f])
            | DFun f => Ok (acc ++ [DFun f])
            end) acc =
  if forallb known l then Ok (acc ++ map (function_of m) l)
  else Raise NotImplementedError.
Proof.
  induction l as [|it l IH]; intros acc; [by cbn; rewrite app_nil_r|].
  cbn [for_ forallb map]. destruct it as [name|f]; cbn [known function_of].
  - destruct (signature name) as [[fam n]|] eqn:Hsig.
    + rewrite (proj2 (signature_names name)) by (by rewrite Hsig).
      rewrite (resolve_signature None m name fam n Hsig).
      cbn [mbind result_bind andb]. rewrite IH.
      destruct (forallb known l); [|done]. by rewrite <- app_assoc.
    + rewrite (resolve_unknown m name Hsig).
      destruct (existsb (String.eqb name) names) eqn:Hex; [|done].
      apply signature_names in Hex. rewrite Hsig in Hex.
      by destruct Hex.
  - cbn [mbind result_bind andb]. rewrite IH.
    destruct (forallb known l); [|done]. by rewrite <- app_assoc.
Qed.

End No_custom.

(** X9. Without a file [custom_dist.py], [pdf], [cdf] and [inv_cdf]
    return the list with each of the seven names replaced by its SciPy
    function when every string of the list is one of the seven names,
    and raise [NotImplementedError] otherwise. *)
Theorem registry_without_custom_module `{Distributions.Scipy} m l :
  Distributions.registry None m (Distributions.ArgList l) =
  if forallb known l
  then Ok (Distributions.ArgList (map (function_of m) l))
  else Raise NotImplementedError.
Proof.
  unfold Distributions.registry. rewrite registry_loop_no_custom.
  by destruct (forallb known l).
Qed.

(** * What the constructors validate *)

(** A distribution given by one of the seven names. *)
Definition named (it : Distributions.item) : Prop :=
  ∃ s, it = Distributions.DStr s ∧ In s Distributions.names.

Lemma recognized_named l :
  existsb Distributions.unrecognized l = false → Forall named l.
Proof.
  induction l as [|it l IH]; [constructor|]. cbn [existsb].
  intros Hl. apply orb_false_iff in Hl as [Hit Hl].
  constructor; [|by apply IH]. destruct it as [s|f]; [|discriminate].
  exists s. split; [done|]. apply existsb_eqb_In.
  by apply negb_false_iff in Hit.
Qed.

Lemma Forall_list_mul {A} (P : A → Prop) xs n :
  Forall P xs → Forall P (list_mul xs n).
Proof.
  intros Hxs. induction n as [|n IH]; [constructor|].
  cbn [list_mul]. by apply Forall_app.
Qed.

(** The block that spreads one distribution or one parameter list over
    the dimensions leaves as many distributions as parameter lists, each
    taken from the lists it was given; the two lists have [dimension]
    entries or are the ones given. *)
Lemma broadcast_dist_spec {P : Distributions.item → Prop} d t p t' p' :
  broadcast_dist d t p = Ok (t', p') →
  length t' = length p' ∧
  (Forall P t → Forall P t') ∧
  (length t' = Z.to_nat d ∨ (t' = t ∧ p' = p)).
Proof.
  unfold broadcast_dist.
  destruct (Z.eqb_spec (Z.of_nat (length t)) 1) as [Ht1|Ht1];
    destruct (Z.eqb_spec (Z.of_nat (length p)) d) as [Hpd|Hpd];
    destruct (Z.eqb_spec (Z.of_nat (length p)) 1) as [Hp1|Hp1];
    destruct (Z.eqb_spec (Z.of_nat (length t)) d) as [Htd|Htd];
    destruct (Z.eqb_spec (Z.of_nat (length t)) (Z.of_nat (length p)))
      as [Htp|Htp];
    cbn [andb negb]; try discriminate; intros [= <- <-];
    rewrite ?length_list_mul;
    (split; [lia|split; [try done; by apply Forall_list_mul|]]);
    first [right; done | left; rewrite ?length_list_mul; lia].
Qed.

(** X10. A configuration that [init_mcs] accepts keeps the number of
    samples, has only distributions among the seven names and as many
    of them as parameter lists; an omitted dimension is their number. *)
Theorem init_mcs_validated (a : MCS.Args.t) self :
  MCS.init_mcs a = Ok self →
  MCS.Args.nsamples a = Some (MCS.nsamples self) ∧
  Forall named (MCS.dist_type self) ∧
  length (MCS.dist_type self) = length (MCS.dist_params self) ∧
  (MCS.Args.dimension a = None →
   MCS.dimension self = Z.of_nat (length (MCS.dist_type self))).
Proof.
  unfold MCS.init_mcs.
  destruct (MCS.Args.nsamples a) as [n|]; [|discriminate].
  destruct (MCS.Args.dist_type a) as [t|]; [|discriminate].
  destruct (existsb _ t) eqn:Hrec; [discriminate|].
  apply recognized_named in Hrec.
  destruct (MCS.Args.dist_params a) as [p|]; [|discriminate].
  destruct (MCS.Args.dimension a) as [d|].
  - intros Hinit. apply bind_Ok in Hinit as ([t' p'] & Hb & Hinit).
    injection Hinit as <-. cbn.
    destruct (broadcast_dist_spec (P := named) _ _ _ _ _ Hb)
      as (Hlen & Hnamed & _).
    split; [done|]. split; [by apply Hnamed|]. split; [done|]. discriminate.
  - destruct (Nat.eqb_spec (length t) (length p)) as [Hlen|];
      [|discriminate].
    intros [= <-]. cbn. done.
Qed.

(** The configuration of two uniform variables. *)
Lemma init_mcs_validated_witness :
  ∃ self, MCS.init_mcs Inputs.mcs = Ok self ∧
    length (MCS.dist_type self) = length (MCS.dist_params self).
Proof.
  destruct (MCS.init_mcs Inputs.mcs) as [self|e] eqn:E;
    [|vm_compute in E; discriminate].
  exists self. split; [reflexivity|].
  by destruct (init_mcs_validated Inputs.mcs self E) as (_ & _ & Hlen & _).
Defined.

(** X11. The dimension is compared with no list that has two or more
    entries: [init_mcs] accepts two or more named distributions with as
    many parameter lists under every dimension, and keeps the
    dimension it was given. *)
Theorem init_mcs_dimension_unchecked d n t p :
  Forall named t → length t = length p → (2 <= length t)%nat →
  MCS.init_mcs (MCS.Args.mk (Some d) (Some t) (Some p) (Some n)) =
  Ok (MCS.mk d n t p).
Proof.
  intros Hnamed Hlen H2. unfold MCS.init_mcs. cbn.
  assert (existsb Distributions.unrecognized t = false) as ->.
  { apply not_true_is_false. intros Hex.
    apply existsb_exists in Hex as (it & Hit & Hun).
    apply list_elem_of_In in Hit. rewrite Forall_forall in Hnamed.
    destruct (Hnamed it Hit) as (s & -> & Hs).
    unfold Distributions.unrecognized in Hun.
    apply negb_true_iff in Hun.
    assert (existsb (String.eqb s) Distributions.names = true) as Hs'
      by (apply existsb_exists; exists s; split; [done|apply String.eqb_refl]).
    congruence. }
  unfold broadcast_dist.
  assert ((Z.of_nat (length t) =? 1) = false) as -> by (apply Z.eqb_neq; lia).
  assert ((Z.of_nat (length p) =? 1) = false) as -> by (apply Z.eqb_neq; lia).
  assert ((Z.of_nat (length t) =? Z.of_nat (length p)) = true) as ->
    by (apply Z.eqb_eq; lia).
  done.
Qed.

(** Two distributions declared as five dimensions. *)
Lemma init_mcs_dimension_unchecked_witness :
  MCS.init_mcs
    (MCS.Args.mk (Some 5)
       (Some [Distributions.DStr "Uniform"; Distributions.DStr "Normal"])
       (Some [[0; 1]; [0; 1]]%Q) (Some 10)) =
  Ok (MCS.mk 5 10 [Distributions.DStr "Uniform"; Distributions.DStr "Normal"]
        [[0; 1]; [0; 1]]%Q).
Proof.
  apply (init_mcs_dimension_unchecked 5 10);
    [|reflexivity|cbn; lia].
  repeat constructor; eexists; (split; [reflexivity|cbn; tauto]).
Defined.

(** X12. A configuration that [init_lhs] accepts has one of the four
    criteria, one of the twenty metrics, a number of iterations that is
    not zero, and as many distributions as parameter lists. *)
Theorem init_lhs_validated (a : LHS.Args.t) self :
  LHS.init_lhs a = Ok self →
  LHS.Args.nsamples a = Some (LHS.nsamples self) ∧
  In (LHS.lhs_criterion self) LHS.criteria ∧
  In (LHS.lhs_metric self) LHS.metrics ∧
  LHS.lhs_iter self ≠ 0 ∧
  length (LHS.dist_type self) = length (LHS.dist_params self).
Proof.
  unfold LHS.init_lhs.
  destruct (LHS.Args.nsamples a) as [n|]; [|discriminate].
  destruct (LHS.Args.dist_type a) as [t|]; [|discriminate].
  destruct (LHS.Args.dist_params a) as [p|]; [|discriminate].
  intros Hinit.
  apply bind_Ok in Hinit as ([[d t'] p'] & Hdim & Hinit).
  apply bind_Ok in Hinit as (c & Hc & Hinit).
  apply bind_Ok in Hinit as (mt & Hmt & Hinit).
  injection Hinit as <-.
  cbn [LHS.nsamples LHS.lhs_criterion LHS.lhs_metric LHS.lhs_iter
       LHS.dist_type LHS.dist_params].
  split; [done|]. split; [|split; [|split]].
  - destruct (LHS.Args.lhs_criterion a) as [c0|].
    + destruct (existsb _ LHS.criteria) eqn:Hex; [|discriminate].
      injection Hc as <-. by apply existsb_eqb_In.
    + injection Hc as <-. cbn. tauto.
  - destruct (LHS.Args.lhs_metric a) as [m0|].
    + destruct (existsb _ LHS.metrics) eqn:Hex; [|discriminate].
      injection Hmt as <-. by apply existsb_eqb_In.
    + injection Hmt as <-. cbn. tauto.
  - destruct (LHS.Args.lhs_iter a) as [it|]; [|done].
    destruct (Z.eqb_spec it 0); [done|done].
  - destruct (LHS.Args.dimension a) as [d0|].
    + apply bind_Ok in Hdim as ([t1 p1] & Hb & Hdim).
      injection Hdim as _ <- <-.
      by destruct (broadcast_dist_spec (P := λ _, True) _ _ _ _ _ Hb)
        as (Hlen & _).
    + destruct (Nat.eqb_spec (length t) (length p)) as [Hlen|];
        [|discriminate].
      by injection Hdim as _ <- <-.
Qed.

(** The configuration of three samples in two dimensions. *)
Lemma init_lhs_validated_witness :
  ∃ self, LHS.init_lhs (Inputs.lhs "random") = Ok self ∧
          In (LHS.lhs_criterion self) LHS.criteria.
Proof.
  destruct (LHS.init_lhs (Inputs.lhs "random")) as [self|e] eqn:E;
    [|vm_compute in E; discriminate].
  exists self. split; [reflexivity|].
  by destruct (init_lhs_validated _ self E) as (_ & Hc & _).
Defined.

Lemma forallb_Qeq_all c (cs : list Q) x :
  forallb (Qeq_bool c) cs = true → x ∈ c :: cs → (x == c)%Q.
Proof.
  intros Hall Hx. apply elem_of_cons in Hx as [->|Hx]; [reflexivity|].
  apply list_elem_of_lookup in Hx as [i Hi].
  pose proof (forallb_lookup _ _ _ _ Hall Hi) as Hc.
  symmetry. by apply Qeq_bool_iff.
Qed.

Section Sample_check.
Context `{Float64}.

(** The pass of the inner loop of [sample_check] for one strata count
    keeps what was stored and stores one entry for each block size. *)
Lemma sample_check_row s design : ∀ acc r,
  for_ design (fun d acc =>
      v ← PSS.int_pow s d;
      x ← PSS.stored v;
      Ok (acc ++ [x])) acc = Ok r →
  (∀ y, y ∈ acc → y ∈ r) ∧
  ∀ d, d ∈ design →
    ∃ v x, PSS.int_pow s d = Ok v ∧ PSS.stored v = Ok x ∧ x ∈ r.
Proof.
  induction design as [|d0 design IH]; intros acc r Hfor.
  - injection Hfor as <-. split; [done|]. intros d Hd. by inversion Hd.
  - cbn [for_] in Hfor. apply bind_Ok in Hfor as (acc1 & Hd0 & Hfor).
    apply bind_Ok in Hd0 as (v & Hv & Hd0).
    apply bind_Ok in Hd0 as (x & Hx & Hd0). injection Hd0 as <-.
    destruct (IH _ _ Hfor) as (Hkeep & Hall). split.
    + intros y Hy. apply Hkeep, elem_of_app. by left.
    + intros d Hd. apply elem_of_cons in Hd as [->|Hd]; [|by apply Hall].
      exists v, x. split; [done|]. split; [done|].
      apply Hkeep, elem_of_app. right. by apply list_elem_of_singleton.
Qed.

Lemma sample_check_rows design strata : ∀ acc r,
  for_ strata (fun s acc =>
      for_ design (fun d acc =>
          v ← PSS.int_pow s d;
          x ← PSS.stored v;
          Ok (acc ++ [x])) acc) acc = Ok r →
  (∀ y, y ∈ acc → y ∈ r) ∧
  ∀ s d, s ∈ strata → d ∈ design →
    ∃ v x, PSS.int_pow s d = Ok v ∧ PSS.stored v = Ok x ∧ x ∈ r.
Proof.
  induction strata as [|s0 strata IH]; intros acc r Hfor.
  - injection Hfor as <-. split; [done|]. intros s d Hs. by inversion Hs.
  - cbn [for_] in Hfor. apply bind_Ok in Hfor as (acc1 & Hrow & Hfor).
    destruct (sample_check_row _ _ _ _ Hrow) as (Hkeep0 & Hrow0).
    destruct (IH _ _ Hfor) as (Hkeep & Hall). split.
    + intros y Hy. by apply Hkeep, Hkeep0.
    + intros s d Hs Hd.
      apply elem_of_cons in Hs as [->|Hs]; [|by apply Hall].
      destruct (Hrow0 d Hd) as (v & x & Hv & Hx & Hin).
      exists v, x. split; [done|]. split; [done|]. by apply Hkeep.
Qed.

Lemma sample_check_elem strata design check s d :
  PSS.sample_check strata design = Ok check →
  s ∈ strata → d ∈ design →
  ∃ v x, PSS.int_pow s d = Ok v ∧ PSS.stored v = Ok x ∧ x ∈ check.
Proof.
  intros Hcheck Hs Hd. unfold PSS.sample_check in Hcheck.
  destruct (sample_check_rows _ _ _ _ Hcheck) as (_ & Hall).
  by apply Hall.
Qed.

End Sample_check.

(** X13. A configuration that [init_pss] accepts has as many blocks as
    strata counts and at least one, a dimension that is the sum of the
    block sizes, only distributions among the seven names and as many of
    them as parameter lists; its number of samples is the first strata
    count raised to the first block size.  The check of the counts
    compares doubles: every strata count raised to every block size is,
    once stored as a double, equal to the first of them; with no
    negative block size the number of samples is an int [n] and each
    power [s ** d] rounds to the double of [n], which makes the powers
    equal only as far as doubles tell integers apart. *)
Theorem init_pss_validated `{Float64} (a : PSS.Args.t) self :
  PSS.init_pss a = Ok self →
  length (PSS.pss_design self) = length (PSS.pss_strata self) ∧
  PSS.pss_design self ≠ [] ∧
  PSS.dimension self = foldr Z.add 0 (PSS.pss_design self) ∧
  Forall named (PSS.dist_type self) ∧
  length (PSS.dist_type self) = length (PSS.dist_params self) ∧
  (∃ s0 d0, PSS.pss_strata self !! 0%nat = Some s0 ∧
            PSS.pss_design self !! 0%nat = Some d0 ∧
            PSS.int_pow s0 d0 = Ok (PSS.nsamples self)) ∧
  (∃ c, PSS.stored (PSS.nsamples self) = Ok c ∧
     ∀ s d, s ∈ PSS.pss_strata self → d ∈ PSS.pss_design self →
       ∃ v x, PSS.int_pow s d = Ok v ∧ PSS.stored v = Ok x ∧
              (x == c)%Q) ∧
  (Forall (λ d, 0 <= d) (PSS.pss_design self) →
   ∃ n, PSS.nsamples self = PSS.Int n ∧
     ∀ s d, s ∈ PSS.pss_strata self → d ∈ PSS.pss_design self →
       (float64 (inject_Z (s ^ d)) == float64 (inject_Z n))%Q).
Proof.
  unfold PSS.init_pss.
  destruct (PSS.Args.dist_type a) as [t|]; [|discriminate].
  destruct (existsb _ t) eqn:Hrec; [discriminate|].
  apply recognized_named in Hrec.
  destruct (PSS.Args.dist_params a) as [p|]; [|discriminate].
  destruct (PSS.Args.pss_design a) as [design|]; [|discriminate].
  destruct (PSS.Args.pss_strata a) as [strata|]; [|discriminate].
  destruct (Nat.eqb_spec (length design) (length strata)) as [Hlen|];
    [|discriminate]. cbn [negb].
  intros Hinit.
  apply bind_Ok in Hinit as (check & Hcheck & Hinit).
  destruct check as [|c cs]; [discriminate|].
  destruct (forallb (Qeq_bool c) cs) eqn:Hall; [|discriminate].
  cbn [negb] in Hinit.
  apply bind_Ok in Hinit as (d & Hd & Hinit).
  apply bind_Ok in Hinit as ([t' p'] & Hb & Hinit).
  apply bind_Ok in Hinit as (s0 & Hs0 & Hinit).
  apply bind_Ok in Hinit as (d0 & Hd0 & Hinit).
  apply bind_Ok in Hinit as (n & Hn & Hinit).
  injection Hinit as <-.
  cbn [PSS.pss_design PSS.pss_strata PSS.dimension PSS.dist_type
       PSS.dist_params PSS.nsamples].
  apply index_Ok in Hs0, Hd0.
  destruct (broadcast_dist_spec (P := named) _ _ _ _ _ Hb)
    as (Hlen' & Hnamed & _).
  assert (∀ s dd, s ∈ strata → dd ∈ design →
            ∃ v x, PSS.int_pow s dd = Ok v ∧ PSS.stored v = Ok x ∧
                   (x == c)%Q) as Hequal.
  { intros s dd Hs Hdd.
    destruct (sample_check_elem _ _ _ s dd Hcheck Hs Hdd)
      as (v & x & Hv & Hx & Hin).
    exists v, x. split; [done|]. split; [done|].
    by eapply forallb_Qeq_all. }
  destruct (Hequal s0 d0) as (v0 & x0 & Hv0 & Hx0 & Hx0c);
    [by eapply list_elem_of_lookup_2..|].
  assert (v0 = n) as -> by congruence.
  split; [done|]. split; [by intros ->|]. split; [|split; [|split]].
  - destruct (PSS.Args.dimension a) as [d1|]; [|by injection Hd as <-].
    destruct (Z.eqb_spec d1 (foldr Z.add 0 design)); [|discriminate].
    injection Hd as <-. done.
  - by apply Hnamed.
  - done.
  - split; [by exists s0, d0|]. split.
    + exists x0. split; [done|]. intros s dd Hs Hdd.
      destruct (Hequal s dd Hs Hdd) as (v & x & Hv & Hx & Hxc).
      exists v, x. split; [done|]. split; [done|]. by rewrite Hxc, Hx0c.
    + intros Hpos.
      assert (∀ s dd, dd ∈ design →
                PSS.int_pow s dd = Ok (PSS.Int (s ^ dd))) as Hpow.
      { intros s dd Hdd. unfold PSS.int_pow.
        rewrite Forall_forall in Hpos.
        by rewrite (proj2 (Z.ltb_ge dd 0)) by (by apply Hpos). }
      assert (∀ m x, PSS.stored (PSS.Int m) = Ok x →
                x = float64 (inject_Z m)) as Hstored.
      { intros m x. cbn [PSS.stored]. unfold to_double.
        destruct (_ <=? _); [discriminate|]. by intros [= <-]. }
      rewrite (Hpow s0 d0) in Hn by (by eapply list_elem_of_lookup_2).
      injection Hn as <-. exists (s0 ^ d0). split; [done|].
      apply Hstored in Hx0. subst x0.
      intros s dd Hs Hdd.
      destruct (Hequal s dd Hs Hdd) as (v & x & Hv & Hx & Hxc).
      rewrite (Hpow s dd Hdd) in Hv. injection Hv as <-.
      apply Hstored in Hx. subst x. by rewrite Hxc, Hx0c.
Qed.

(** The design of two blocks of one dimension each. *)
Lemma init_pss_validated_witness :
  ∃ self, PSS.init_pss Inputs.pss = Ok self ∧
    PSS.dimension self = foldr Z.add 0 (PSS.pss_design self) ∧
    PSS.nsamples self = PSS.Int 4.
Proof.
  destruct (PSS.init_pss Inputs.pss) as [self|e] eqn:E;
    [|vm_compute in E; discriminate].
  exists self. split; [reflexivity|].
  destruct (init_pss_validated _ self E) as (_ & _ & Hd & _).
  split; [exact Hd|].
  rewrite init_pss_scenario in E. by injection E as <-.
Defined.

(** * What [run_mcmc] returns of the chain *)





Section Chain_length.
Context {G : Type} `{RandomSource G}.
Variable self : MCMC.t.





End Chain_length.



(** * The proposal window of MMH *)

(** X15. The 'Uniform' proposal of MMH for coordinate [j] draws its
    candidate, an array of one entry, within half the scale of the
    current value: [x - scale / 2 <= candidate < x + scale / 2] for a
    positive scale. *)
Theorem mmh_uniform_candidate_in_window
    {G : Type} `{RandomSource G} (self : MCMC.t) j x scale (g g' : G) c :
  MCMC.pdf_proposal_type self !! j = Some "Uniform" →
  MCMC.pdf_proposal_scale self !! j = Some scale →
  (0 < scale)%Q →
  MCMC.mmh_candidate self j x g = Ok (c, g') →
  ∃ cand, c = Some (MCMC.Array1 cand) ∧
    (x - scale / 2 <= cand)%Q ∧ (cand < x + scale / 2)%Q.
Proof.
  intros Ht Hs Hpos. unfold MCMC.mmh_candidate, index. rewrite Ht, Hs.
  cbn [mbind result_bind String.eqb Ascii.eqb Bool.eqb].
  unfold Random.uniform.
  pose proof (random_sample_range g) as [Hu0 Hu1].
  destruct (random_sample g) as [u g1]. cbn [fst] in *.
  intros [= <- <-]. eexists. split; [done|].
  set (h := (scale / 2)%Q).
  assert (0 < h)%Q as Hh by (unfold h; apply Qlt_shift_div_l; lra).
  assert (x - h + (x + h - (x - h)) * u == x - h + (h + h) * u)%Q as ->
    by ring.
  assert (0 <= (h + h) * u)%Q by (apply Qmult_le_0_compat; lra).
  assert (0 < (h + h) * (1 - u))%Q by (apply Qmult_lt_0_compat; lra).
  split; lra.
Qed.

(** A window of width one around one half. *)
Lemma mmh_uniform_candidate_in_window_witness :
  ∃ cand, ((1 # 2) - 1 / 2 <= cand)%Q ∧ (cand < (1 # 2) + 1 / 2)%Q.
Proof.
  set (self := MCMC.mk 2 ["Uniform"; "Uniform"] [1%Q; 1%Q] "marginal_pdf"
                 [] [] "MMH" 1 3 (MCMC.Vec [0%Q; 0%Q]) 0).
  destruct (MCMC.mmh_candidate self 1 (1 # 2)%Q O) as [[c g']|e] eqn:E;
    [|vm_compute in E; discriminate].
  destruct (mmh_uniform_candidate_in_window self 1 (1 # 2)%Q 1%Q O g' c
              eq_refl eq_refl eq_refl E) as (cand & _ & Hlo & Hhi).
  by exists cand.
Defined.

(** * The ensemble sampler without thinning *)




Section Ensemble_length.
Context {G : Type} `{RandomSource G}.
Variable self : MCMC.t.


End Ensemble_length.



(** * What [init_mcmc] leaves *)

(** X17. A configuration that [init_mcmc] accepts keeps [nsamples], has
    dimension 1, jump 1 and no burn-in where they were omitted, one
    proposal type among 'Uniform' and 'Normal' and one proposal scale
    for each dimension, a target type among 'joint_pdf' and
    'marginal_pdf', and one of the three algorithms. *)
Theorem init_mcmc_guarantees `{Distributions.Scipy} custom mvn
    (a : MCMC.Args.t) self :
  MCMC.init_mcmc custom mvn a = Ok self →
  MCMC.Args.nsamples a = Some (MCMC.nsamples self) ∧
  MCMC.dimension self = default 1 (MCMC.Args.dimension a) ∧
  MCMC.jump self = default 1 (MCMC.Args.jump a) ∧
  MCMC.nburn self = default 0 (MCMC.Args.nburn a) ∧
  Forall (λ s, s = "Uniform" ∨ s = "Normal") (MCMC.pdf_proposal_type self) ∧
  length (MCMC.pdf_proposal_type self) = Z.to_nat (MCMC.dimension self) ∧
  length (MCMC.pdf_proposal_scale self) = Z.to_nat (MCMC.dimension self) ∧
  (MCMC.pdf_target_type self = "joint_pdf" ∨
   MCMC.pdf_target_type self = "marginal_pdf") ∧
  (MCMC.algorithm self = "MH" ∨ MCMC.algorithm self = "MMH" ∨
   MCMC.algorithm self = "Stretch").
Proof.
  intros Hinit.
  destruct (init_mcmc_validated custom mvn a self Hinit)
    as [Htl Hsl Htt Halg _].
  unfold MCMC.init_mcmc in Hinit.
  apply bind_Ok in Hinit as (n & Hn & Hinit).
  apply bind_Ok in Hinit as (sd & _ & Hinit).
  apply bind_Ok in Hinit as (? & _ & Hinit).
  apply bind_Ok in Hinit as (? & Hnames & Hinit).
  apply bind_Ok in Hinit as (types & Htypes & Hinit).
  apply bind_Ok in Hinit as (scales & _ & Hinit).
  apply bind_Ok in Hinit as (ttype & _ & Hinit).
  apply bind_Ok in Hinit as (alg & _ & Hinit).
  apply bind_Ok in Hinit as (tgt & _ & Hinit).
  injection Hinit as <-.
  cbn [MCMC.nsamples MCMC.dimension MCMC.jump MCMC.nburn
       MCMC.pdf_proposal_type MCMC.pdf_proposal_scale
       MCMC.pdf_target_type MCMC.algorithm] in *.
  split; [by destruct (MCMC.Args.nsamples a); inversion Hn|].
  do 3 (split; [done|]). split; [|done].
  set (types0 := match MCMC.Args.pdf_proposal_type a with
                 | Some x => MCMC.one_or_list_to_list x
                 | None => ["Uniform"]
                 end) in *.
  assert (Forall (λ s, s = "Uniform" ∨ s = "Normal") types0) as Hall.
  { destruct (existsb _ types0) eqn:Hex in Hnames; [discriminate|].
    apply Forall_forall. intros s Hs.
    assert (existsb (String.eqb s) ["Uniform"; "Normal"] = true) as Hin.
    { apply not_false_iff_true. intros Hf.
      assert (existsb (λ i, negb (existsb (String.eqb i)
                                     ["Uniform"; "Normal"])) types0 = true)
        as Ht; [|congruence].
      apply existsb_exists. exists s.
      split; [by apply list_elem_of_In|by rewrite Hf]. }
    apply existsb_eqb_In in Hin. cbn in Hin. intuition (subst; auto). }
  destruct (_ && _) in Htypes; [discriminate|].
  unfold MCMC.broadcast in Htypes. destruct (negb _) in Htypes.
  - destruct (_ =? _)%nat in Htypes; [|discriminate].
    injection Htypes as <-. by apply Forall_list_mul.
  - by injection Htypes as <-.
Qed.

(** The MMH configuration with every option but the dimension and the
    number of samples omitted. *)
Lemma init_mcmc_guarantees_witness :
  ∃ self,
    MCMC.init_mcmc Fixture.no_custom Fixture.flat_mvn
      (Inputs.mmh "marginal_pdf" 0) = Ok self ∧
    MCMC.jump self = 1 ∧
    length (MCMC.pdf_proposal_type self) = Z.to_nat (MCMC.dimension self).
Proof.
  destruct (MCMC.init_mcmc Fixture.no_custom Fixture.flat_mvn
              (Inputs.mmh "marginal_pdf" 0)) as [self|e] eqn:E;
    [|vm_compute in E; discriminate].
  exists self. split; [reflexivity|].
  destruct (init_mcmc_guarantees Fixture.no_custom Fixture.flat_mvn
              (Inputs.mmh "marginal_pdf" 0) self E)
    as (_ & _ & Hjump & _ & _ & Hlen & _).
  split; [exact Hjump|exact Hlen].
Defined.

(** * Stratified sampling with the default distribution *)

Lemma set_Ok d (m : matrix) i j x :
  rows_of_length d m → (i < length m)%nat → (j < d)%nat →
  ∃ m', set m i j x = Ok m' ∧ rows_of_length d m' ∧ length m' = length m.
Proof.
  intros Hm Hi Hj. destruct (lookup_lt_is_Some_2 m i Hi) as [row Hrow].
  pose proof (Forall_lookup_1 _ _ _ _ Hm Hrow) as Hlen. simpl in Hlen.
  unfold set, index. rewrite Hrow. cbn [mbind result_bind].
  rewrite (proj2 (Nat.ltb_lt j (length row))) by lia.
  eexists. split; [done|]. split; [|by rewrite length_insert].
  apply Forall_insert; [done|]. by rewrite length_insert.
Qed.

Section Run_returns.
Context {G : Type} `{RandomSource G} `{Float32}.
Variable self : STS.t.
Let o := Strata.origins (STS.strata self).
Let w := Strata.widths (STS.strata self).
Let rows := length o.
Let cols := match o with [] => O | r :: _ => length r end.
Hypothesis Hcell : ∀ i j, (i < rows)%nat → (j < cols)%nat →
  ∃ oij wij, get o i j = Ok oij ∧ get w i j = Ok wij.
Hypothesis Hcall : ∀ j, (j < cols)%nat →
  ∃ f pj, STS.icdf self !! j = Some f ∧
          STS.dist_params self !! j = Some pj ∧
          ∀ u, is_ok (Distributions.apply_item f u pj) = true.

(** Both arrays keep the shape of the origins. *)
Definition sized (st : matrix * matrix * G) : Prop :=
  let '(samples, samples_u_to_x, _) := st in
  (rows_of_length cols samples ∧ length samples = rows) ∧
  (rows_of_length cols samples_u_to_x ∧ length samples_u_to_x = rows).

Lemma run_sts_cell_returns f pj j i st :
  (j < cols)%nat → (i < rows)%nat →
  STS.dist_params self !! j = Some pj →
  (∀ u, is_ok (Distributions.apply_item f u pj) = true) →
  sized st →
  ∃ st',
    (let '(samples, samples_u_to_x, g) := st in
     oij ← get o i j;
     wij ← get w i j;
     let '(u, g) := Random.uniform oij (oij + wij)%Q g in
     samples ← set samples i j (float32 u);
     pj ← index (STS.dist_params self) j;
     x ← Distributions.apply_item f (float32 u) pj;
     samples_u_to_x ← set samples_u_to_x i j (float32 x);
     Ok (samples, samples_u_to_x, g)) = Ok st' ∧ sized st'.
Proof.
  intros Hj Hi Hpj Hf. destruct st as [[s x] g].
  intros [[Hs Hls] [Hx Hlx]].
  destruct (Hcell i j Hi Hj) as (oij & wij & -> & ->).
  cbn [mbind result_bind].
  destruct (Random.uniform oij (oij + wij) g) as [u g1].
  destruct (set_Ok cols s i j (float32 u) Hs ltac:(lia) Hj)
    as (s1 & -> & Hs1 & Hls1).
  cbn [mbind result_bind]. rewrite (proj2 (index_Ok _ _ _) Hpj).
  cbn [mbind result_bind]. specialize (Hf (float32 u)).
  destruct (Distributions.apply_item f (float32 u) pj) as [y|];
    [|discriminate].
  cbn [mbind result_bind].
  destruct (set_Ok cols x i j (float32 y) Hx ltac:(lia) Hj)
    as (x1 & -> & Hx1 & Hlx1).
  cbn [mbind result_bind]. eexists. split; [done|].
  split; split; [done|lia|done|lia].
Qed.

Lemma run_sts_returns (g : G) :
  ∃ samples samples_u_to_x g',
    STS.run_sts self g = Ok (samples, samples_u_to_x, g') ∧
    length samples = rows ∧ rows_of_length cols samples.
Proof.
  unfold STS.run_sts. fold o w. fold rows cols.
  destruct (for_range_total sized
              (λ j s,
                 invcdf ← index (STS.icdf self) j;
                 for_ (seq 0 rows) (λ i '(samples, samples_u_to_x, g),
                   oij ← get o i j;
                   wij ← get w i j;
                   let '(u, g) := Random.uniform oij (oij + wij)%Q g in
                   samples ← set samples i j (float32 u);
                   pj ← index (STS.dist_params self) j;
                   x ← Distributions.apply_item invcdf (float32 u) pj;
                   samples_u_to_x ← set samples_u_to_x i j (float32 x);
                   Ok (samples, samples_u_to_x, g)) s)
              cols) with (k := cols)
      (s := (replicate rows (replicate cols 0%Q),
             replicate rows (replicate cols 0%Q), g))
    as ([[s x] g'] & -> & [[Hs Hls] _]); [|lia| |].
  - intros j st Hj Hst.
    destruct (Hcall j Hj) as (f & pj & Hf & Hpj & Hcallf).
    cbv beta. rewrite (proj2 (index_Ok _ _ _) Hf). cbn [mbind result_bind].
    apply (for_range_total sized _ rows); [|lia|done].
    intros i st0 Hi Hst0.
    by apply (run_sts_cell_returns f pj).
  - split; split; try (by rewrite length_replicate);
      apply Forall_replicate; by rewrite length_replicate.
  - cbn [mbind result_bind]. by exists s, x, g'.
Qed.

End Run_returns.

Section Default.
Context `{Distributions.Scipy}.
Variable custom : option (string → option Distributions.callable).
Import Distributions.

Lemma registry_uniform m n : ∀ acc,
  for_ (replicate n (DStr "Uniform"))
       (fun it acc =>
          match it with
          | DStr name => f ← resolve custom m name; Ok (acc ++ [DFun f])
          | DFun f => Ok (acc ++ [DFun f])
          end) acc =
  Ok (acc ++ replicate n (DFun (builtin m uniform 2))).
Proof.
  induction n as [|n IH]; intros acc; [by cbn; rewrite app_nil_r|].
  cbn [replicate for_].
  rewrite (resolve_signature custom m "Uniform" uniform 2 eq_refl).
  cbn [mbind result_bind]. rewrite IH. by rewrite <- app_assoc.
Qed.

Lemma forallb_is_uniform n :
  forallb STS.is_uniform (replicate n (DStr "Uniform")) = true.
Proof. induction n as [|n IH]; [done|]. cbn. exact IH. Qed.

(** What [init_sts] makes of a design alone: the default distribution
    and its parameters, once for each dimension. *)
Lemma init_sts_default design s :
  design ≠ [] →
  Strata.init (Strata.of_nstrata design) = Ok s →
  STS.init_sts (STS.Args.mk None None None (Some design) None) =
  Ok (Z.of_nat (length design),
      replicate (length design) (DStr "Uniform"),
      replicate (length design) [0; 1]%Q, s).
Proof.
  intros Hne Hs. unfold STS.init_sts.
  cbn [STS.Args.dimension STS.Args.sts_design STS.Args.dist_type
       STS.Args.dist_params STS.Args.input_file mbind result_bind].
  set (n := length design).
  assert (1 <= n)%nat as Hn by (destruct design; [done|cbn; lia]).
  assert ((if negb (Z.of_nat (length [DStr "Uniform"]) =? Z.of_nat n)
           then if (length [DStr "Uniform"] =? 1)%nat
                then Ok (list_mul [DStr "Uniform"] (Z.to_nat (Z.of_nat n)))
                else Raise NotImplementedError
           else Ok [DStr "Uniform"]) = Ok (replicate n (DStr "Uniform")))
    as ->.
  { destruct (Z.eqb_spec (Z.of_nat (length [DStr "Uniform"])) (Z.of_nat n))
      as [E|E]; cbn [negb].
    - cbn in E. by replace n with 1%nat by lia.
    - cbn [length Nat.eqb]. by rewrite list_mul_singleton, Nat2Z.id. }
  cbn [mbind result_bind]. rewrite forallb_is_uniform.
  assert (match replicate n (DStr "Uniform") with
          | [] => []
          | _ :: _ => [[0; 1]%Q]
          end = [[0; 1]%Q]) as -> by (destruct n; [lia|done]).
  cbn [mbind result_bind].
  assert ((if negb (Z.of_nat (length [[0; 1]%Q]) =? Z.of_nat n)
           then match replicate n (DStr "Uniform") with
                | [] => Ok []
                | _ :: _ =>
                    if (length [[0; 1]%Q] =? 1)%nat
                    then Ok (list_mul [[0; 1]%Q] (Z.to_nat (Z.of_nat n)))
                    else Raise NotImplementedError
                end
           else Ok [[0; 1]%Q]) = Ok (replicate n [0; 1]%Q)) as ->.
  { destruct (Z.eqb_spec (Z.of_nat (length [[0; 1]%Q])) (Z.of_nat n))
      as [E|E]; cbn [negb].
    - cbn in E. by replace n with 1%nat by lia.
    - destruct n; [lia|]. cbn [replicate length Nat.eqb].
      by rewrite list_mul_singleton, Nat2Z.id. }
  cbn [mbind result_bind]. rewrite Z.eqb_refl. cbn [negb].
  by rewrite Hs.
Qed.

End Default.

(** X18. Stratified sampling from a design alone (a non-empty list of
    positive strata counts) raises nothing: it draws one point for each
    of the [prod(sts_design)] strata, each with one coordinate for each
    dimension, under the default distribution 'Uniform' on [0, 1]. *)
Theorem sts_default_returns {G : Type} `{RandomSource G}
    `{Distributions.Scipy} `{Float32} custom design (g : G) :
  design ≠ [] → Forall (λ n, 0 < n) design →
  ∃ samplesU01 samples g',
    STS.new custom (STS.Args.mk None None None (Some design) None) g
    = Ok (samplesU01, samples, g') ∧
    length samplesU01 = Z.to_nat (Zprod design) ∧
    Forall (λ row, length row = length design) samplesU01.
Proof.
  intros Hne Hpos.
  destruct (of_nstrata_cells design Hne Hpos)
    as (s & Hs & Hlen & Hrows & Hcells).
  pose proof (Zprod_pos _ Hpos) as HN.
  assert (match Strata.origins s with [] => O | r :: _ => length r end
          = length design) as Hcols.
  { destruct (Strata.origins s) as [|row0 rest] eqn:Eo;
      [simpl in Hlen; lia|]. by apply Forall_cons in Hrows as [-> _]. }
  unfold STS.new. rewrite (init_sts_default design s Hne Hs).
  cbn [mbind result_bind]. unfold call.
  cbn [bound_by Distributions.params length Nat.leb andb forallb drop].
  unfold Distributions.inv_cdf, Distributions.registry.
  rewrite registry_uniform. cbn [mbind result_bind app].
  set (self := STS.mk _ _ _ _ _).
  destruct (run_sts_returns self) with (g := g)
    as (u01 & x & g' & Hrun & Hl & Hr).
  - intros i j Hi Hj. cbn [self STS.strata] in *. rewrite Hcols in Hj.
    destruct (lookup_lt_is_Some_2 design j Hj) as [n Hn].
    destruct (Hcells i j n ltac:(lia) Hn) as [-> ->]. eauto.
  - intros j Hj. cbn [self STS.strata STS.icdf STS.dist_params] in *.
    rewrite Hcols in Hj. eexists _, _.
    split; [by apply lookup_replicate_2|].
    split; [by apply lookup_replicate_2|]. intros u. done.
  - exists u01, x, g'. split; [exact Hrun|].
    cbn [self STS.strata] in *. rewrite Hcols in Hr. split; [lia|done].
Qed.

(** A three by two grid. *)
Lemma sts_default_returns_witness :
  ∃ samplesU01 samples g',
    STS.new Fixture.no_custom
      (STS.Args.mk None None None (Some [3; 2]) None) O
    = Ok (samplesU01, samples, g') ∧ length samplesU01 = 6%nat.
Proof.
  destruct (sts_default_returns Fixture.no_custom [3; 2] O)
    as (u01 & x & g' & Hnew & Hlen & _); [done|repeat constructor|].
  by exists u01, x, g'.
Defined.

(** * The stretch factor *)




(** * The centred design *)

Section Centres.
Context {G : Type} `{RandomSource G}.
Variable self : LHS.t.
Let N := LHS.nsamples self.
Let n := Z.to_nat N.
Let d := Z.to_nat (LHS.dimension self).
Variables a b : vector.
Hypothesis Hla : length a = n.
Hypothesis Hlb : length b = n.
Hypothesis Ha : ∀ r, (r < n)%nat →
  a !! r = Some (inject_Z (Z.of_nat r) / inject_Z N)%Q.
Hypothesis Hb : ∀ r, (r < n)%nat →
  b !! r = Some (inject_Z (Z.of_nat (1 + r)) / inject_Z N)%Q.

(** The midpoint of one of the bins. *)
Definition centre (v : Q) : Prop :=
  ∃ k, (k < n)%nat ∧
    v = ((inject_Z (Z.of_nat k) / inject_Z N
          + inject_Z (Z.of_nat (1 + k)) / inject_Z N) / 2)%Q.

(** The columns before [i] hold midpoints only. *)
Definition centred (i : nat) (st : matrix * G) : Prop :=
  length (fst st) = n ∧
  ∀ c r v, (c < i)%nat → get (fst st) r c = Ok v → centre v.

Lemma _centered_centres (g g' : G) samples :
  LHS._centered self a b g = Ok (samples, g') →
  ∀ r j v, (j < d)%nat → get samples r j = Ok v → centre v.
Proof.
  unfold LHS._centered. intros Hr.
  apply bind_Ok in Hr as (s0 & Hz & Hr).
  destruct (zeros_rows _ _ _ Hz) as (_ & Hlen0).
  unfold range in Hr. fold d in Hr.
  apply (for_range_invariant centred _ d) in Hr; [| |lia|].
  - destruct Hr as [_ Hr]. intros r j v Hj Hv. by eapply Hr.
  - clear Hr. intros i [s g0] st' Hi [Hls Hs] Hbody. cbn [fst] in *.
    rewrite length_zip_with, Hla, Hlb, Nat.min_id in Hbody.
    pose proof (permutation_perm n g0) as Hperm.
    destruct (permutation n g0) as [p g1]. cbn [fst] in Hperm.
    apply bind_Ok in Hbody as (col & Hcol & Hbody).
    apply bind_Ok in Hbody as (s1 & Hset & Hbody).
    inversion Hbody; subst st'; clear Hbody.
    apply traverse_lookup in Hcol as [Hlc Hcol].
    assert (length col = length s) as Hlen.
    { rewrite Hlc, (Permutation_length Hperm), length_seq. lia. }
    destruct (set_col_get _ _ _ _ Hset Hlen) as [Hother Hcolumn].
    unfold centred. cbn [fst].
    split; [by rewrite (set_col_length _ _ _ _ Hset)|].
    intros c r v Hc Hv. destruct (decide (c = i)) as [->|Hne].
    + assert (r < length p)%nat as Hr.
      { apply get_Ok in Hv as (row & Hrow & _).
        apply lookup_lt_Some in Hrow.
        rewrite (set_col_length _ _ _ _ Hset) in Hrow. lia. }
      destruct (lookup_lt_is_Some_2 p r Hr) as [k Hk].
      destruct (Hcol r k Hk) as (y & Hy & Hidx). apply index_Ok in Hidx.
      rewrite (Hcolumn r y Hy) in Hv. injection Hv as <-.
      assert (k < n)%nat as Hkn.
      { apply list_elem_of_lookup_2 in Hk. rewrite Hperm in Hk.
        apply elem_of_seq in Hk. lia. }
      rewrite lookup_zip_with, (Ha k Hkn), (Hb k Hkn) in Hidx.
      injection Hidx as <-. by exists k.
    + rewrite Hother in Hv by done. apply (Hs c r v); [lia|done].
  - split; [done|]. intros c r v Hc; lia.
Qed.

End Centres.

(** X21. Every entry of the 'centered' design is the midpoint of one of
    the [nsamples] bins: [(k / nsamples + (k + 1) / nsamples) / 2] for
    some [k] below [nsamples]. *)
Theorem centered_design_at_midpoints {G : Type} `{RandomSource G}
    pd corr (self : LHS.t) (g g' : G) samples :
  LHS.lhs_criterion self = "centered" → 0 <= LHS.nsamples self →
  LHS.design pd corr self g = Ok (samples, g') →
  ∀ r j v, (j < Z.to_nat (LHS.dimension self))%nat →
    get samples r j = Ok v →
    ∃ k, (k < Z.to_nat (LHS.nsamples self))%nat ∧
      v = ((inject_Z (Z.of_nat k) / inject_Z (LHS.nsamples self)
            + inject_Z (Z.of_nat (1 + k)) / inject_Z (LHS.nsamples self))
           / 2)%Q.
Proof.
  intros Hc HN. unfold LHS.design. destruct (_ <? 0); [discriminate|].
  destruct (cut_points (LHS.nsamples self) HN) as (Hla & Hlb & Ha & Hb).
  rewrite Hc. cbn [String.eqb Ascii.eqb Bool.eqb].
  intros Hdesign. by apply (_centered_centres self _ _ Hla Hlb Ha Hb g g').
Qed.

(** The centred design of three samples in two dimensions. *)
Lemma centered_design_at_midpoints_witness :
  ∃ v k, (k < 3)%nat ∧
    v = ((inject_Z (Z.of_nat k) / inject_Z 3
          + inject_Z (Z.of_nat (1 + k)) / inject_Z 3) / 2)%Q.
Proof.
  set (self := LHS.mk 2 3 [] [] "centered" "euclidean" 100).
  destruct (LHS.design Fixture.flat_pdist Fixture.flat_corr self O)
    as [[samples g']|e] eqn:E; [|vm_compute in E; discriminate].
  destruct (get samples 1 1) as [v|e] eqn:Ev;
    [|vm_compute in E; injection E as <- _; vm_compute in Ev; discriminate].
  destruct (centered_design_at_midpoints Fixture.flat_pdist Fixture.flat_corr
              self O g' samples eq_refl ltac:(cbn; lia) E 1%nat 1%nat v
              ltac:(cbn; lia) Ev) as (k & Hk & Hv).
  by exists v, k.
Defined.

(** * What [init_sts] leaves *)

(** X22. A configuration that [init_sts] accepts with a non-negative
    dimension has one distribution and one parameter array for each
    dimension; a design, when given, has as many entries as the
    dimension, and without a design the strata come from the input
    file. *)
Theorem init_sts_validated (a : STS.Args.t) dim dt dp strata :
  STS.init_sts a = Ok (dim, dt, dp, strata) → 0 <= dim →
  length dt = Z.to_nat dim ∧ length dp = Z.to_nat dim ∧
  (∀ d, STS.Args.sts_design a = Some d → dim = Z.of_nat (length d)) ∧
  (STS.Args.sts_design a = None → is_Some (STS.Args.input_file a)).
Proof.
  unfold STS.init_sts. intros Hinit Hdim.
  apply bind_Ok in Hinit as (dim0 & Hd & Hinit).
  apply bind_Ok in Hinit as (dt0 & Hdt & Hinit).
  apply bind_Ok in Hinit as (dp0 & Hdp0 & Hinit).
  apply bind_Ok in Hinit as (dp1 & Hdp & Hinit).
  apply bind_Ok in Hinit as (st & Hst & Hinit).
  injection Hinit as -> -> -> ->.
  assert (length dt = Z.to_nat dim) as Hldt.
  { destruct (Z.eqb_spec (Z.of_nat (length
        match STS.Args.dist_type a with
        | Some (STS.One it) => [it]
        | Some (STS.Many l) => l
        | None => [Distributions.DStr "Uniform"]
        end)) dim) as [E|E]; cbn [negb] in Hdt.
    - injection Hdt as <-. lia.
    - destruct (_ =? 1)%nat eqn:E1 in Hdt; [|discriminate].
      injection Hdt as <-. apply Nat.eqb_eq in E1.
      rewrite length_list_mul, E1. lia. }
  split; [done|]. split; [|split].
  - destruct (Z.eqb_spec (Z.of_nat (length dp0)) dim) as [E|E];
      cbn [negb] in Hdp.
    + injection Hdp as <-. lia.
    + destruct (STS.Args.dist_params a) as [ps|], dt as [|it dt'];
        try (injection Hdp as <-; simpl in Hldt; simpl; lia);
        (destruct (_ =? 1)%nat eqn:E1 in Hdp; [|discriminate];
         injection Hdp as <-; apply Nat.eqb_eq in E1;
         rewrite length_list_mul, E1; lia).
  - intros d Hsd. rewrite Hsd in Hd.
    destruct (STS.Args.dimension a) as [d0|]; [|by injection Hd as <-].
    destruct (Z.eqb_spec d0 (Z.of_nat (length d))) as [E|E];
      cbn [negb] in Hd; [|discriminate]. injection Hd as <-. exact E.
  - intros Hsd. rewrite Hsd in Hst.
    destruct (STS.Args.input_file a); [done|discriminate].
Qed.

(** A design of two dimensions with the defaults. *)
Lemma init_sts_validated_witness :
  ∃ dim dt dp strata,
    STS.init_sts (STS.Args.mk None None None (Some [2; 2]) None)
    = Ok (dim, dt, dp, strata) ∧
    length dt = Z.to_nat dim ∧ length dp = Z.to_nat dim.
Proof.
  destruct (STS.init_sts (STS.Args.mk None None None (Some [2; 2]) None))
    as [[[[dim dt] dp] strata]|e] eqn:E; [|vm_compute in E; discriminate].
  exists dim, dt, dp, strata. split; [reflexivity|].
  assert (0 <= dim) as Hdim
    by (vm_compute in E; injection E as <- _ _ _; lia).
  destruct (init_sts_validated _ dim dt dp strata E Hdim)
    as (Hdt & Hdp & _).
  by split.
Defined.
